(** * Digole serial display driver (digole.py): the protocol core

    A shallow embedding of the driver's protocol core: the chunked writer
    [_write], the command encoder [_sendCommand], the instruction recorder
    ([startRecording], [getRecordingSize], [stopRecording]), the paced bulk
    transfer [_sendLargeFileSlowly] and the response correlator [doCheck],
    with the callers of the core that have a logic of their own:
    [waitUntilReady], [setFont], [setColor], [uploadUserFont] and
    [uploadStartScreen].

    The driver is imperative Python.  Its object fields, the I2C bus, the
    millisecond clock and the file system are modelled by a state-and-error
    monad [M] over a record [World]; what the outside world answers (bus
    acknowledgements, bytes read back, clock readings, file contents) is
    an oracle [Env] that the monad reads.  Every effect the outside can
    observe is appended to [trace]. *)

From Stdlib Require Import ZArith NArith String Ascii Bool Lia PeanoNat List.
From Stdlib.Strings Require Import Byte.
From Stdlib Require Import PrimFloat Uint63.
Import ListNotations.

(* ================================================================== *)
(** * Python data *)
(* ================================================================== *)

(** [bytes] objects are byte lists; [str] objects are lists of Unicode
    code points. *)
Definition bytes := list byte.
Definition str := list N.

(** A bytes literal [b'...'] and a str literal ['...'] over ASCII text. *)
Definition b_lit (s : string) : bytes := list_byte_of_string s.
Definition s_lit (s : string) : str := map Byte.to_N (list_byte_of_string s).

(** The exceptions that can cross the driver. *)
Inductive exn : Type :=
| OSError (msg : string)
| OverflowError
| ValueError
| IndexError
| AttributeError
| UnicodeEncodeError
| UserError (tag : string).

Inductive outcome (A : Type) : Type :=
| Ret (a : A)
| Raise (e : exn).
Arguments Ret {A} a.
Arguments Raise {A} e.

(** Numbers that appear in the argument list of an event: raw two-byte
    readings are ints, derived readings are binary64 floats. *)
Inductive num : Type :=
| Int (z : Z)
| Float (f : float).

(** [class EventCode]. *)
Inductive EventCode : Type := CLICK | ANALOG | TEMP | VOLTAGE.

Definition EventCode_value (c : EventCode) : Z :=
  match c with CLICK => 1 | ANALOG => 2 | TEMP => 3 | VOLTAGE => 4 end%Z.

Definition EventCode_eqb (a b : EventCode) : bool :=
  (EventCode_value a =? EventCode_value b)%Z.

(** An entry of [_waitBuffer]: the tuple [(event_code, argCount, timeStamp)]. *)
Definition Pending : Type := EventCode * nat * Z.

(** An element of the list [doCheck] returns: [(event_code, args)]. *)
Definition Event : Type := EventCode * list num.

(** An [io.BytesIO]: its contents and the stream position. *)
Record BytesIO : Type := mkBytesIO { buf : bytes; pos : nat }.

(** A value passed as a command argument, by its Python type.  [bool] is a
    type of its own ([type(True) is int] is false although [True == 1]);
    [PObj] stands for any other object, given by what [str()] makes of it. *)
Inductive pyval : Type :=
| PBytes (b : bytes)
| PInt (n : Z)
| PBool (b : bool)
| PStr (s : str)
| PNone
| PObj (display : str).

Inductive pytype : Type := TBytes | TInt | TBool | TStr | TNoneType | TObject.

Definition type_of (v : pyval) : pytype :=
  match v with
  | PBytes _ => TBytes | PInt _ => TInt | PBool _ => TBool
  | PStr _ => TStr | PNone => TNoneType | PObj _ => TObject
  end.

(** The integer a value compares equal to, where it has one
    ([True == 1], [False == 0]). *)
Definition int_value (v : pyval) : option Z :=
  match v with
  | PInt n => Some n
  | PBool true => Some 1%Z
  | PBool false => Some 0%Z
  | _ => None
  end.

(* ================================================================== *)
(** * The world outside the driver *)
(* ================================================================== *)

(** What [i2c.readfrom(address, 2)] produces. *)
Inductive read_reply : Type :=
| Data (hi lo : byte)
| BusError (msg : string).

(** The environment: the answer to the k-th bus write ([None]: accepted,
    [Some msg]: [OSError(msg)]), to the k-th bus read, the k-th reading of
    the millisecond clock, and the files on disk. *)
Record Env : Type := mkEnv {
  writeto_reply : nat -> option string;
  readfrom_reply : nat -> read_reply;
  ticks : nat -> Z;
  disk : string -> option bytes
}.

(** What the outside observes, in order. *)
Inductive effect : Type :=
| I2cWrite (addr : Z) (data : bytes)
| I2cRead (addr : Z) (value : Z)
| Sleep (ms : Z)
| Print (text : string)
| PrintBytes (v : bytes)
| BufferClosed
| GcCollect.

(** The fields of a [DigoleDisplay], the counters that index the oracle,
    and the effects so far. *)
Record World : Type := mkWorld {
  address : Z;
  dataDelay : Z;
  _paperTrail : option BytesIO;
  debug : bool;
  _waitBuffer : list Pending;
  _inBuffer : list Z;
  writes_tried : nat;
  reads_tried : nat;
  ticks_read : nat;
  trace : list effect
}.

(** Field assignments. *)
Definition set_dataDelay (d : Z) (w : World) : World :=
  let '(mkWorld a _ p dbg wq iq nw nr nt t) := w in mkWorld a d p dbg wq iq nw nr nt t.
Definition set_paperTrail (p : option BytesIO) (w : World) : World :=
  let '(mkWorld a d _ dbg wq iq nw nr nt t) := w in mkWorld a d p dbg wq iq nw nr nt t.
Definition set_waitBuffer (wq : list Pending) (w : World) : World :=
  let '(mkWorld a d p dbg _ iq nw nr nt t) := w in mkWorld a d p dbg wq iq nw nr nt t.
Definition set_inBuffer (iq : list Z) (w : World) : World :=
  let '(mkWorld a d p dbg wq _ nw nr nt t) := w in mkWorld a d p dbg wq iq nw nr nt t.
Definition set_writes_tried (nw : nat) (w : World) : World :=
  let '(mkWorld a d p dbg wq iq _ nr nt t) := w in mkWorld a d p dbg wq iq nw nr nt t.
Definition set_reads_tried (nr : nat) (w : World) : World :=
  let '(mkWorld a d p dbg wq iq nw _ nt t) := w in mkWorld a d p dbg wq iq nw nr nt t.
Definition set_ticks_read (nt : nat) (w : World) : World :=
  let '(mkWorld a d p dbg wq iq nw nr _ t) := w in mkWorld a d p dbg wq iq nw nr nt t.
Definition set_trace (t : list effect) (w : World) : World :=
  let '(mkWorld a d p dbg wq iq nw nr nt _) := w in mkWorld a d p dbg wq iq nw nr nt t.

(** [DigoleDisplay.__init__]. *)
Definition __init__ (address : Z) : World :=
  mkWorld address 5 None false [] [] 0 0 0 [].

(* ================================================================== *)
(** * The monad *)
(* ================================================================== *)

Definition M (A : Type) : Type := Env -> World -> outcome A * World.

Definition ret {A} (a : A) : M A := fun _ w => (Ret a, w).

Definition bind {A B} (m : M A) (k : A -> M B) : M B :=
  fun env w =>
    match m env w with
    | (Ret a, w') => k a env w'
    | (Raise e, w') => (Raise e, w')
    end.

Definition raise {A} (e : exn) : M A := fun _ w => (Raise e, w).

Definition lift {A} (r : outcome A) : M A := fun _ w => (r, w).

Definition gets {A} (f : World -> A) : M A := fun _ w => (Ret (f w), w).

Definition modify (f : World -> World) : M unit := fun _ w => (Ret tt, f w).

Declare Scope py_scope.
Delimit Scope py_scope with py.
Notation "x <- c1 ;; c2" := (bind c1 (fun x => c2))
  (at level 61, c1 at next level, right associativity) : py_scope.
Notation "c1 ;; c2" := (bind c1 (fun _ => c2))
  (at level 61, right associativity) : py_scope.
Open Scope py_scope.

(** [try: body finally: fin]: [fin] runs on both exits; an exception of
    [fin] replaces the pending one. *)
Definition try_finally {A} (body : M A) (fin : M unit) : M A :=
  fun env w =>
    let (r, w1) := body env w in
    match fin env w1 with
    | (Ret _, w2) => (r, w2)
    | (Raise e, w2) => (Raise e, w2)
    end.

(** [try: body except OSError as e: handler(str(e))]. *)
Definition try_except_OSError {A} (body : M A) (handler : string -> M A) : M A :=
  fun env w =>
    match body env w with
    | (Raise (OSError msg), w1) => handler msg env w1
    | other => other
    end.

(** [for x in xs: body(x)] over a list the body does not change. *)
Fixpoint for_each {X} (xs : list X) (body : X -> M unit) : M unit :=
  match xs with
  | [] => ret tt
  | x :: xs' => body x ;; for_each xs' body
  end.

Definition emit (e : effect) : M unit :=
  modify (fun w => set_trace (trace w ++ [e]) w).

(** ** Primitives of the platform *)

Definition sleep_ms (ms : Z) : M unit := emit (Sleep ms).

(** [getTicks_ms()]: the next reading of the clock, in whole
    milliseconds (the host build reads a float, [1000 * time.time()]). *)
Definition getTicks_ms : M Z :=
  fun env w => (Ret (ticks env (ticks_read w)), set_ticks_read (S (ticks_read w)) w).

(** [getDeltaTime(t2, t1 = -1)]: with [t1] left out, the time elapsed
    since [t2].  (On the micro-controller the subtraction is
    [time.ticks_diff], which agrees with it inside the clock's period.) *)
Definition getDeltaTime (t2 t1 : Z) : M Z :=
  if (t1 <? 0)%Z then
    now <- getTicks_ms ;;
    ret (now - t2)%Z
  else ret (t2 - t1)%Z.

(** [self.i2c.writeto(self.address, v)]. *)
Definition i2c_writeto (v : bytes) : M unit :=
  fun env w =>
    let w1 := set_writes_tried (S (writes_tried w)) w in
    match writeto_reply env (writes_tried w) with
    | None => (Ret tt, set_trace (trace w1 ++ [I2cWrite (address w1) v]) w1)
    | Some msg => (Raise (OSError msg), w1)
    end.

(** [int.from_bytes(raw, "big")] of two bytes. *)
Definition int_from_bytes_big (hi lo : byte) : Z :=
  (256 * Z.of_N (Byte.to_N hi) + Z.of_N (Byte.to_N lo))%Z.

(** [int.from_bytes(self.i2c.readfrom(self.address, 2), "big")]. *)
Definition i2c_readfrom2 : M Z :=
  fun env w =>
    let w1 := set_reads_tried (S (reads_tried w)) w in
    match readfrom_reply env (reads_tried w) with
    | Data hi lo =>
        let v := int_from_bytes_big hi lo in
        (Ret v, set_trace (trace w1 ++ [I2cRead (address w1) v]) w1)
    | BusError msg => (Raise (OSError msg), w1)
    end.

(** ** [io.BytesIO] *)

(** [stream.write(v)]: overwrites from the position on, zero-filling a gap
    when the position lies beyond the end. *)
Definition BytesIO_write (v : bytes) (s : BytesIO) : BytesIO :=
  mkBytesIO (firstn (pos s) (buf s) ++ repeat x00 (pos s - length (buf s))
               ++ v ++ skipn (pos s + length v) (buf s))
            (pos s + length v).

(** [stream.seek(0, 2)] and [stream.seek(0, 0)], with the position they return. *)
Definition BytesIO_seek_end (s : BytesIO) : nat * BytesIO :=
  (length (buf s), mkBytesIO (buf s) (length (buf s))).
Definition BytesIO_seek_start (s : BytesIO) : nat * BytesIO :=
  (0, mkBytesIO (buf s) 0).

(** Python slices and ranges. *)
Definition slice {X} (v : list X) (i j : nat) : list X := firstn (j - i) (skipn i v).

Definition range (start stop step : nat) : list nat :=
  map (fun k => start + k * step) (seq 0 ((stop - start + (step - 1)) / step)).

(** [needle in hay] on strings. *)
Fixpoint contains (needle hay : string) : bool :=
  if String.prefix needle hay then true
  else match hay with
       | EmptyString => false
       | String _ hay' => contains needle hay'
       end.

(* ================================================================== *)
(** * class DigolePrimitive *)
(* ================================================================== *)

(** ** Instruction recorder *)

Definition isRecording : M bool :=
  gets (fun w => match _paperTrail w with Some _ => true | None => false end).

Definition startRecording : M unit :=
  rec <- isRecording ;;
  if negb rec then modify (set_paperTrail (Some (mkBytesIO [] 0)))
  else ret tt.

(** A method call on [self._paperTrail]; on [None] Python raises
    [AttributeError]. *)
Definition on_paperTrail {A} (method : BytesIO -> outcome A * BytesIO) : M A :=
  fun _ w =>
    match _paperTrail w with
    | Some s => let (r, s') := method s in (r, set_paperTrail (Some s') w)
    | None => (Raise AttributeError, w)
    end.

Definition paperTrail_write (v : bytes) : M unit :=
  on_paperTrail (fun s => (Ret tt, BytesIO_write v s)).
Definition paperTrail_seek_end : M nat :=
  on_paperTrail (fun s => let (n, s') := BytesIO_seek_end s in (Ret n, s')).
Definition paperTrail_seek_start : M nat :=
  on_paperTrail (fun s => let (n, s') := BytesIO_seek_start s in (Ret n, s')).
Definition paperTrail_getvalue : M bytes :=
  on_paperTrail (fun s => (Ret (buf s), s)).
Definition paperTrail_close : M unit :=
  on_paperTrail (fun s => (Ret tt, s)) ;; emit BufferClosed.

Definition getRecordingSize : M nat :=
  rec <- isRecording ;;
  if negb rec then ret 0 else paperTrail_seek_end.

(** A consumer callback [function(<stream>)] with its extra arguments
    applied: it may read, move or rewrite the stream it is handed, and
    returns (the value is ignored) or raises. *)
Definition StreamHandler : Type := BytesIO -> outcome unit * BytesIO.

(** What [stopRecording] returns: [None], the size, or the recorded bytes. *)
Inductive recording : Type :=
| RNone
| RSize (n : nat)
| RBytes (v : bytes).

Definition stopRecording (streamHandler : option StreamHandler) : M recording :=
  rec <- isRecording ;;
  if negb rec then ret RNone
  else
    try_finally
      (match streamHandler with
       | Some handler =>
           result <- getRecordingSize ;;
           paperTrail_seek_start ;;
           on_paperTrail handler ;;
           ret (RSize result)
       | None =>
           result <- paperTrail_getvalue ;;
           ret (RBytes result)
       end)
      (paperTrail_close ;;
       modify (set_paperTrail None) ;;
       emit GcCollect).

(** ** Chunked writer *)

(** The [else] branch of [_write]: one bus write, mirrored into the
    recording and the debug output. *)
Definition transmit (v : bytes) : M unit :=
  i2c_writeto v ;;
  rec <- isRecording ;;
  (if rec then paperTrail_write v else ret tt) ;;
  dbg <- gets debug ;;
  if dbg then emit (PrintBytes v) else ret tt.

(** [_write] calls itself on each 64-byte slice.  [depth] bounds the
    nesting of these calls; [_write_depth_enough] shows that two levels
    are all the recursion ever uses. *)
Fixpoint _write_depth (depth : nat) (v : bytes) : M unit :=
  match depth with
  | O => ret tt
  | S depth' =>
      if 64 <? length v then
        for_each (range 0 (length v) 64) (fun i =>
          let chunk := slice v i (i + 64) in
          _write_depth depth' chunk ;;
          delay <- gets dataDelay ;;
          sleep_ms delay)
      else transmit v
  end.

Definition _write (v : bytes) : M unit := _write_depth 2 v.

Definition executeScript (binaryInstructions : bytes) : M unit :=
  _write binaryInstructions.

(** ** Command encoder *)

(** [n.to_bytes(1, "big")], as CPython has it: [OverflowError] unless
    [0 <= n <= 255]. *)
Definition to_bytes1 (n : Z) : outcome bytes :=
  if (n <? 0)%Z then Raise OverflowError
  else match Byte.of_N (Z.to_N n) with
       | Some b => Ret [b]
       | None => Raise OverflowError
       end.

Definition bytes_of_Ns (l : list N) : option bytes :=
  fold_right (fun n acc =>
                match Byte.of_N n, acc with
                | Some b, Some bs => Some (b :: bs)
                | _, _ => None
                end) (Some []) l.

(** UTF-8 of one code point; a surrogate has none. *)
Definition utf8_of_code_point (c : N) : option bytes :=
  (if c <? 0x80 then bytes_of_Ns [c]
   else if c <? 0x800 then bytes_of_Ns [0xC0 + c / 0x40; 0x80 + c mod 0x40]
   else if (0xD800 <=? c) && (c <=? 0xDFFF) then None
   else if c <? 0x10000 then
     bytes_of_Ns [0xE0 + c / 0x1000; 0x80 + (c / 0x40) mod 0x40; 0x80 + c mod 0x40]
   else if c <? 0x110000 then
     bytes_of_Ns [0xF0 + c / 0x40000; 0x80 + (c / 0x1000) mod 0x40;
                  0x80 + (c / 0x40) mod 0x40; 0x80 + c mod 0x40]
   else None)%N.

(** [s.encode("utf-8")]. *)
Fixpoint encode_utf8 (s : str) : outcome bytes :=
  match s with
  | [] => Ret []
  | c :: s' =>
      match utf8_of_code_point c, encode_utf8 s' with
      | Some b, Ret bs => Ret (b ++ bs)
      | None, _ => Raise UnicodeEncodeError
      | _, Raise e => Raise e
      end
  end.

(** [str(b)] of a bool. *)
Definition str_of_bool (b : bool) : str :=
  if b then s_lit "True" else s_lit "False".

(** The last branch of the encoder: the text and one zero byte. *)
Definition append_text (command : bytes) (s : str) : outcome bytes :=
  match encode_utf8 s, to_bytes1 0 with
  | Ret b, Ret z => Ret (command ++ b ++ z)
  | Raise e, _ => Raise e
  | _, Raise e => Raise e
  end.

(** The integer branch of the encoder. *)
Definition append_int (command : bytes) (arg : Z) : outcome bytes :=
  let '(command, arg) :=
    if (255 <=? arg)%Z then (command ++ [xff], (arg - 255)%Z) else (command, arg) in
  match to_bytes1 arg with
  | Ret b => Ret (command ++ b)
  | Raise e => Raise e
  end.

(** The body of the loop of [_sendCommand]; the branches are, in the
    order of the source, [type(arg) is bytes], [type(arg) is int],
    [arg is None], and everything else, where a value that is not a [str]
    is first replaced by [str(arg)]. *)
Definition append_arg (command : bytes) (arg : pyval) : outcome bytes :=
  match arg with
  | PBytes b => Ret (command ++ b)
  | PInt n => append_int command n
  | PNone => Ret command
  | PStr s => append_text command s
  | PBool b => append_text command (str_of_bool b)
  | PObj display => append_text command display
  end.

Fixpoint append_args (command : bytes) (args : list pyval) : outcome bytes :=
  match args with
  | [] => Ret command
  | arg :: args' =>
      match append_arg command arg with
      | Ret command' => append_args command' args'
      | Raise e => Raise e
      end
  end.

Definition _sendCommand (command : bytes) (args : list pyval) : M unit :=
  command' <- lift (append_args command args) ;;
  _write command'.

(** ** Files and the paced bulk transfer *)

(** [open(fileName, "rb")], as the whole content to be read. *)
Definition open_rb (fileName : string) : M bytes :=
  fun env w =>
    match disk env fileName with
    | Some content => (Ret content, w)
    | None => (Raise (OSError "ENOENT"), w)
    end.

Definition _getFileSize (fileName : string) : M nat :=
  content <- open_rb fileName ;;
  ret (length content).

(** The [while True] loop of [_sendFile] over the unread rest of the
    file.  Every turn but the last reads at least one byte, so
    [S (length rest)] turns are enough ([_sendFile_loop_fuel]). *)
Fixpoint _sendFile_loop (fuel : nat) (unread : bytes) : M unit :=
  match fuel with
  | O => ret tt
  | S fuel' =>
      emit (Print ".") ;;
      let chunk := firstn 128 unread in
      match chunk with
      | [] => emit (Print (String "010"%char EmptyString))
      | _ => _write chunk ;; _sendFile_loop fuel' (skipn 128 unread)
      end
  end.

Definition _sendFile (fileName : string) : M unit :=
  content <- open_rb fileName ;;
  _sendFile_loop (S (length content)) content.

(** [bytes([a, b])]: [ValueError] unless both are in [range(256)]. *)
Definition bytes_of_ints (l : list nat) : outcome bytes :=
  match bytes_of_Ns (map N.of_nat l) with
  | Some b => Ret b
  | None => Raise ValueError
  end.

(** The literal [b'\ff'] of the source: the escape [\f] (form feed,
    0x0c) followed by the letter f (0x66). *)
Definition end_indicator : bytes := [x0c; x66].

Definition _sendLargeFileSlowly (fileName : string) : M unit :=
  size <- _getFileSize fileName ;;
  stdDelay <- gets dataDelay ;;
  modify (set_dataDelay 40) ;;
  header <- lift (bytes_of_ints [size / 256; size mod 256]) ;;
  _write header ;;
  sleep_ms 200 ;;
  _sendFile fileName ;;
  _write end_indicator ;;
  sleep_ms 40 ;;
  modify (set_dataDelay stdDelay).

(* ================================================================== *)
(** * class DigoleBasic: the read commands *)
(* ================================================================== *)

Module DigoleBasic.
Definition readTouchScreen : M unit := _sendCommand (b_lit "RPNXYW") [].
Definition readClick : M unit := _sendCommand (b_lit "RPNXYC") [].
Definition checkTouchScreen : M unit := _sendCommand (b_lit "RPNXYI") [].
Definition readVoltage : M unit := _sendCommand (b_lit "RDBAT") [].
Definition readAnalog : M unit := _sendCommand (b_lit "RDAUX") [].
Definition readTemperature : M unit := _sendCommand (b_lit "RDTMP") [].
End DigoleBasic.

(* ================================================================== *)
(** * class DigoleDisplay: the response correlator *)
(* ================================================================== *)

(** [self._waitBuffer.append((event_code, argCount, getTicks_ms()))]. *)
Definition waitBuffer_append (event_code : EventCode) (argCount : nat) : M unit :=
  now <- getTicks_ms ;;
  modify (fun w => set_waitBuffer (_waitBuffer w ++ [(event_code, argCount, now)]) w).

Definition checkTouchScreen : M unit :=
  DigoleBasic.checkTouchScreen ;; waitBuffer_append CLICK 2.
Definition readAnalog : M unit :=
  DigoleBasic.readAnalog ;; waitBuffer_append ANALOG 1.
Definition readClick : M unit :=
  DigoleBasic.readClick ;; waitBuffer_append CLICK 2.
Definition readTemperature : M unit :=
  DigoleBasic.readTemperature ;; waitBuffer_append TEMP 1.
Definition readTouchScreen : M unit :=
  DigoleBasic.readTouchScreen ;; waitBuffer_append CLICK 2.
Definition readVoltage : M unit :=
  DigoleBasic.readVoltage ;; waitBuffer_append VOLTAGE 1.

(** [_readInt]: one two-byte integer from the device, as a one-element list. *)
Definition _readInt : M (list Z) :=
  raw <- i2c_readfrom2 ;;
  sleep_ms 1 ;;
  ret [raw].

(** [self._waitBuffer.pop(0)] and [self._inBuffer.pop(0)]. *)
Definition waitBuffer_pop0 : M Pending :=
  fun _ w =>
    match _waitBuffer w with
    | [] => (Raise IndexError, w)
    | x :: q => (Ret x, set_waitBuffer q w)
    end.

Definition inBuffer_pop0 : M Z :=
  fun _ w =>
    match _inBuffer w with
    | [] => (Raise IndexError, w)
    | x :: q => (Ret x, set_inBuffer q w)
    end.

(** [[self._inBuffer.pop(0) for i in range(argCount)]]. *)
Fixpoint pop_args (argCount : nat) : M (list Z) :=
  match argCount with
  | O => ret []
  | S n =>
      x <- inBuffer_pop0 ;;
      xs <- pop_args n ;;
      ret (x :: xs)
  end.

(** An int converted to float for arithmetic with a float (exact for the
    two-byte readings the device sends). *)
Definition float_of_int (z : Z) : float := PrimFloat.of_uint63 (Uint63.of_Z z).

(** [d * 2.5/4096.] and [(653-(d * 2500./4096.))/2.1]. *)
Definition analog_volts (d : Z) : float :=
  (float_of_int d * 2.5 / 4096)%float.
Definition chip_celsius (d : Z) : float :=
  ((653 - (float_of_int d * 2500 / 4096)) / 0x1.0cccccccccccdp+1)%float.

(** The part of the loop body of [doCheck] after the arguments are
    fetched: [Ret None] is the [continue] of a rejected click, otherwise
    the tuple appended to [result].  [args[0]] raises [IndexError] on an
    empty list. *)
Definition process (event_code : EventCode) (args : list Z) : outcome (option Event) :=
  match event_code, args with
  | CLICK, [] => Raise IndexError
  | CLICK, a0 :: _ =>
      if (1000 <? a0)%Z then Ret None
      else Ret (Some (event_code, map Int args))
  | ANALOG, [] => Raise IndexError
  | ANALOG, a0 :: _ => Ret (Some (event_code, Float (analog_volts a0) :: map Int args))
  | TEMP, [] => Raise IndexError
  | TEMP, a0 :: _ => Ret (Some (event_code, Float (chip_celsius a0) :: map Int args))
  | VOLTAGE, _ => Ret (Some (event_code, map Int args))
  end.

(** The second loop of [doCheck]:
    [for event_code, argCount, timeStamp in self._waitBuffer: ...].
    A Python list iterator is an index into the live list: each turn
    yields element [i] of the list as it is then and moves on to [i + 1],
    and the loop ends when [i] is no longer inside the list.  The body
    removes elements from the very list it walks ([pop(0)]), so the list
    is re-read from the state each turn.  The list never grows, hence
    [length _waitBuffer] turns are enough ([walk_fuel]). *)
Fixpoint walk (fuel : nat) (i : nat) (result : list Event) : M (list Event) :=
  match fuel with
  | O => ret result
  | S fuel' =>
      queue <- gets _waitBuffer ;;
      match nth_error queue i with
      | None => ret result
      | Some (event_code, argCount, timeStamp) =>
          age <- getDeltaTime timeStamp (-1) ;;
          if (2000 <? age)%Z then
            waitBuffer_pop0 ;;
            walk fuel' (S i) result
          else
            inBuffer <- gets _inBuffer ;;
            if length inBuffer <? argCount then ret result
            else
              args <- pop_args argCount ;;
              event <- lift (process event_code args) ;;
              match event with
              | None => walk fuel' (S i) result
              | Some ev => walk fuel' (S i) (result ++ [ev])
              end
      end
  end.

(** The first loop of [doCheck] with its [try]: one [_readInt] per
    pending entry (the body leaves [_waitBuffer] alone); an [OSError]
    whose text contains ETIMEDOUT ends the loop, any other is raised
    again. *)
Definition drain : M unit :=
  try_except_OSError
    (queue <- gets _waitBuffer ;;
     for_each queue (fun _ =>
       ii <- _readInt ;;
       modify (fun w => set_inBuffer (_inBuffer w ++ ii) w)))
    (fun msg =>
       if negb (contains "ETIMEDOUT" msg) then raise (OSError msg)
       else ret tt).

Definition doCheck : M (list Event) :=
  drain ;;
  queue <- gets _waitBuffer ;;
  result <- walk (length queue) 0 [] ;;
  queue' <- gets _waitBuffer ;;
  (match queue' with
   | [] => modify (set_inBuffer [])
   | _ => ret tt
   end) ;;
  ret result.

(* ================================================================== *)
(** * Callers of the core: readiness, fonts, colours, uploads *)
(* ================================================================== *)

(** The loop of [waitUntilReady]: write one zero byte until the bus takes
    it.  An [OSError] whose text lacks ENODEV is raised again; with a
    positive [timeOut], a refusal seen more than [timeOut] ms after [t]
    raises [OSError("ETIMEOUT")].  The loop need not end, so the model
    counts the turns it may take: [None] is the answer of a loop that is
    still retrying when they are used up. *)
Fixpoint waitUntilReady_loop (fuel : nat) (timeOut t : Z) : M (option unit) :=
  match fuel with
  | O => ret None
  | S fuel' =>
      try_except_OSError
        (_write [x00] ;; ret (Some tt))
        (fun msg =>
           if negb (contains "ENODEV" msg) then raise (OSError msg)
           else if (0 <? timeOut)%Z then
             age <- getDeltaTime t (-1) ;;
             if (timeOut <? age)%Z then raise (OSError "ETIMEOUT")
             else waitUntilReady_loop fuel' timeOut t
           else waitUntilReady_loop fuel' timeOut t)
  end.

(** [waitUntilReady(timeOut = -1)] with at most [fuel] attempts. *)
Definition waitUntilReady (fuel : nat) (timeOut : Z) : M (option unit) :=
  t <- getTicks_ms ;;
  waitUntilReady_loop fuel timeOut t.

(** [l[i]] with Python's indices: a negative index counts from the end,
    an index outside the list raises [IndexError]. *)
Definition list_getitem {X} (l : list X) (i : Z) : outcome X :=
  let j := if (i <? 0)%Z then (Z.of_nat (length l) + i)%Z else i in
  if (j <? 0)%Z then Raise IndexError
  else match nth_error l (Z.to_nat j) with
       | Some x => Ret x
       | None => Raise IndexError
       end.

(** [setFont(b)] for an int [b]. *)
Definition setFont (b : Z) : M unit :=
  b <- (if (b <? 7)%Z then lift (list_getitem [0; 6; 10; 18; 51; 120; 123]%Z b)
        else ret b) ;;
  _sendCommand (b_lit "SF") [PInt b].

(** The argument of [setColor]: a tuple or list of ints, or anything else. *)
Inductive color : Type :=
| ColorComponents (c : list Z)
| ColorValue (c : pyval).

Definition setColor (c : color) : M unit :=
  match c with
  | ColorComponents c =>
      _sendCommand (b_lit "ESC") (map (fun x => PInt (Z.shiftr x 2)) c)
  | ColorValue c => _sendCommand (b_lit "SC") [c]
  end.

(** [uploadUserFont] and [uploadStartScreen]: the file is opened once
    before the command goes out. *)
Definition uploadUserFont (index : pyval) (fileName : string) : M unit :=
  _getFileSize fileName ;;
  _sendCommand (b_lit "SUF") [index] ;;
  _sendLargeFileSlowly fileName.

Definition uploadStartScreen (fileName : string) : M unit :=
  _getFileSize fileName ;;
  _sendCommand (b_lit "SSS") [] ;;
  _sendLargeFileSlowly fileName.

(* ================================================================== *)
(** * Vocabulary of the properties *)
(* ================================================================== *)

(** The value of a byte. *)
Definition byte_value (b : byte) : Z := Z.of_N (Byte.to_N b).

(** The extension-byte scheme: [emitted] is [k] bytes 0xFF and one final
    byte below 255, and [255 * k + final = n]. *)
Definition extension_coded (n : Z) (emitted : bytes) : Prop :=
  exists (k : nat) (final : byte),
    emitted = repeat xff k ++ [final] /\
    (byte_value final < 255)%Z /\
    (255 * Z.of_nat k + byte_value final = n)%Z.

(** The data of the bus writes of a trace, in order. *)
Definition bus_writes (t : list effect) : list bytes :=
  flat_map (fun e => match e with I2cWrite _ data => [data] | _ => [] end) t.

(** The recording stream stands at its end (or there is none). *)
Definition at_end (p : option BytesIO) : Prop :=
  match p with
  | Some s => pos s = length (buf s)
  | None => True
  end.

(** [mirrored segs w w']: a recording that stood at its end in [w] has
    gained the bytes of [segs], in order, in [w'], and stands at its end
    again; an idle recorder is still idle. *)
Definition mirrored (segs : list bytes) (w w' : World) : Prop :=
  match _paperTrail w with
  | Some s =>
      at_end (Some s) ->
      exists s', _paperTrail w' = Some s' /\
                 buf s' = buf s ++ concat segs /\
                 at_end (Some s')
  | None => _paperTrail w' = None
  end.

(** [sent segs w w']: from [w] to [w'] the bus saw exactly the writes
    [segs], the inter-segment delay is what it was, and the recording, if
    one runs, has mirrored the writes. *)
Definition sent (segs : list bytes) (w w' : World) : Prop :=
  bus_writes (trace w') = bus_writes (trace w) ++ segs /\
  dataDelay w' = dataDelay w /\
  mirrored segs w w'.

(** The segments of one call of [_write]. *)
Definition segments (v : bytes) : list bytes :=
  if 64 <? length v then map (fun i => slice v i (i + 64)) (range 0 (length v) 64)
  else [v].

(** A bus that accepts every write. *)
Definition bus_accepts (env : Env) : Prop :=
  forall k, writeto_reply env k = None.

(** The state of the recorder after a recording is stopped. *)
Definition released (w : World) : World :=
  set_trace (trace w ++ [BufferClosed; GcCollect]) (set_paperTrail None w).

(** The length of the recording, 0 when idle. *)
Definition recorded_length (w : World) : nat :=
  match _paperTrail w with
  | Some s => length (buf s)
  | None => 0
  end.

(** The calls a user of the driver can make, and the states they lead to
    from a fresh display. *)
Inductive call : Type :=
| call_startRecording
| call_getRecordingSize
| call_stopRecording (streamHandler : option StreamHandler)
| call_executeScript (binaryInstructions : bytes)
| call_sendCommand (command : bytes) (args : list pyval)
| call_sendFile (fileName : string)
| call_sendLargeFileSlowly (fileName : string)
| call_checkTouchScreen
| call_readAnalog
| call_readClick
| call_readTemperature
| call_readTouchScreen
| call_readVoltage
| call_doCheck.

Definition perform (c : call) (env : Env) (w : World) : World :=
  match c with
  | call_startRecording => snd (startRecording env w)
  | call_getRecordingSize => snd (getRecordingSize env w)
  | call_stopRecording h => snd (stopRecording h env w)
  | call_executeScript v => snd (executeScript v env w)
  | call_sendCommand command args => snd (_sendCommand command args env w)
  | call_sendFile f => snd (_sendFile f env w)
  | call_sendLargeFileSlowly f => snd (_sendLargeFileSlowly f env w)
  | call_checkTouchScreen => snd (checkTouchScreen env w)
  | call_readAnalog => snd (readAnalog env w)
  | call_readClick => snd (readClick env w)
  | call_readTemperature => snd (readTemperature env w)
  | call_readTouchScreen => snd (readTouchScreen env w)
  | call_readVoltage => snd (readVoltage env w)
  | call_doCheck => snd (doCheck env w)
  end.

Inductive reachable (env : Env) : World -> Prop :=
| reachable_init : forall address, reachable env (__init__ address)
| reachable_call : forall w c, reachable env w -> reachable env (perform c env w).

(** The state after one reading of the clock. *)
Definition tick (w : World) : World := set_ticks_read (S (ticks_read w)) w.

(** Every entry of the queue is seen older than 2000 ms whenever the
    clock is read. *)
Definition all_stale (env : Env) (queue : list Pending) : Prop :=
  forall k event_code argCount timeStamp,
    In (event_code, argCount, timeStamp) queue ->
    (2000 < ticks env k - timeStamp)%Z.

(** The events a processed entry adds to the result: none or one. *)
Definition emitted (r : option Event) : list Event :=
  match r with
  | Some ev => [ev]
  | None => []
  end.

(** The bus writes and the pauses of a trace, in order. *)
Definition io_events (t : list effect) : list effect :=
  filter (fun e => match e with I2cWrite _ _ | Sleep _ => true | _ => false end) t.

(** One segment on the bus and the pause after it. *)
Definition segment_then_pause (addr delay : Z) (seg : bytes) : list effect :=
  [I2cWrite addr seg; Sleep delay].

(** The integer the k-th bus read delivers (0 when it raises). *)
Definition reading (env : Env) (k : nat) : Z :=
  match readfrom_reply env k with
  | Data hi lo => int_from_bytes_big hi lo
  | BusError _ => 0%Z
  end.

(** The k-th bus read delivers data. *)
Definition delivers (env : Env) (k : nat) : Prop :=
  exists hi lo, readfrom_reply env k = Data hi lo.

(** [served_from queue ev]: the event is what the transform of its
    kind makes of as many raw values as an entry of that kind in [queue]
    asks for. *)
Definition served_from (queue : list Pending) (ev : Event) : Prop :=
  exists argCount timeStamp raws,
    In (fst ev, argCount, timeStamp) queue /\
    length raws = argCount /\
    process (fst ev) raws = Ret (Some ev).

(** The requests of a queue stand in the order they were issued: the
    time stamps do not decrease. *)
Definition issue_ordered (queue : list Pending) : Prop :=
  forall i j c1 n1 t1 c2 n2 t2,
    i <= j ->
    nth_error queue i = Some (c1, n1, t1) ->
    nth_error queue j = Some (c2, n2, t2) ->
    (t1 <= t2)%Z.

(** The six methods that ask the device for a reading, each with its
    opcode and the kind and arity of the answer it registers. *)
Definition read_requests : list (M unit * string * EventCode * nat) :=
  [(checkTouchScreen, "RPNXYI"%string, CLICK, 2);
   (readAnalog, "RDAUX"%string, ANALOG, 1);
   (readClick, "RPNXYC"%string, CLICK, 2);
   (readTemperature, "RDTMP"%string, TEMP, 1);
   (readTouchScreen, "RPNXYW"%string, CLICK, 2);
   (readVoltage, "RDBAT"%string, VOLTAGE, 1)].

(** The k-th bus write is refused with an error that names ENODEV: the
    display is not on the bus (yet). *)
Definition absent (env : Env) (k : nat) : Prop :=
  exists msg, writeto_reply env k = Some msg /\ contains "ENODEV" msg = true.

(** The state after [k] refused attempts of [waitUntilReady]: [k] writes
    tried, and one reading of the clock per refusal when a time-out is
    set. *)
Definition retried (timeOut : Z) (k : nat) (w : World) : World :=
  set_writes_tried (writes_tried w + k)
    (set_ticks_read (if (0 <? timeOut)%Z then ticks_read w + k else ticks_read w) w).


(** The request was older than 2000 ms at one of the clock readings
    [lo], ..., [hi - 1]. *)
Definition seen_expired (env : Env) (lo hi : nat) (entry : Pending) : Prop :=
  exists k, lo <= k < hi /\ (2000 < ticks env k - snd entry)%Z.

(** A clock that does not run backwards. *)
Definition monotone_clock (env : Env) : Prop :=
  forall i j, i <= j -> (ticks env i <= ticks env j)%Z.

(** The pending requests stand in the order they were issued, and each
    carries a reading of the clock that was taken before now. *)
Definition stamped (env : Env) (w : World) : Prop :=
  issue_ordered (_waitBuffer w) /\
  Forall (fun entry : Pending => exists k, k < ticks_read w /\ snd entry = ticks env k)
         (_waitBuffer w).

(** The two methods that upload a file into the flash memory, each with
    the opcode and the arguments of the command it announces the file
    with. *)
Definition uploads (index : pyval) : list ((string -> M unit) * bytes * list pyval) :=
  [(uploadUserFont index, b_lit "SUF", [index]);
   (uploadStartScreen, b_lit "SSS", [])].

(** Concrete environments and states used in the examples. *)

(** A bus that accepts every write and answers the reads with [replies],
    then with ETIMEDOUT; a clock stopped at [now]; one file [f]. *)
Definition bench (replies : list (byte * byte)) (now : Z) (f : bytes) : Env :=
  mkEnv (fun _ => None)
        (fun k => match nth_error replies k with
                  | Some (hi, lo) => Data hi lo
                  | None => BusError "[Errno 110] ETIMEDOUT"
                  end)
        (fun _ => now)
        (fun name => if String.eqb name "f" then Some f else None).

(** A fresh display at address 0x27 with the given pending requests. *)
Definition pending_display (queue : list Pending) : World :=
  set_waitBuffer queue (__init__ 39).

(** A bus that accepts every write and answers the reads with [replies],
    then with ETIMEDOUT; a clock that advances by [step] ms from one
    reading to the next. *)
Definition running (replies : list (byte * byte)) (step : Z) : Env :=
  mkEnv (fun _ => None)
        (fun k => match nth_error replies k with
                  | Some (hi, lo) => Data hi lo
                  | None => BusError "[Errno 110] ETIMEDOUT"
                  end)
        (fun k => (step * Z.of_nat k)%Z)
        (fun _ => None).

(** A display that wakes up: the bus refuses the first [n] writes with
    ENODEV and accepts the later ones; the clock advances by [step] ms
    from one reading to the next. *)
Definition waking (n : nat) (step : Z) : Env :=
  mkEnv (fun k => if k <? n then Some "[Errno 19] ENODEV"%string else None)
        (fun _ => BusError "[Errno 110] ETIMEDOUT")
        (fun k => (step * Z.of_nat k)%Z)
        (fun _ => None).

(* ================================================================== *)
(** * The command encoder *)
(* ================================================================== *)

Section Encoder.

Local Open Scope Z_scope.

Lemma byte_value_range (b : byte) : 0 <= byte_value b <= 255.
Proof.
  unfold byte_value. pose proof (Byte.to_N_bounded b). lia.
Qed.

(** [to_bytes(1, "big")] succeeds exactly on [0..255], and the byte it
    gives has the value of the integer. *)
Lemma to_bytes1_in_range (n : Z) :
  0 <= n <= 255 -> exists b, to_bytes1 n = Ret [b] /\ byte_value b = n.
Proof.
  intros Hn. unfold to_bytes1.
  destruct (Z.ltb_spec n 0) as [Hneg | _]; [lia |].
  destruct (Byte.of_N (Z.to_N n)) as [b |] eqn:Hb.
  - exists b. split; [reflexivity |].
    apply Byte.to_of_N in Hb. unfold byte_value. rewrite Hb. lia.
  - apply Byte.of_N_None_iff in Hb. lia.
Qed.

Lemma to_bytes1_negative (n : Z) : n < 0 -> to_bytes1 n = Raise OverflowError.
Proof.
  intros Hn. unfold to_bytes1.
  destruct (Z.ltb_spec n 0); [reflexivity | lia].
Qed.

Lemma to_bytes1_too_big (n : Z) : 255 < n -> to_bytes1 n = Raise OverflowError.
Proof.
  intros Hn. unfold to_bytes1.
  destruct (Z.ltb_spec n 0); [reflexivity |].
  destruct (Byte.of_N (Z.to_N n)) as [b |] eqn:Hb; [| reflexivity].
  apply Byte.to_of_N in Hb. pose proof (Byte.to_N_bounded b). lia.
Qed.

(** Below 255 an integer is its own single byte. *)
Lemma append_int_small (command : bytes) (n : Z) :
  0 <= n < 255 ->
  exists b, append_int command n = Ret (command ++ [b]) /\ byte_value b = n.
Proof.
  intros Hn. unfold append_int.
  destruct (Z.leb_spec 255 n); [lia |].
  destruct (to_bytes1_in_range n) as (b & Hb & Hv); [lia |].
  exists b. rewrite Hb. auto.
Qed.

(** From 255 to 510 it is one 0xFF and the byte of [n - 255]. *)
Lemma append_int_extended (command : bytes) (n : Z) :
  255 <= n <= 510 ->
  exists b, append_int command n = Ret (command ++ [xff; b]) /\ byte_value b = n - 255.
Proof.
  intros Hn. unfold append_int.
  destruct (Z.leb_spec 255 n); [| lia].
  destruct (to_bytes1_in_range (n - 255)) as (b & Hb & Hv); [lia |].
  exists b. rewrite Hb, <- app_assoc. auto.
Qed.

(** Outside [0..510] nothing is encoded: [to_bytes] overflows. *)
Lemma append_int_overflow (command : bytes) (n : Z) :
  n < 0 \/ 510 < n -> append_int command n = Raise OverflowError.
Proof.
  intros Hn. unfold append_int.
  destruct (Z.leb_spec 255 n).
  - rewrite to_bytes1_too_big; [reflexivity | lia].
  - rewrite to_bytes1_negative; [reflexivity | lia].
Qed.

Lemma repeat_xff_final_length (k : nat) (final : byte) :
  length (repeat xff k ++ [final]) = S k.
Proof.
  rewrite length_app, repeat_length. simpl. lia.
Qed.

End Encoder.

(** C1, as stated, fails at 510: the encoder emits 0xFF 0xFF, whose final
    byte is not below 255; and from 511 on it emits nothing at all. *)
Lemma append_int_510_not_extension_coded :
  (forall emitted, append_arg [] (PInt 510) = Ret emitted -> ~ extension_coded 510 emitted)
  /\ append_arg [] (PInt 510) = Ret [xff; xff]
  /\ append_arg [] (PInt 511) = Raise OverflowError.
Proof.
  split; [| split; reflexivity].
  intros emitted He (k & final & Hem & Hlt & Hsum).
  cbn in He. injection He as <-.
  assert (Hlen : length [xff; xff] = length (repeat xff k ++ [final])) by (rewrite <- Hem; reflexivity).
  rewrite repeat_xff_final_length in Hlen. cbn in Hlen.
  assert (k = 1) by lia. subst k. cbn in Hem.
  injection Hem as <-. cbn in Hlt. lia.
Qed.

(** C1 (amended): for every integer argument [n] with [0 <= n <= 509] the
    encoder appends at most one 0xFF extension byte followed by exactly
    one final byte below 255, and 255 times the number of extension bytes
    plus the final byte is [n]; 254 gives [254], 255 gives [0xFF, 0] and
    300 gives [0xFF, 45]. *)
Theorem append_int_extension_coded :
  (forall (command : bytes) (n : Z),
      (0 <= n <= 509)%Z ->
      exists emitted,
        append_arg command (PInt n) = Ret (command ++ emitted) /\
        extension_coded n emitted /\
        length emitted <= 2)
  /\ append_arg [] (PInt 254) = Ret [xfe]
  /\ append_arg [] (PInt 255) = Ret [xff; x00]
  /\ append_arg [] (PInt 300) = Ret [xff; x2d].
Proof.
  split; [| repeat split; reflexivity].
  intros command n Hn. cbn [append_arg].
  destruct (Z.lt_ge_cases n 255) as [Hsmall | Hbig].
  - destruct (append_int_small command n) as (b & Hb & Hv); [lia |].
    exists [b]. split; [exact Hb |]. split; [| simpl; lia].
    exists 0, b. cbn. repeat split; lia.
  - destruct (append_int_extended command n) as (b & Hb & Hv); [lia |].
    exists [xff; b]. split; [exact Hb |]. split; [| simpl; lia].
    exists 1, b. cbn [repeat app]. repeat split; lia.
Qed.

Lemma append_int_extension_coded_witness :
  exists emitted,
    append_arg (b_lit "SF") (PInt 300) = Ret (b_lit "SF" ++ emitted) /\
    extension_coded 300 emitted /\
    length emitted <= 2.
Proof.
  apply (proj1 append_int_extension_coded (b_lit "SF") 300%Z). lia.
Defined.

(** C10: a bool is never encoded by the integer scheme.  [True] is sent
    as the text True and one zero byte, [False] as the text False and one
    zero byte: the branch of any value that is neither bytes, int nor
    None; the integer scheme would have sent the single byte 1 or 0. *)
Theorem append_bool_is_text :
  forall (command : bytes) (b : bool),
    append_arg command (PBool b)
      = Ret (command ++ b_lit (if b then "True" else "False") ++ [x00])
    /\ append_arg command (PBool b) = append_arg command (PObj (str_of_bool b))
    /\ append_arg command (PBool b) = append_arg command (PStr (str_of_bool b))
    /\ type_of (PBool b) <> TInt
    /\ (forall n, int_value (PBool b) = Some n ->
          append_arg command (PInt n) = Ret (command ++ [if b then x01 else x00])
          /\ append_arg command (PBool b) <> append_arg command (PInt n)).
Proof.
  intros command b.
  split; [destruct b; reflexivity |].
  split; [reflexivity |]. split; [reflexivity |].
  split; [discriminate |].
  intros n Hn.
  destruct b; cbn in Hn; injection Hn as <-; (split; [reflexivity |]);
    cbn; intros H; injection H as H; apply app_inv_head in H; discriminate.
Qed.

(* ================================================================== *)
(** * The chunked writer *)
(* ================================================================== *)

(** ** Writes into the recording stream *)

Lemma at_end_write (s : BytesIO) (v : bytes) :
  at_end (Some s) -> at_end (Some (BytesIO_write v s)).
Proof.
  unfold at_end, BytesIO_write. cbn. intros H.
  rewrite !length_app, length_firstn, repeat_length, length_skipn. lia.
Qed.

(** A write at the end of the stream appends. *)
Lemma BytesIO_write_appends (s : BytesIO) (v : bytes) :
  pos s = length (buf s) -> buf (BytesIO_write v s) = buf s ++ v.
Proof.
  intros H. unfold BytesIO_write. cbn. rewrite H, firstn_all, Nat.sub_diag.
  rewrite skipn_all2 by lia. cbn. rewrite app_nil_r. reflexivity.
Qed.

Section Writer.

(** ** Slices of 64 bytes *)

Lemma slice_length_le {X} (v : list X) (i n : nat) :
  length (slice v i (i + n)) <= n.
Proof.
  unfold slice. rewrite length_firstn. lia.
Qed.

Lemma slice_skipn {X} (v : list X) (a i n : nat) :
  slice v (a + i) (a + i + n) = slice (skipn a v) i (i + n).
Proof.
  unfold slice. rewrite skipn_skipn.
  replace (a + i + n - (a + i)) with (i + n - i) by lia.
  replace (i + a) with (a + i) by lia. reflexivity.
Qed.

Lemma concat_slices {X} (n : nat) :
  forall (v : list X),
    length v <= 64 * n ->
    concat (map (fun k => slice v (0 + k * 64) (0 + k * 64 + 64)) (seq 0 n)) = v.
Proof.
  induction n as [| n IH]; intros v Hlen.
  - destruct v; [reflexivity | simpl in Hlen; lia].
  - rewrite <- cons_seq, <- seq_shift. cbn [map concat]. rewrite map_map.
    transitivity (firstn 64 v ++ skipn 64 v); [| apply firstn_skipn].
    f_equal.
    rewrite <- (IH (skipn 64 v)) by (rewrite length_skipn; lia).
    f_equal. apply map_ext. intros k.
    replace (0 + S k * 64) with (64 + (0 + k * 64)) by lia.
    apply slice_skipn.
Qed.

Lemma range_covers (n : nat) : n <= 64 * ((n - 0 + (64 - 1)) / 64).
Proof.
  pose proof (Nat.div_mod_eq (n - 0 + (64 - 1)) 64) as Hd.
  pose proof (Nat.mod_upper_bound (n - 0 + (64 - 1)) 64). lia.
Qed.

(** The slices [_write] cuts, taken in order, make up the input. *)
Lemma concat_chunks (v : bytes) :
  concat (map (fun i => slice v i (i + 64)) (range 0 (length v) 64)) = v.
Proof.
  unfold range. rewrite map_map. apply concat_slices, range_covers.
Qed.

Lemma chunks_short (v : bytes) :
  Forall (fun s : bytes => length s <= 64)
         (map (fun i => slice v i (i + 64)) (range 0 (length v) 64)).
Proof.
  apply Forall_forall. intros s Hs. apply in_map_iff in Hs.
  destruct Hs as (i & <- & _). apply slice_length_le.
Qed.

(** ** What a call sends *)

Lemma bus_writes_app (t u : list effect) :
  bus_writes (t ++ u) = bus_writes t ++ bus_writes u.
Proof. apply flat_map_app. Qed.

Lemma mirrored_refl (w : World) : mirrored [] w w.
Proof.
  unfold mirrored. destruct (_paperTrail w) as [s |]; [| reflexivity].
  intros Hend. exists s. cbn. rewrite app_nil_r. auto.
Qed.

Lemma mirrored_trans (a b : list bytes) (w w1 w2 : World) :
  mirrored a w w1 -> mirrored b w1 w2 -> mirrored (a ++ b) w w2.
Proof.
  unfold mirrored. destruct (_paperTrail w) as [s |].
  - intros Ha Hb Hend. destruct (Ha Hend) as (s1 & Hs1 & Hbuf1 & Hend1).
    rewrite Hs1 in Hb. destruct (Hb Hend1) as (s2 & Hs2 & Hbuf2 & Hend2).
    exists s2. repeat split; [exact Hs2 | | exact Hend2].
    rewrite Hbuf2, Hbuf1, concat_app. symmetry. apply app_assoc.
  - intros Ha Hb. rewrite Ha in Hb. exact Hb.
Qed.

Lemma sent_refl (w : World) : sent [] w w.
Proof.
  split; [symmetry; apply app_nil_r |]. split; [reflexivity | apply mirrored_refl].
Qed.

Lemma sent_trans (a b : list bytes) (w w1 w2 : World) :
  sent a w w1 -> sent b w1 w2 -> sent (a ++ b) w w2.
Proof.
  intros (Ha & Hd & Hm) (Hb & Hd' & Hm'). split; [| split].
  - rewrite Hb, Ha. symmetry. apply app_assoc.
  - congruence.
  - eapply mirrored_trans; eassumption.
Qed.

(** An effect other than a bus write, appended to the trace. *)
Lemma emit_sent (e : effect) (env : Env) (w : World) :
  bus_writes [e] = [] ->
  exists w', emit e env w = (Ret tt, w') /\ sent [] w w'.
Proof.
  intros He. destruct w as [a d p dbg wq iq nw nr nt t].
  eexists. split; [reflexivity |]. split; [| split].
  - cbn [trace set_trace]. rewrite bus_writes_app, He. reflexivity.
  - reflexivity.
  - apply (mirrored_refl (mkWorld a d p dbg wq iq nw nr nt t)).
Qed.

Variable env : Env.
Hypothesis bus_ok : bus_accepts env.

Lemma transmit_sent (v : bytes) (w : World) :
  exists w', transmit v env w = (Ret tt, w') /\ sent [v] w w'.
Proof.
  unfold transmit, bind, i2c_writeto, isRecording, gets, paperTrail_write,
    on_paperTrail, emit, modify, ret.
  rewrite bus_ok. destruct w as [a d [s |] [|] wq iq nw nr nt t]; cbn;
    eexists; (split; [reflexivity |]); (split; [| split]); cbn;
    rewrite ?bus_writes_app; cbn; rewrite ?app_nil_r; try reflexivity.
  all: intros Hend; eexists; split; [reflexivity |]; split;
    [apply BytesIO_write_appends, Hend | apply (at_end_write s v Hend)].
Qed.

Lemma write_short_sent (depth : nat) (v : bytes) (w : World) :
  length v <= 64 ->
  exists w', _write_depth (S depth) v env w = (Ret tt, w') /\ sent [v] w w'.
Proof.
  intros Hlen. cbn [_write_depth].
  destruct (Nat.ltb_spec 64 (length v)); [lia |]. apply transmit_sent.
Qed.

Lemma sleep_sent (w : World) :
  exists w', (delay <- gets dataDelay ;; sleep_ms delay) env w = (Ret tt, w') /\ sent [] w w'.
Proof.
  unfold bind, gets. apply emit_sent. reflexivity.
Qed.

Lemma write_loop_sent (depth : nat) (v : bytes) (idxs : list nat) :
  forall w,
  exists w',
    for_each idxs (fun i =>
      let chunk := slice v i (i + 64) in
      _write_depth (S depth) chunk ;;
      delay <- gets dataDelay ;;
      sleep_ms delay) env w = (Ret tt, w')
    /\ sent (map (fun i => slice v i (i + 64)) idxs) w w'.
Proof.
  induction idxs as [| i idxs IH]; intros w.
  - exists w. split; [reflexivity | apply sent_refl].
  - cbn [for_each map].
    destruct (write_short_sent depth (slice v i (i + 64)) w (slice_length_le v i 64))
      as (w1 & Hrun1 & Hsent1).
    destruct (sleep_sent w1) as (w2 & Hrun2 & Hsent2).
    destruct (IH w2) as (w3 & Hrun3 & Hsent3).
    exists w3. split.
    + unfold bind at 1. unfold bind at 1. cbv zeta. rewrite Hrun1.
      fold (bind (gets dataDelay) (fun delay => sleep_ms delay)).
      rewrite Hrun2. exact Hrun3.
    + change (slice v i (i + 64) :: map (fun i0 => slice v i0 (i0 + 64)) idxs)
        with (([slice v i (i + 64)] ++ []) ++ map (fun i0 => slice v i0 (i0 + 64)) idxs).
      eapply sent_trans; [eapply sent_trans |]; eassumption.
Qed.

Lemma write_sent (depth : nat) (v : bytes) (w : World) :
  exists w', _write_depth (S (S depth)) v env w = (Ret tt, w') /\ sent (segments v) w w'.
Proof.
  unfold segments. cbn [_write_depth].
  destruct (Nat.ltb_spec 64 (length v)) as [Hlong | Hshort].
  - apply write_loop_sent.
  - apply transmit_sent.
Qed.

End Writer.

Lemma segments_spec (v : bytes) :
  Forall (fun s : bytes => length s <= 64) (segments v) /\
  concat (segments v) = v /\
  (length v <= 64 -> segments v = [v]).
Proof.
  unfold segments. destruct (Nat.ltb_spec 64 (length v)) as [Hlong | Hshort].
  - split; [apply chunks_short |]. split; [apply concat_chunks | lia].
  - split; [constructor; [exact Hshort | constructor] |].
    split; [cbn; apply app_nil_r | reflexivity].
Qed.

(** Two levels of [_write] are all that run: deeper nesting changes nothing. *)
Lemma for_each_ext {X} (f g : X -> M unit) (xs : list X) :
  (forall x, In x xs -> f x = g x) -> for_each xs f = for_each xs g.
Proof.
  induction xs as [| x xs IH]; intros H; [reflexivity |].
  cbn [for_each]. rewrite (H x) by (left; reflexivity).
  rewrite IH; [reflexivity |]. intros y Hy. apply H. right. exact Hy.
Qed.

Lemma _write_depth_enough (depth : nat) (v : bytes) :
  _write_depth (S (S depth)) v = _write v.
Proof.
  unfold _write. cbn [_write_depth].
  destruct (64 <? length v); [| reflexivity].
  apply for_each_ext. intros i _. cbv zeta.
  pose proof (slice_length_le v i 64) as Hlen.
  destruct (Nat.ltb_spec 64 (length (slice v i (i + 64)))); [lia | reflexivity].
Qed.

(** C3: on a bus that accepts the writes, [_write v] returns, and the
    bus writes it performs are segments of at most 64 bytes each whose
    concatenation, in order, is [v]; when [v] has at most 64 bytes there
    is a single write, of [v] itself. *)
Theorem _write_segments :
  forall (env : Env) (w : World) (v : bytes),
    bus_accepts env ->
    exists (w' : World) (segs : list bytes),
      _write v env w = (Ret tt, w') /\
      bus_writes (trace w') = bus_writes (trace w) ++ segs /\
      Forall (fun s : bytes => length s <= 64) segs /\
      concat segs = v /\
      (length v <= 64 -> segs = [v]).
Proof.
  intros env w v Hbus.
  destruct (write_sent env Hbus 0 v w) as (w' & Hrun & Hsent & _ & _).
  destruct (segments_spec v) as (Hshort & Hcat & Hone).
  exists w', (segments v). repeat split; assumption.
Qed.

Lemma _write_segments_witness :
  exists (w' : World) (segs : list bytes),
    _write (repeat x2a 130) (bench [] 0 []) (__init__ 39) = (Ret tt, w') /\
    bus_writes (trace w') = bus_writes (trace (__init__ 39)) ++ segs /\
    Forall (fun s : bytes => length s <= 64) segs /\
    concat segs = repeat x2a 130 /\
    (length (repeat x2a 130) <= 64 -> segs = [repeat x2a 130]).
Proof.
  apply (_write_segments (bench [] 0 []) (__init__ 39) (repeat x2a 130)).
  intros k. reflexivity.
Defined.

(* ================================================================== *)
(** * The instruction recorder *)
(* ================================================================== *)

(** ** Invariants of the calls *)

(** [keeps P m]: [m] carries a property [P] of the state from the state
    it starts in to the state it leaves, however it ends (the display
    object outlives an exception). *)
Definition keeps (P : World -> Prop) {A} (m : M A) : Prop :=
  forall env w, P w -> P (snd (m env w)).

Create HintDb frame.

Section Invariant.

Variable P : World -> Prop.

(** What [P] may have to withstand, field by field; each lemma below
    takes only the assumptions about the fields its call assigns. *)
Hypothesis P_trace : forall t w, P w -> P (set_trace t w).
Hypothesis P_writes_tried : forall n w, P w -> P (set_writes_tried n w).
Hypothesis P_reads_tried : forall n w, P w -> P (set_reads_tried n w).
Hypothesis P_ticks_read : forall n w, P w -> P (set_ticks_read n w).
Hypothesis P_dataDelay : forall d w, P w -> P (set_dataDelay d w).
Hypothesis P_waitBuffer : forall q w, P w -> P (set_waitBuffer q w).
Hypothesis P_inBuffer : forall q w, P w -> P (set_inBuffer q w).
Hypothesis P_record :
  forall s v w, _paperTrail w = Some s -> P w -> P (set_paperTrail (Some (BytesIO_write v s)) w).

Lemma keeps_ret {A} (a : A) : keeps P (ret a).
Proof. intros env w H. exact H. Qed.

Lemma keeps_raise {A} (e : exn) : keeps P (@raise A e).
Proof. intros env w H. exact H. Qed.

Lemma keeps_lift {A} (r : outcome A) : keeps P (lift r).
Proof. intros env w H. exact H. Qed.

Lemma keeps_gets {A} (f : World -> A) : keeps P (gets f).
Proof. intros env w H. exact H. Qed.

Lemma keeps_modify (f : World -> World) :
  (forall w, P w -> P (f w)) -> keeps P (modify f).
Proof. intros Hf env w H. apply Hf, H. Qed.

Lemma keeps_bind {A B} (m : M A) (k : A -> M B) :
  keeps P m -> (forall a, keeps P (k a)) -> keeps P (bind m k).
Proof.
  intros Hm Hk env w H. unfold bind.
  specialize (Hm env w H).
  destruct (m env w) as [[a | e] w1]; cbn in *; [apply Hk |]; exact Hm.
Qed.

Lemma keeps_for_each {X} (xs : list X) (body : X -> M unit) :
  (forall x, keeps P (body x)) -> keeps P (for_each xs body).
Proof.
  intros Hbody. induction xs as [| x xs IH]; cbn [for_each].
  - apply keeps_ret.
  - apply keeps_bind; [apply Hbody | intros _; exact IH].
Qed.

Lemma keeps_try_except_OSError {A} (body : M A) (handler : string -> M A) :
  keeps P body -> (forall msg, keeps P (handler msg)) ->
  keeps P (try_except_OSError body handler).
Proof.
  intros Hb Hh env w H. unfold try_except_OSError.
  specialize (Hb env w H).
  destruct (body env w) as [[a | []] w1]; cbn in *; try exact Hb.
  apply Hh. exact Hb.
Qed.

Lemma keeps_emit (e : effect) : keeps P (emit e).
Proof. apply keeps_modify. intros w H. apply P_trace, H. Qed.

Lemma keeps_sleep_ms (ms : Z) : keeps P (sleep_ms ms).
Proof. apply keeps_emit. Qed.

Lemma keeps_getTicks_ms : keeps P getTicks_ms.
Proof. intros env w H. apply P_ticks_read, H. Qed.

Lemma keeps_getDeltaTime (t2 t1 : Z) : keeps P (getDeltaTime t2 t1).
Proof.
  unfold getDeltaTime. destruct (t1 <? 0)%Z.
  - apply keeps_bind; [apply keeps_getTicks_ms | intros; apply keeps_ret].
  - apply keeps_ret.
Qed.

Lemma keeps_i2c_writeto (v : bytes) : keeps P (i2c_writeto v).
Proof.
  intros env w H. unfold i2c_writeto.
  destruct (writeto_reply env _); cbn; auto.
Qed.

Lemma keeps_i2c_readfrom2 : keeps P i2c_readfrom2.
Proof.
  intros env w H. unfold i2c_readfrom2.
  destruct (readfrom_reply env _); cbn; auto.
Qed.

Lemma keeps_open_rb (fileName : string) : keeps P (open_rb fileName).
Proof.
  intros env w H. unfold open_rb. destruct (disk env fileName); exact H.
Qed.

Lemma keeps_waitBuffer_pop0 : keeps P waitBuffer_pop0.
Proof.
  intros env w H. unfold waitBuffer_pop0.
  destruct (_waitBuffer w); cbn; auto.
Qed.

Lemma keeps_inBuffer_pop0 : keeps P inBuffer_pop0.
Proof.
  intros env w H. unfold inBuffer_pop0.
  destruct (_inBuffer w); cbn; auto.
Qed.

Lemma keeps_isRecording : keeps P isRecording.
Proof. apply keeps_gets. Qed.

Lemma keeps_paperTrail_write (v : bytes) : keeps P (paperTrail_write v).
Proof.
  intros env w H. unfold paperTrail_write, on_paperTrail.
  destruct (_paperTrail w) as [s |] eqn:Hs; cbn; auto.
Qed.

Hint Resolve keeps_ret keeps_raise keeps_lift keeps_gets keeps_emit keeps_sleep_ms
  keeps_getTicks_ms keeps_getDeltaTime keeps_i2c_writeto keeps_i2c_readfrom2
  keeps_open_rb keeps_waitBuffer_pop0 keeps_inBuffer_pop0 keeps_isRecording
  keeps_paperTrail_write : frame.

(** One step through a monadic body: split binds and loops, decide
    branches, close the leaves from the hints. *)
Ltac keeps_step :=
  first
    [ solve [auto with frame]
    | apply keeps_bind; [| intros ?]
    | apply keeps_for_each; intros ?
    | apply keeps_try_except_OSError; [| intros ?]
    | apply keeps_modify; solve [auto]
    | match goal with |- keeps _ (if ?b then _ else _) => destruct b end
    | match goal with |- keeps _ (match ?x with _ => _ end) => destruct x end ].

Lemma keeps_transmit (v : bytes) : keeps P (transmit v).
Proof. unfold transmit. repeat keeps_step. Qed.
Hint Resolve keeps_transmit : frame.

Lemma keeps_write_depth (depth : nat) : forall v, keeps P (_write_depth depth v).
Proof.
  induction depth as [| depth IH]; intros v; cbn [_write_depth].
  - apply keeps_ret.
  - destruct (64 <? length v); [| apply keeps_transmit].
    apply keeps_for_each. intros i. cbv zeta.
    apply keeps_bind; [apply IH | intros _]. repeat keeps_step.
Qed.

Lemma keeps_write (v : bytes) : keeps P (_write v).
Proof. apply keeps_write_depth. Qed.
Hint Resolve keeps_write : frame.

Lemma keeps_executeScript (v : bytes) : keeps P (executeScript v).
Proof. apply keeps_write. Qed.

Lemma keeps_sendCommand (command : bytes) (args : list pyval) :
  keeps P (_sendCommand command args).
Proof. unfold _sendCommand. repeat keeps_step. Qed.
Hint Resolve keeps_sendCommand : frame.

Lemma keeps_sendFile_loop (fuel : nat) : forall unread, keeps P (_sendFile_loop fuel unread).
Proof.
  induction fuel as [| fuel IH]; intros unread; cbn [_sendFile_loop].
  - apply keeps_ret.
  - apply keeps_bind; [apply keeps_emit | intros _]. cbv zeta.
    destruct (firstn 128 unread); [apply keeps_emit |].
    apply keeps_bind; [apply keeps_write | intros _; apply IH].
Qed.

Lemma keeps_sendFile (fileName : string) : keeps P (_sendFile fileName).
Proof.
  unfold _sendFile. apply keeps_bind; [apply keeps_open_rb |].
  intros content. apply keeps_sendFile_loop.
Qed.
Hint Resolve keeps_sendFile : frame.

Lemma keeps_sendLargeFileSlowly (fileName : string) :
  keeps P (_sendLargeFileSlowly fileName).
Proof. unfold _sendLargeFileSlowly, _getFileSize. repeat keeps_step. Qed.

Lemma keeps_waitBuffer_append (c : EventCode) (n : nat) : keeps P (waitBuffer_append c n).
Proof. unfold waitBuffer_append. repeat keeps_step. Qed.
Hint Resolve keeps_waitBuffer_append : frame.

Lemma keeps_read_requests :
  keeps P checkTouchScreen /\ keeps P readAnalog /\ keeps P readClick /\
  keeps P readTemperature /\ keeps P readTouchScreen /\ keeps P readVoltage.
Proof.
  unfold checkTouchScreen, readAnalog, readClick, readTemperature, readTouchScreen,
    readVoltage, DigoleBasic.checkTouchScreen, DigoleBasic.readAnalog,
    DigoleBasic.readClick, DigoleBasic.readTemperature, DigoleBasic.readTouchScreen,
    DigoleBasic.readVoltage.
  repeat split; repeat keeps_step.
Qed.

Lemma keeps_pop_args (n : nat) : keeps P (pop_args n).
Proof.
  induction n as [| n IH]; cbn [pop_args]; repeat keeps_step.
Qed.
Hint Resolve keeps_pop_args : frame.

Lemma keeps_walk (fuel : nat) : forall i result, keeps P (walk fuel i result).
Proof.
  induction fuel as [| fuel IH]; intros i result; cbn [walk].
  - apply keeps_ret.
  - apply keeps_bind; [apply keeps_gets | intros queue].
    destruct (nth_error queue i) as [[[event_code argCount] timeStamp] |];
      [| apply keeps_ret].
    apply keeps_bind; [apply keeps_getDeltaTime | intros age].
    destruct (2000 <? age)%Z.
    + apply keeps_bind; [apply keeps_waitBuffer_pop0 | intros _; apply IH].
    + apply keeps_bind; [apply keeps_gets | intros inBuffer].
      destruct (length inBuffer <? argCount); [apply keeps_ret |].
      apply keeps_bind; [apply keeps_pop_args | intros args].
      apply keeps_bind; [apply keeps_lift | intros [ev |]; apply IH].
Qed.

Lemma keeps_readInt : keeps P _readInt.
Proof. unfold _readInt. repeat keeps_step. Qed.
Hint Resolve keeps_readInt : frame.

Lemma keeps_drain : keeps P drain.
Proof. unfold drain. repeat keeps_step. Qed.

Lemma keeps_doCheck : keeps P doCheck.
Proof.
  unfold doCheck.
  apply keeps_bind; [apply keeps_drain | intros _].
  apply keeps_bind; [apply keeps_gets | intros queue].
  apply keeps_bind; [apply keeps_walk | intros result].
  repeat keeps_step.
Qed.

End Invariant.

(** ** Starting, measuring and stopping a recording *)

Lemma stopRecording_closed_form (streamHandler : option StreamHandler) (env : Env) (w : World) :
  stopRecording streamHandler env w =
    match _paperTrail w with
    | None => (Ret RNone, w)
    | Some s =>
        (match streamHandler with
         | None => Ret (RBytes (buf s))
         | Some handler =>
             match fst (handler (mkBytesIO (buf s) 0)) with
             | Ret _ => Ret (RSize (length (buf s)))
             | Raise e => Raise e
             end
         end, released w)
    end.
Proof.
  destruct w as [a d [s |] dbg wq iq nw nr nt t]; [| reflexivity].
  unfold released, stopRecording, try_finally, bind, getRecordingSize, isRecording,
    gets, paperTrail_seek_start, paperTrail_seek_end, paperTrail_getvalue,
    paperTrail_close, on_paperTrail, bind, emit, modify, ret.
  destruct streamHandler as [handler |]; cbn.
  - destruct (handler (mkBytesIO (buf s) 0)) as [[[] | e] s']; cbn;
      unfold set_trace, set_paperTrail; cbn; rewrite <- app_assoc; reflexivity.
  - unfold set_trace, set_paperTrail; cbn. rewrite <- app_assoc. reflexivity.
Qed.

(** The recording stream stays at its end through every call that does
    not start or stop a recording. *)
Ltac at_end_frame IH :=
  first
    [ exact IH
    | intros ? [? ? ? ? ? ? ? ? ? ?] H; exact H
    | intros s v [? ? ? ? ? ? ? ? ? ?] Hs H; cbn in Hs, H |- *; subst;
      apply at_end_write; exact H ].

(** Every state the driver can be brought to has its recording stream at
    the end: recording only ever appends. *)
Lemma reachable_at_end (env : Env) (w : World) :
  reachable env w -> at_end (_paperTrail w).
Proof.
  induction 1 as [address | w c Hreach IH]; [exact I |].
  destruct c; cbn [perform].
  - unfold startRecording, bind, isRecording, gets.
    destruct w as [a d [s |] dbg wq iq nw nr nt t]; cbn in *; [exact IH | reflexivity].
  - unfold getRecordingSize, bind, isRecording, gets.
    destruct w as [a d [s |] dbg wq iq nw nr nt t]; cbn in *; [reflexivity | exact I].
  - rewrite stopRecording_closed_form. unfold released.
    destruct w as [a d [s |] dbg wq iq nw nr nt t]; cbn in *; [exact I | exact IH].
  - apply (keeps_executeScript (fun w => at_end (_paperTrail w))); at_end_frame IH.
  - apply (keeps_sendCommand (fun w => at_end (_paperTrail w))); at_end_frame IH.
  - apply (keeps_sendFile (fun w => at_end (_paperTrail w))); at_end_frame IH.
  - apply (keeps_sendLargeFileSlowly (fun w => at_end (_paperTrail w))); at_end_frame IH.
  - apply (keeps_read_requests (fun w => at_end (_paperTrail w))); at_end_frame IH.
  - apply (keeps_read_requests (fun w => at_end (_paperTrail w))); at_end_frame IH.
  - apply (keeps_read_requests (fun w => at_end (_paperTrail w))); at_end_frame IH.
  - apply (keeps_read_requests (fun w => at_end (_paperTrail w))); at_end_frame IH.
  - apply (keeps_read_requests (fun w => at_end (_paperTrail w))); at_end_frame IH.
  - apply (keeps_read_requests (fun w => at_end (_paperTrail w))); at_end_frame IH.
  - apply (keeps_doCheck (fun w => at_end (_paperTrail w))); at_end_frame IH.
Qed.

(** C7: [stopRecording] in closed form.  Idle, it returns [None] and
    changes nothing.  Recording, the outcome is the recorded bytes when
    there is no callback; with a callback, the callback receives the
    buffer positioned at offset 0, and the outcome is the size of the
    buffer if the callback returns and the callback's exception if it
    raises.  On each of these paths the buffer is closed and dropped, and
    the recorder is idle afterwards. *)
Theorem stopRecording_releases :
  forall (streamHandler : option StreamHandler) (env : Env) (w : World),
    stopRecording streamHandler env w =
      match _paperTrail w with
      | None => (Ret RNone, w)
      | Some s =>
          (match streamHandler with
           | None => Ret (RBytes (buf s))
           | Some handler =>
               match fst (handler (mkBytesIO (buf s) 0)) with
               | Ret _ => Ret (RSize (length (buf s)))
               | Raise e => Raise e
               end
           end,
           set_trace (trace w ++ [BufferClosed; GcCollect]) (set_paperTrail None w))
      end
    /\ fst (isRecording env (snd (stopRecording streamHandler env w))) = Ret false.
Proof.
  intros streamHandler env w. split.
  - apply stopRecording_closed_form.
  - rewrite stopRecording_closed_form. unfold released.
    destruct w as [a d [s |] dbg wq iq nw nr nt t]; reflexivity.
Qed.

(** C8: a second [startRecording] in a row changes nothing, and while a
    recording runs [startRecording] leaves the state, buffer included, as
    it is; [getRecordingSize] returns 0 when idle and the length of the
    buffer otherwise, and in every state the driver can reach it leaves the
    state exactly as it found it. *)
Theorem startRecording_idempotent :
  forall (env : Env) (w : World),
    (startRecording ;; startRecording) env w = startRecording env w
    /\ (forall s, _paperTrail w = Some s -> startRecording env w = (Ret tt, w))
    /\ (_paperTrail w = None -> getRecordingSize env w = (Ret 0, w))
    /\ (forall s, _paperTrail w = Some s ->
          fst (getRecordingSize env w) = Ret (length (buf s)) /\
          option_map buf (_paperTrail (snd (getRecordingSize env w))) = Some (buf s))
    /\ (reachable env w -> getRecordingSize env w = (Ret (recorded_length w), w)).
Proof.
  intros env w. repeat split.
  - destruct w as [a d [s |] dbg wq iq nw nr nt t]; reflexivity.
  - intros s Hs. destruct w as [a d p dbg wq iq nw nr nt t]; cbn in Hs; subst p. reflexivity.
  - intros Hs. destruct w as [a d p dbg wq iq nw nr nt t]; cbn in Hs; subst p. reflexivity.
  - destruct w as [a d p dbg wq iq nw nr nt t]; cbn in H; subst p. reflexivity.
  - destruct w as [a d p dbg wq iq nw nr nt t]; cbn in H; subst p. reflexivity.
  - intros Hreach. apply reachable_at_end in Hreach.
    destruct w as [a d [[b p] |] dbg wq iq nw nr nt t]; cbn in *; [| reflexivity].
    subst p. reflexivity.
Qed.

Lemma startRecording_idempotent_witness :
  let env := bench [] 0 [] in
  let w := perform (call_executeScript [x01; x02])
             env (perform call_startRecording env (__init__ 39)) in
  getRecordingSize env w = (Ret 2, w)
  /\ startRecording env w = (Ret tt, w).
Proof.
  intros env w.
  destruct (startRecording_idempotent env w) as (_ & Hstart & _ & _ & Hsize).
  split.
  - apply Hsize. unfold w. apply reachable_call, reachable_call, reachable_init.
  - apply (Hstart (mkBytesIO [x01; x02] 2)). reflexivity.
Defined.

(** X4: while a recording runs, the bytes handed to the chunked writer
    are appended, whole and in order, to the recording buffer (on a bus
    that accepts the writes, in any state the driver can reach). *)
Theorem recording_mirrors_writes :
  forall env w v s,
    bus_accepts env ->
    reachable env w ->
    _paperTrail w = Some s ->
    exists w' s',
      executeScript v env w = (Ret tt, w') /\
      _paperTrail w' = Some s' /\
      buf s' = buf s ++ v.
Proof.
  intros env w v s Hbus Hreach Hs.
  destruct (write_sent env Hbus 0 v w) as (w' & Hrun & _ & _ & Hmirror).
  unfold mirrored in Hmirror. rewrite Hs in Hmirror.
  apply reachable_at_end in Hreach. rewrite Hs in Hreach.
  destruct (Hmirror Hreach) as (s' & Hs' & Hbuf & _).
  exists w', s'. split; [exact Hrun |]. split; [exact Hs' |].
  rewrite Hbuf. f_equal. apply segments_spec.
Qed.

Lemma recording_mirrors_writes_witness :
  exists w' s',
    executeScript (repeat x2a 100) (bench [] 0 [])
      (perform (call_executeScript [x01; x02]) (bench [] 0 [])
         (perform call_startRecording (bench [] 0 []) (__init__ 39)))
      = (Ret tt, w') /\
    _paperTrail w' = Some s' /\
    buf s' = buf (mkBytesIO [x01; x02] 2) ++ repeat x2a 100.
Proof.
  apply (recording_mirrors_writes (bench [] 0 [])).
  - intros k. reflexivity.
  - apply reachable_call, reachable_call, reachable_init.
  - reflexivity.
Defined.

(* ================================================================== *)
(** * The response correlator *)
(* ================================================================== *)

(** ** One turn of the walk *)

Lemma pop_args_spec (n : nat) :
  forall env w,
    n <= length (_inBuffer w) ->
    pop_args n env w
      = (Ret (firstn n (_inBuffer w)), set_inBuffer (skipn n (_inBuffer w)) w).
Proof.
  induction n as [| n IH]; intros env [a d p dbg wq iq nw nr nt t] Hlen; [reflexivity |].
  destruct iq as [| x iq]; cbn in Hlen; [lia |].
  cbn [pop_args]. unfold bind at 1. cbn [inBuffer_pop0 _inBuffer set_inBuffer].
  unfold bind at 1. rewrite IH by (cbn; lia). reflexivity.
Qed.

Lemma walk_step (fuel i : nat) (result : list Event) (env : Env) (w : World) :
  walk (S fuel) i result env w =
    match nth_error (_waitBuffer w) i with
    | None => (Ret result, w)
    | Some (event_code, argCount, timeStamp) =>
        if (2000 <? ticks env (ticks_read w) - timeStamp)%Z then
          walk fuel (S i) result env (set_waitBuffer (tl (_waitBuffer w)) (tick w))
        else if length (_inBuffer w) <? argCount then (Ret result, tick w)
        else
          let w' := set_inBuffer (skipn argCount (_inBuffer w)) (tick w) in
          match process event_code (firstn argCount (_inBuffer w)) with
          | Ret None => walk fuel (S i) result env w'
          | Ret (Some ev) => walk fuel (S i) (result ++ [ev]) env w'
          | Raise e => (Raise e, w')
          end
    end.
Proof.
  destruct w as [a d p dbg wq iq nw nr nt t].
  cbn [walk]. unfold bind at 1. cbn [gets _waitBuffer].
  destruct (nth_error wq i) as [[[event_code argCount] timeStamp] |] eqn:Hi;
    [| reflexivity].
  unfold bind at 1. cbn [getDeltaTime Z.ltb Z.compare]. unfold bind at 1.
  cbn [getTicks_ms ret ticks_read set_ticks_read tick].
  destruct (2000 <? ticks env nt - timeStamp)%Z.
  - destruct wq as [| x wq]; [destruct i; discriminate |]. reflexivity.
  - unfold bind at 1. cbn [gets _inBuffer].
    destruct (Nat.ltb_spec (length iq) argCount) as [Hfew | Henough]; [reflexivity |].
    unfold bind at 1. rewrite pop_args_spec by exact Henough.
    cbn [_inBuffer set_inBuffer]. unfold bind at 1, lift.
    destruct (process event_code (firstn argCount iq)) as [[ev |] | e]; reflexivity.
Qed.

(** [length _waitBuffer] turns are all the walk ever takes: more fuel
    changes nothing. *)
Lemma walk_fuel (fuel : nat) :
  forall k i result env w,
    length (_waitBuffer w) <= i + fuel ->
    walk (fuel + k) i result env w = walk fuel i result env w.
Proof.
  induction fuel as [| fuel IH]; intros k i result env w Hlen.
  - destruct k as [| k]; [reflexivity |].
    cbn [Nat.add]. rewrite walk_step.
    rewrite (proj2 (nth_error_None (_waitBuffer w) i)) by lia. reflexivity.
  - cbn [Nat.add]. rewrite !walk_step.
    destruct w as [a d p dbg wq iq nw nr nt t]. cbn [_waitBuffer _inBuffer ticks_read tick set_ticks_read] in *.
    destruct (nth_error wq i) as [[[event_code argCount] timeStamp] |]; [| reflexivity].
    destruct (2000 <? ticks env nt - timeStamp)%Z.
    + apply IH. destruct wq; cbn in *; lia.
    + destruct (length iq <? argCount); [reflexivity |]. cbv zeta.
      destruct (process event_code (firstn argCount iq)) as [[ev |] | e];
        [apply IH; cbn; lia | apply IH; cbn; lia | reflexivity].
Qed.

(** The first loop leaves the pending queue and the clock alone. *)
Lemma drain_frame (env : Env) (w : World) :
  _waitBuffer (snd (drain env w)) = _waitBuffer w /\
  ticks_read (snd (drain env w)) = ticks_read w.
Proof.
  apply (keeps_drain (fun w' => _waitBuffer w' = _waitBuffer w /\ ticks_read w' = ticks_read w));
    try (intros ? [? ? ? ? ? ? ? ? ? ?] H; exact H).
  split; reflexivity.
Qed.

(** [doCheck] once its first loop is done. *)
Lemma doCheck_after_drain (env : Env) (w w1 : World) :
  drain env w = (Ret tt, w1) ->
  doCheck env w =
    match walk (length (_waitBuffer w1)) 0 [] env w1 with
    | (Ret result, w2) =>
        (Ret result, match _waitBuffer w2 with [] => set_inBuffer [] w2 | _ => w2 end)
    | (Raise e, w2) => (Raise e, w2)
    end.
Proof.
  intros Hdrain. unfold doCheck. unfold bind at 1. rewrite Hdrain.
  unfold bind at 1. cbn [gets]. unfold bind at 1.
  destruct (walk _ 0 [] env w1) as [[result | e] w2]; [| reflexivity].
  unfold bind at 1. cbn [gets]. unfold bind at 1.
  destruct w2 as [a d p dbg [| x wq] iq nw nr nt t]; reflexivity.
Qed.

(** With an argument to look at, the transform of an event never raises. *)
Lemma process_nonempty (event_code : EventCode) (a0 : Z) (args : list Z) :
  exists r, process event_code (a0 :: args) = Ret r.
Proof.
  destruct event_code; cbn [process]; [destruct (1000 <? a0)%Z | | |]; eauto.
Qed.

(** [doCheck] when its first loop raises. *)
Lemma doCheck_drain_raises (env : Env) (w w1 : World) (e : exn) :
  drain env w = (Raise e, w1) -> doCheck env w = (Raise e, w1).
Proof.
  intros Hdrain. unfold doCheck. unfold bind at 1. rewrite Hdrain. reflexivity.
Qed.

(** ** Serving a request *)

(** One poll with a voltage request pending and its answer on the bus:
    the request is served (its one raw value 3300 is popped and the
    event is returned), and when the poll returns it is still in the
    pending queue. *)
Example served_request_stays_pending :
  fst (doCheck (bench [(x0c, xe4)] 100 []) (pending_display [(VOLTAGE, 1, 0%Z)]))
    = Ret [(VOLTAGE, [Int 3300])]
  /\ _inBuffer (snd (doCheck (bench [(x0c, xe4)] 100 []) (pending_display [(VOLTAGE, 1, 0%Z)])))
    = []
  /\ _waitBuffer (snd (doCheck (bench [(x0c, xe4)] 100 []) (pending_display [(VOLTAGE, 1, 0%Z)])))
    = [(VOLTAGE, 1, 0%Z)].
Proof. repeat split; reflexivity. Qed.

(** ** Rejected clicks *)

(** C9: when the walk examines an un-expired click request of arity 2 and
    the first of the two raw values it takes exceeds 1000, no event is
    added to the result, both raw values are gone from the raw-response
    queue, and the walk goes on with the next entry on the values that
    remain, in the order they arrived. *)
Theorem rejected_click_consumes_pair :
  forall env w fuel i result timeStamp v1 v2 rest,
    nth_error (_waitBuffer w) i = Some (CLICK, 2, timeStamp) ->
    (ticks env (ticks_read w) - timeStamp <= 2000)%Z ->
    _inBuffer w = v1 :: v2 :: rest ->
    (1000 < v1)%Z ->
    walk (S fuel) i result env w
      = walk fuel (S i) result env (set_inBuffer rest (tick w)).
Proof.
  intros env w fuel i result timeStamp v1 v2 rest Hi Hfresh Hraw Hbig.
  rewrite walk_step, Hi, Hraw.
  destruct (Z.ltb_spec 2000 (ticks env (ticks_read w) - timeStamp)); [lia |].
  cbn [length Nat.ltb Nat.leb firstn skipn process].
  destruct (Z.ltb_spec 1000 v1); [reflexivity | lia].
Qed.

Lemma rejected_click_consumes_pair_witness :
  walk 2 0 [] (bench [] 100 [])
       (set_inBuffer [1500; 20; 3300]%Z (pending_display [(CLICK, 2, 0%Z); (VOLTAGE, 1, 0%Z)]))
    = walk 1 1 [] (bench [] 100 [])
        (set_inBuffer [3300%Z]
           (tick (set_inBuffer [1500; 20; 3300]%Z
                    (pending_display [(CLICK, 2, 0%Z); (VOLTAGE, 1, 0%Z)])))).
Proof.
  apply (rejected_click_consumes_pair (bench [] 100 []) _ 1 0 [] 0%Z 1500%Z 20%Z [3300%Z]).
  - reflexivity.
  - cbn. lia.
  - reflexivity.
  - lia.
Defined.

(** The whole poll on that state: raw values 1500, 20 and 3300 for a
    click request and a voltage request; the click is suppressed, its
    partner 20 is consumed with it, and the voltage request gets 3300. *)
Example doCheck_rejects_click_1500 :
  fst (doCheck (bench [(x00, x14); (x0c, xe4)] 100 [])
         (set_inBuffer [1500%Z] (pending_display [(CLICK, 2, 0%Z); (VOLTAGE, 1, 0%Z)])))
    = Ret [(VOLTAGE, [Int 3300])].
Proof. reflexivity. Qed.

(** ** Expired requests and the order of the walk *)

(** When the walk examines an expired entry it takes no raw value and
    adds no event; what [pop(0)] removes is the head of the queue, and
    the iterator moves on to index [i + 1] of the shortened list. *)
Lemma walk_expired_step (fuel i : nat) (result : list Event) (env : Env) (w : World)
      (event_code : EventCode) (argCount : nat) (timeStamp : Z) :
  nth_error (_waitBuffer w) i = Some (event_code, argCount, timeStamp) ->
  (2000 < ticks env (ticks_read w) - timeStamp)%Z ->
  walk (S fuel) i result env w
    = walk fuel (S i) result env (set_waitBuffer (tl (_waitBuffer w)) (tick w)).
Proof.
  intros Hi Hstale. rewrite walk_step, Hi.
  destruct (Z.ltb_spec 2000 (ticks env (ticks_read w) - timeStamp)); [reflexivity | lia].
Qed.

(** C4 at its failing inputs: a pending queue of two requests that are
    both seen older than 2000 ms.  The poll removes the first one only:
    removing it shifts the second one to index 0, which the iterator has
    already passed, so the loop ends and the second expired request is
    still pending when the poll returns. *)
Theorem second_expired_request_survives :
  forall env w w1 e1 e2,
    _waitBuffer w = [e1; e2] ->
    all_stale env (_waitBuffer w) ->
    drain env w = (Ret tt, w1) ->
    fst (doCheck env w) = Ret [] /\
    _waitBuffer (snd (doCheck env w)) = [e2] /\
    _inBuffer (snd (doCheck env w)) = _inBuffer w1.
Proof.
  intros env w w1 [[c1 n1] ts1] e2 Hqueue Hstale Hdrain.
  destruct (drain_frame env w) as [Hq _]. rewrite Hdrain in Hq. cbn [snd] in Hq.
  rewrite Hqueue in Hstale, Hq.
  rewrite (doCheck_after_drain env w w1 Hdrain), Hq. cbn [length].
  rewrite (walk_expired_step 1 0 [] env w1 c1 n1 ts1);
    [| rewrite Hq; reflexivity | apply (Hstale _ c1 n1 ts1); left; reflexivity].
  rewrite walk_step.
  destruct w1 as [a d p dbg wq iq nw nr nt t]. cbn [_waitBuffer] in Hq. subst wq.
  repeat split.
Qed.

Lemma second_expired_request_survives_witness :
  fst (doCheck (bench [] 5000 []) (pending_display [(CLICK, 2, 0%Z); (ANALOG, 1, 10%Z)]))
    = Ret [] /\
  _waitBuffer (snd (doCheck (bench [] 5000 [])
                      (pending_display [(CLICK, 2, 0%Z); (ANALOG, 1, 10%Z)])))
    = [(ANALOG, 1, 10%Z)] /\
  _inBuffer (snd (doCheck (bench [] 5000 [])
                    (pending_display [(CLICK, 2, 0%Z); (ANALOG, 1, 10%Z)])))
    = _inBuffer (set_reads_tried 1 (pending_display [(CLICK, 2, 0%Z); (ANALOG, 1, 10%Z)])).
Proof.
  apply (second_expired_request_survives (bench [] 5000 [])
           (pending_display [(CLICK, 2, 0%Z); (ANALOG, 1, 10%Z)])
           (set_reads_tried 1 (pending_display [(CLICK, 2, 0%Z); (ANALOG, 1, 10%Z)]))
           (CLICK, 2, 0%Z) (ANALOG, 1, 10%Z)).
  - reflexivity.
  - intros k event_code argCount timeStamp [Hin | [Hin | []]];
      injection Hin as _ _ <-; cbn; lia.
  - reflexivity.
Defined.

(** C5 at its failing inputs: one expired request ahead of two
    un-expired ones of arities 2 and 1.  Removing the expired head makes
    the iterator skip the arity-2 request and examine the arity-1 request:
    that one is bound to the first raw value in the queue, the arity-2
    request to none, whether the queue holds three values (the first two
    belong to the arity-2 request) or a single one (fewer than the arity
    of the oldest un-expired request, where the walk ought to stop). *)
Theorem expired_head_makes_walk_skip :
  forall env w w1 c0 n0 ts0 c1 ts1 c2 ts2 v rest,
    _waitBuffer w = [(c0, n0, ts0); (c1, 2, ts1); (c2, 1, ts2)] ->
    drain env w = (Ret tt, w1) ->
    _inBuffer w1 = v :: rest ->
    (2000 < ticks env (ticks_read w) - ts0)%Z ->
    (ticks env (S (ticks_read w)) - ts2 <= 2000)%Z ->
    exists r2,
      process c2 [v] = Ret r2 /\
      fst (doCheck env w) = Ret (emitted r2) /\
      _inBuffer (snd (doCheck env w)) = rest /\
      _waitBuffer (snd (doCheck env w)) = [(c1, 2, ts1); (c2, 1, ts2)].
Proof.
  intros env w w1 c0 n0 ts0 c1 ts1 c2 ts2 v rest Hqueue Hdrain Hraw Hstale Hfresh.
  destruct (process_nonempty c2 v []) as [r2 Hr2].
  exists r2. split; [exact Hr2 |].
  destruct (drain_frame env w) as [Hq Ht]. rewrite Hdrain in Hq, Ht. cbn [snd] in Hq, Ht.
  rewrite Hqueue in Hq. rewrite <- Ht in Hstale, Hfresh.
  rewrite (doCheck_after_drain env w w1 Hdrain), Hq. cbn [length].
  rewrite (walk_expired_step 2 0 [] env w1 c0 n0 ts0);
    [| rewrite Hq; reflexivity | exact Hstale].
  destruct w1 as [a d p dbg wq iq nw nr nt t].
  cbn [_waitBuffer _inBuffer ticks_read] in Hq, Hraw, Hstale, Hfresh. subst wq iq.
  cbn [_waitBuffer tl tick ticks_read set_ticks_read set_waitBuffer].
  rewrite walk_step.
  cbn [_waitBuffer _inBuffer nth_error ticks_read tick set_ticks_read set_inBuffer].
  destruct (Z.ltb_spec 2000 (ticks env (S nt) - ts2)); [lia |].
  cbn [length Nat.ltb Nat.leb firstn skipn]. cbv zeta. rewrite Hr2.
  destruct r2; cbn [walk ret emitted app fst snd _waitBuffer _inBuffer]; repeat split.
Qed.

Lemma expired_head_makes_walk_skip_witness :
  (exists r2,
      process ANALOG [100%Z] = Ret r2 /\
      fst (doCheck (bench [(x00, x64); (x00, xc8); (x01, x2c)] 2500 [])
             (pending_display [(CLICK, 2, 0%Z); (CLICK, 2, 1500%Z); (ANALOG, 1, 1600%Z)]))
        = Ret (emitted r2) /\
      _inBuffer (snd (doCheck (bench [(x00, x64); (x00, xc8); (x01, x2c)] 2500 [])
             (pending_display [(CLICK, 2, 0%Z); (CLICK, 2, 1500%Z); (ANALOG, 1, 1600%Z)])))
        = [200; 300]%Z /\
      _waitBuffer (snd (doCheck (bench [(x00, x64); (x00, xc8); (x01, x2c)] 2500 [])
             (pending_display [(CLICK, 2, 0%Z); (CLICK, 2, 1500%Z); (ANALOG, 1, 1600%Z)])))
        = [(CLICK, 2, 1500%Z); (ANALOG, 1, 1600%Z)])
  /\
  (exists r2,
      process ANALOG [7%Z] = Ret r2 /\
      fst (doCheck (bench [(x00, x07)] 2500 [])
             (pending_display [(CLICK, 2, 0%Z); (CLICK, 2, 1500%Z); (ANALOG, 1, 1600%Z)]))
        = Ret (emitted r2) /\
      _inBuffer (snd (doCheck (bench [(x00, x07)] 2500 [])
             (pending_display [(CLICK, 2, 0%Z); (CLICK, 2, 1500%Z); (ANALOG, 1, 1600%Z)])))
        = [] /\
      _waitBuffer (snd (doCheck (bench [(x00, x07)] 2500 [])
             (pending_display [(CLICK, 2, 0%Z); (CLICK, 2, 1500%Z); (ANALOG, 1, 1600%Z)])))
        = [(CLICK, 2, 1500%Z); (ANALOG, 1, 1600%Z)]).
Proof.
  split.
  - eapply (expired_head_makes_walk_skip
              (bench [(x00, x64); (x00, xc8); (x01, x2c)] 2500 [])
              (pending_display [(CLICK, 2, 0%Z); (CLICK, 2, 1500%Z); (ANALOG, 1, 1600%Z)])).
    + reflexivity.
    + reflexivity.
    + reflexivity.
    + cbn. lia.
    + cbn. lia.
  - eapply (expired_head_makes_walk_skip
              (bench [(x00, x07)] 2500 [])
              (pending_display [(CLICK, 2, 0%Z); (CLICK, 2, 1500%Z); (ANALOG, 1, 1600%Z)])).
    + reflexivity.
    + reflexivity.
    + reflexivity.
    + cbn. lia.
    + cbn. lia.
Defined.

(** The two polls in full: the event returned is the analog reading made
    from the first raw value. *)
Example doCheck_skips_to_analog :
  fst (doCheck (bench [(x00, x64); (x00, xc8); (x01, x2c)] 2500 [])
         (pending_display [(CLICK, 2, 0%Z); (CLICK, 2, 1500%Z); (ANALOG, 1, 1600%Z)]))
    = Ret [(ANALOG, [Float (analog_volts 100); Int 100])]
  /\ fst (doCheck (bench [(x00, x07)] 2500 [])
         (pending_display [(CLICK, 2, 0%Z); (CLICK, 2, 1500%Z); (ANALOG, 1, 1600%Z)]))
    = Ret [(ANALOG, [Float (analog_volts 7); Int 7])].
Proof. split; reflexivity. Qed.

(* ================================================================== *)
(** * The paced bulk transfer *)
(* ================================================================== *)

(** C6 at a failing input, a file of three bytes: everything the
    transfer does, in order.  The length prefix, the 200 ms delay, the
    payload, and the 40 ms delay at the end are as described, and the
    inter-segment delay is back at 5; but the write between payload and
    final delay carries two bytes, 0x0c and 0x66 (the literal [b'\ff']
    is a form feed and the letter f), not a single terminator byte. *)
Theorem sendLargeFileSlowly_end_indicator :
  _sendLargeFileSlowly "f" (bench [] 0 [x01; x02; x03]) (__init__ 39)
    = (Ret tt,
       set_writes_tried 3
         (set_trace [I2cWrite 39 [x00; x03];
                     Sleep 200;
                     Print ".";
                     I2cWrite 39 [x01; x02; x03];
                     Print ".";
                     Print (String "010"%char EmptyString);
                     I2cWrite 39 [x0c; x66];
                     Sleep 40]
            (__init__ 39)))
  /\ length end_indicator = 2.
Proof. split; reflexivity. Qed.

(** ** The transfer on any file *)

Lemma bind_run {A B} {m : M A} (k : A -> M B) {env : Env} {w w1 : World} {a : A} :
  m env w = (Ret a, w1) -> bind m k env w = k a env w1.
Proof. intros H. unfold bind. rewrite H. reflexivity. Qed.

(** [S (length unread)] turns are all the loop of [_sendFile] takes: more
    fuel changes nothing. *)
Lemma _sendFile_loop_fuel (fuel : nat) :
  forall k unread,
    length unread < fuel ->
    _sendFile_loop (fuel + k) unread = _sendFile_loop fuel unread.
Proof.
  induction fuel as [| fuel IH]; intros k unread Hlen; [lia |].
  cbn [Nat.add _sendFile_loop]. cbv zeta.
  destruct (firstn 128 unread) as [| b chunk] eqn:Hchunk; [reflexivity |].
  rewrite IH; [reflexivity |].
  destruct unread as [| b' unread]; [discriminate |].
  rewrite length_skipn. cbn [length] in *. lia.
Qed.

Section BulkTransfer.

Variable env : Env.
Hypothesis bus_ok : bus_accepts env.

(** The payload goes out in segments of at most 64 bytes that make up
    the file. *)
Lemma sendFile_loop_sent (fuel : nat) :
  forall unread w,
    length unread < fuel ->
    exists w' segs,
      _sendFile_loop fuel unread env w = (Ret tt, w') /\
      sent segs w w' /\
      concat segs = unread /\
      Forall (fun s : bytes => length s <= 64) segs.
Proof.
  induction fuel as [| fuel IH]; intros unread w Hlen; [lia |].
  cbn [_sendFile_loop].
  destruct (emit_sent (Print ".") env w eq_refl) as (w1 & Hrun1 & Hsent1).
  rewrite (bind_run _ Hrun1). cbv zeta.
  destruct (firstn 128 unread) as [| b chunk] eqn:Hchunk.
  - destruct (emit_sent (Print (String "010"%char EmptyString)) env w1 eq_refl)
      as (w2 & Hrun2 & Hsent2).
    exists w2, []. split; [exact Hrun2 |]. split; [| split].
    + apply (sent_trans [] [] w w1 w2); assumption.
    + destruct unread; [reflexivity | discriminate].
    + constructor.
  - destruct (write_sent env bus_ok 0 (b :: chunk) w1) as (w2 & Hrun2 & Hsent2).
    destruct (IH (skipn 128 unread) w2) as (w3 & segs & Hrun3 & Hsent3 & Hcat & Hshort).
    { destruct unread as [| b' unread]; [discriminate |].
      rewrite length_skipn. cbn [length] in *. lia. }
    destruct (segments_spec (b :: chunk)) as (Hshort2 & Hcat2 & _).
    exists w3, (segments (b :: chunk) ++ segs). split; [| split; [| split]].
    + unfold _write. rewrite (bind_run _ Hrun2). exact Hrun3.
    + apply (sent_trans [] _ w w1 w3); [exact Hsent1 |].
      apply (sent_trans _ _ w1 w2 w3); assumption.
    + rewrite concat_app, Hcat2, Hcat, <- Hchunk. apply firstn_skipn.
    + apply Forall_app. split; assumption.
Qed.

(** The two-byte big-endian length of a file below 64 KiB. *)
Lemma length_header (size : nat) :
  size < 256 * 256 ->
  exists hi lo,
    bytes_of_ints [size / 256; size mod 256] = Ret [hi; lo] /\
    (256 * byte_value hi + byte_value lo = Z.of_nat size)%Z.
Proof.
  intros Hsize.
  assert (Hhi : size / 256 < 256) by (apply Nat.Div0.div_lt_upper_bound; lia).
  assert (Hlo : size mod 256 < 256) by (apply Nat.mod_upper_bound; lia).
  pose proof (Nat.div_mod_eq size 256) as Hdm.
  unfold bytes_of_ints, bytes_of_Ns. cbn [map fold_right].
  destruct (Byte.of_N (N.of_nat (size mod 256))) as [lo |] eqn:Elo;
    [| apply Byte.of_N_None_iff in Elo; lia].
  destruct (Byte.of_N (N.of_nat (size / 256))) as [hi |] eqn:Ehi;
    [| apply Byte.of_N_None_iff in Ehi; lia].
  exists hi, lo. split; [reflexivity |].
  apply Byte.to_of_N in Elo, Ehi. unfold byte_value. rewrite Elo, Ehi. lia.
Qed.

(** X1: the paced bulk transfer of a file below 64 KiB over a bus that
    accepts the writes returns; the bus sees, in order, one write of the
    two-byte big-endian length of the file, the payload in segments of at
    most 64 bytes that make up the file, and one write of
    [end_indicator]; the inter-segment delay ends as it began. *)
Theorem sendLargeFileSlowly_sent (fileName : string) (content : bytes) (w : World) :
  disk env fileName = Some content ->
  length content < 256 * 256 ->
  exists w' hi lo payload,
    _sendLargeFileSlowly fileName env w = (Ret tt, w') /\
    dataDelay w' = dataDelay w /\
    bus_writes (trace w') = bus_writes (trace w) ++ [[hi; lo]] ++ payload ++ [end_indicator] /\
    (256 * byte_value hi + byte_value lo = Z.of_nat (length content))%Z /\
    concat payload = content /\
    Forall (fun s : bytes => length s <= 64) payload.
Proof.
  intros Hdisk Hsize.
  destruct (length_header (length content) Hsize) as (hi & lo & Hheader & Hvalue).
  unfold _sendLargeFileSlowly, _getFileSize, _sendFile.
  assert (Hopen : forall w0, open_rb fileName env w0 = (Ret content, w0))
    by (intros w0; unfold open_rb; rewrite Hdisk; reflexivity).
  rewrite (bind_run _ (bind_run _ (Hopen w))).
  rewrite (bind_run _ (eq_refl : gets dataDelay env w = (Ret (dataDelay w), w))).
  set (w0 := set_dataDelay 40 w).
  rewrite (bind_run _ (eq_refl : modify (set_dataDelay 40) env w = (Ret tt, w0))).
  rewrite Hheader.
  rewrite (bind_run _ (eq_refl : lift (Ret [hi; lo]) env w0 = (Ret [hi; lo], w0))).
  destruct (write_sent env bus_ok 0 [hi; lo] w0) as (w1 & Hrun1 & Hsent1).
  unfold _write at 1. rewrite (bind_run _ Hrun1).
  destruct (emit_sent (Sleep 200) env w1 eq_refl) as (w2 & Hrun2 & Hsent2).
  unfold sleep_ms at 1. rewrite (bind_run _ Hrun2).
  destruct (sendFile_loop_sent (S (length content)) content w2 (Nat.lt_succ_diag_r _))
    as (w3 & payload & Hrun3 & Hsent3 & Hcat & Hshort).
  assert (Hfile : (content0 <- open_rb fileName ;;
                   _sendFile_loop (S (length content0)) content0) env w2 = (Ret tt, w3))
    by (rewrite (bind_run _ (Hopen w2)); exact Hrun3).
  rewrite (bind_run _ Hfile).
  destruct (write_sent env bus_ok 0 end_indicator w3) as (w4 & Hrun4 & Hsent4).
  unfold _write at 1. rewrite (bind_run _ Hrun4).
  destruct (emit_sent (Sleep 40) env w4 eq_refl) as (w5 & Hrun5 & Hsent5).
  unfold sleep_ms at 1. rewrite (bind_run _ Hrun5).
  exists (set_dataDelay (dataDelay w) w5), hi, lo, payload.
  pose proof (sent_trans _ _ _ _ _ Hsent1 Hsent2) as H12.
  pose proof (sent_trans _ _ _ _ _ H12 Hsent3) as H13.
  pose proof (sent_trans _ _ _ _ _ H13 Hsent4) as H14.
  pose proof (sent_trans _ _ _ _ _ H14 Hsent5) as (Hwrites & _ & _).
  split; [reflexivity |].
  destruct w5 as [a5 d5 p5 dbg5 wq5 iq5 nw5 nr5 nt5 t5].
  destruct w as [a d p dbg wq iq nw nr nt t].
  cbn [dataDelay set_dataDelay trace] in *.
  split; [reflexivity |]. split; [| repeat split; assumption].
  rewrite Hwrites. unfold segments. cbn [length Nat.ltb Nat.leb].
  rewrite !app_nil_r, <- !app_assoc. reflexivity.
Qed.

End BulkTransfer.

Lemma sendLargeFileSlowly_sent_witness :
  exists w' hi lo payload,
    _sendLargeFileSlowly "f" (bench [] 0 (repeat x2a 300)) (__init__ 39) = (Ret tt, w') /\
    dataDelay w' = dataDelay (__init__ 39) /\
    bus_writes (trace w')
      = bus_writes (trace (__init__ 39)) ++ [[hi; lo]] ++ payload ++ [end_indicator] /\
    (256 * byte_value hi + byte_value lo = Z.of_nat (length (repeat x2a 300)))%Z /\
    concat payload = repeat x2a 300 /\
    Forall (fun s : bytes => length s <= 64) payload.
Proof.
  apply (sendLargeFileSlowly_sent (bench [] 0 (repeat x2a 300))).
  - intros k. reflexivity.
  - reflexivity.
  - rewrite repeat_length. lia.
Defined.

(* ================================================================== *)
(** * Further properties of the correlator *)
(* ================================================================== *)

(** X2: a pending queue of exactly two requests, of arities 2 and 1 in
    that order, each of them not expired at the reading of the clock at
    which the poll examines it (the first reading for the first request,
    the next for the second), and at least three raw values in the
    raw-response queue once the bus is drained: the poll hands the first
    two raw values, in arrival order, to the first request and the third
    to the second, leaves the later raw values queued and the pending
    queue as it was. *)
Theorem two_requests_bound_in_order :
  forall env w w1 c1 c2 ts1 ts2 v1 v2 v3 rest,
    _waitBuffer w = [(c1, 2, ts1); (c2, 1, ts2)] ->
    (ticks env (ticks_read w) - ts1 <= 2000)%Z ->
    (ticks env (S (ticks_read w)) - ts2 <= 2000)%Z ->
    drain env w = (Ret tt, w1) ->
    _inBuffer w1 = v1 :: v2 :: v3 :: rest ->
    exists r1 r2,
      process c1 [v1; v2] = Ret r1 /\
      process c2 [v3] = Ret r2 /\
      fst (doCheck env w) = Ret (emitted r1 ++ emitted r2) /\
      _inBuffer (snd (doCheck env w)) = rest /\
      _waitBuffer (snd (doCheck env w)) = _waitBuffer w.
Proof.
  intros env w w1 c1 c2 ts1 ts2 v1 v2 v3 rest Hqueue Hfresh1 Hfresh2 Hdrain Hraw.
  destruct (process_nonempty c1 v1 [v2]) as [r1 Hr1].
  destruct (process_nonempty c2 v3 []) as [r2 Hr2].
  exists r1, r2. split; [exact Hr1 |]. split; [exact Hr2 |].
  destruct (drain_frame env w) as [Hq Hclock]. rewrite Hdrain in Hq, Hclock.
  cbn [snd] in Hq, Hclock. rewrite <- Hclock in Hfresh1, Hfresh2.
  rewrite Hqueue in Hq |- *.
  rewrite (doCheck_after_drain env w w1 Hdrain).
  destruct w1 as [a d p dbg wq iq nw nr nt t].
  cbn [_waitBuffer _inBuffer ticks_read] in Hq, Hraw, Hfresh1, Hfresh2.
  subst wq iq. cbn [_waitBuffer length].
  rewrite walk_step.
  cbn [_waitBuffer _inBuffer nth_error ticks_read tick set_ticks_read set_inBuffer].
  destruct (Z.ltb_spec 2000 (ticks env nt - ts1)); [lia |].
  cbn [length Nat.ltb Nat.leb firstn skipn]. cbv zeta. rewrite Hr1.
  assert (Hnext :
    walk 1 1 ([] ++ emitted r1) env (mkWorld a d p dbg [(c1, 2, ts1); (c2, 1, ts2)] (v3 :: rest) nw nr (S nt) t)
      = (Ret (emitted r1 ++ emitted r2),
         mkWorld a d p dbg [(c1, 2, ts1); (c2, 1, ts2)] rest nw nr (S (S nt)) t)).
  { rewrite walk_step.
    cbn [_waitBuffer _inBuffer nth_error ticks_read tick set_ticks_read set_inBuffer].
    destruct (Z.ltb_spec 2000 (ticks env (S nt) - ts2)); [lia |].
    cbn [length Nat.ltb Nat.leb firstn skipn]. cbv zeta. rewrite Hr2.
    destruct r2; cbn [walk ret emitted app]; rewrite ?app_nil_r; reflexivity. }
  destruct r1 as [ev1 |]; cbn [emitted app] in Hnext |- *; rewrite Hnext; repeat split.
Qed.

Lemma two_requests_bound_in_order_witness :
  exists r1 r2,
    process CLICK [120; 340]%Z = Ret r1 /\
    process VOLTAGE [3300%Z] = Ret r2 /\
    fst (doCheck (running [(x00, x78); (x01, x54); (x0c, xe4)] 500)
           (perform call_readVoltage (running [(x00, x78); (x01, x54); (x0c, xe4)] 500)
              (perform call_doCheck (running [(x00, x78); (x01, x54); (x0c, xe4)] 500)
                 (perform call_readClick (running [(x00, x78); (x01, x54); (x0c, xe4)] 500)
                    (__init__ 39)))))
      = Ret (emitted r1 ++ emitted r2) /\
    _inBuffer (snd (doCheck (running [(x00, x78); (x01, x54); (x0c, xe4)] 500)
           (perform call_readVoltage (running [(x00, x78); (x01, x54); (x0c, xe4)] 500)
              (perform call_doCheck (running [(x00, x78); (x01, x54); (x0c, xe4)] 500)
                 (perform call_readClick (running [(x00, x78); (x01, x54); (x0c, xe4)] 500)
                    (__init__ 39))))))
      = [] /\
    _waitBuffer (snd (doCheck (running [(x00, x78); (x01, x54); (x0c, xe4)] 500)
           (perform call_readVoltage (running [(x00, x78); (x01, x54); (x0c, xe4)] 500)
              (perform call_doCheck (running [(x00, x78); (x01, x54); (x0c, xe4)] 500)
                 (perform call_readClick (running [(x00, x78); (x01, x54); (x0c, xe4)] 500)
                    (__init__ 39))))))
      = _waitBuffer
          (perform call_readVoltage (running [(x00, x78); (x01, x54); (x0c, xe4)] 500)
             (perform call_doCheck (running [(x00, x78); (x01, x54); (x0c, xe4)] 500)
                (perform call_readClick (running [(x00, x78); (x01, x54); (x0c, xe4)] 500)
                   (__init__ 39)))).
Proof.
  eapply (two_requests_bound_in_order (running [(x00, x78); (x01, x54); (x0c, xe4)] 500)
            (perform call_readVoltage (running [(x00, x78); (x01, x54); (x0c, xe4)] 500)
               (perform call_doCheck (running [(x00, x78); (x01, x54); (x0c, xe4)] 500)
                  (perform call_readClick (running [(x00, x78); (x01, x54); (x0c, xe4)] 500)
                     (__init__ 39))))).
  - reflexivity.
  - vm_compute. discriminate.
  - vm_compute. discriminate.
  - reflexivity.
  - reflexivity.
Defined.




(* ================================================================== *)
(** * Further properties of the encoder *)
(* ================================================================== *)

(** What an argument contributes does not depend on what is already in
    the command. *)
Lemma append_arg_prefix (command : bytes) (arg : pyval) :
  append_arg command arg =
    match append_arg [] arg with
    | Ret emitted => Ret (command ++ emitted)
    | Raise e => Raise e
    end.
Proof.
  destruct arg as [b | n | b | s | | display]; cbn [append_arg app].
  - reflexivity.
  - unfold append_int. destruct (255 <=? n)%Z; destruct (to_bytes1 _);
      cbn [app]; rewrite <- ?app_assoc; reflexivity.
  - unfold append_text. destruct (encode_utf8 _); reflexivity.
  - unfold append_text. destruct (encode_utf8 _); reflexivity.
  - rewrite app_nil_r. reflexivity.
  - unfold append_text. destruct (encode_utf8 _); reflexivity.
Qed.

Lemma append_args_encoded (args : list pyval) :
  forall command out,
    append_args command args = Ret out <->
    exists encs,
      Forall2 (fun arg enc => append_arg [] arg = Ret enc) args encs /\
      out = command ++ concat encs.
Proof.
  induction args as [| arg args IH]; intros command out; cbn [append_args].
  - split.
    + intros H. injection H as <-. exists []. split; [constructor |].
      cbn. rewrite app_nil_r. reflexivity.
    + intros (encs & Hall & ->). inversion Hall. cbn. rewrite app_nil_r. reflexivity.
  - rewrite append_arg_prefix. split.
    + destruct (append_arg [] arg) as [enc | e] eqn:Harg; [| discriminate].
      intros H. apply IH in H. destruct H as (encs & Hall & ->).
      exists (enc :: encs). split; [constructor; assumption |].
      cbn. rewrite app_assoc. reflexivity.
    + intros (encs & Hall & ->). inversion Hall as [| ? enc ? encs' Harg Hrest]; subst.
      rewrite Harg. apply IH. exists encs'. split; [exact Hrest |].
      cbn. rewrite app_assoc. reflexivity.
Qed.

(** X5: the wire format of a command.  When every argument has an
    encoding, [_sendCommand] on a bus that accepts the writes hands the
    bus segments of at most 64 bytes which, put together, are the opcode
    followed by the encodings of the arguments in their order; what an
    argument contributes does not depend on the arguments before it, and
    [None] contributes nothing. *)
Theorem sendCommand_wire_format :
  forall env w command args encs,
    bus_accepts env ->
    Forall2 (fun arg enc => append_arg [] arg = Ret enc) args encs ->
    append_arg [] PNone = Ret [] /\
    exists w' segs,
      _sendCommand command args env w = (Ret tt, w') /\
      bus_writes (trace w') = bus_writes (trace w) ++ segs /\
      concat segs = command ++ concat encs /\
      Forall (fun s : bytes => length s <= 64) segs.
Proof.
  intros env w command args encs Hbus Hall. split; [reflexivity |].
  assert (Henc : append_args command args = Ret (command ++ concat encs))
    by (apply append_args_encoded; exists encs; auto).
  destruct (write_sent env Hbus 0 (command ++ concat encs) w) as (w' & Hrun & Hsent & _).
  destruct (segments_spec (command ++ concat encs)) as (Hshort & Hcat & _).
  exists w', (segments (command ++ concat encs)).
  split; [| repeat split; assumption].
  unfold _sendCommand. rewrite Henc.
  rewrite (bind_run _ (eq_refl : lift (Ret (command ++ concat encs)) env w
                                 = (Ret (command ++ concat encs), w))).
  exact Hrun.
Qed.

Lemma sendCommand_wire_format_witness :
  append_arg [] PNone = Ret [] /\
  exists w' segs,
    _sendCommand (b_lit "CC") [PInt 300; PInt 20; PNone; PStr (s_lit "ok"); PBytes [x07]]
                 (bench [] 0 []) (__init__ 39) = (Ret tt, w') /\
    bus_writes (trace w') = bus_writes (trace (__init__ 39)) ++ segs /\
    concat segs = b_lit "CC" ++ concat [[xff; x2d]; [x14]; []; [x6f; x6b; x00]; [x07]] /\
    Forall (fun s : bytes => length s <= 64) segs.
Proof.
  apply (sendCommand_wire_format (bench [] 0 [])).
  - intros k. reflexivity.
  - repeat constructor.
Defined.

(** What a successful integer encoding looks like. *)
Lemma append_int_shape (n : Z) (emitted : bytes) :
  append_arg [] (PInt n) = Ret emitted ->
  ((0 <= n < 255)%Z /\ exists b, emitted = [b] /\ byte_value b = n) \/
  ((255 <= n <= 510)%Z /\ exists b, emitted = [xff; b] /\ byte_value b = (n - 255)%Z).
Proof.
  cbn [append_arg]. intros H.
  destruct (Z.lt_ge_cases n 0) as [Hneg | Hpos];
    [rewrite append_int_overflow in H by lia; discriminate |].
  destruct (Z.lt_ge_cases n 255) as [Hsmall | Hbig].
  - left. split; [lia |].
    destruct (append_int_small [] n) as (b & Hb & Hv); [lia |].
    rewrite Hb in H. injection H as <-. eauto.
  - destruct (Z.lt_ge_cases 510 n) as [Hover | Hfit];
      [rewrite append_int_overflow in H by lia; discriminate |].
    right. split; [lia |].
    destruct (append_int_extended [] n) as (b & Hb & Hv); [lia |].
    rewrite Hb in H. injection H as <-. eauto.
Qed.

(** X6: integer arguments can be read back without ambiguity: every
    integer from 0 to 510 has an encoding, and when the encoding of one
    of them, followed by any bytes, equals the encoding of another,
    followed by any bytes, the two integers are the same and so are the
    bytes that follow. *)
Theorem append_int_prefix_free :
  forall n m,
    (0 <= n <= 510)%Z ->
    (0 <= m <= 510)%Z ->
    exists en em,
      append_arg [] (PInt n) = Ret en /\
      append_arg [] (PInt m) = Ret em /\
      forall after_n after_m,
        en ++ after_n = em ++ after_m -> n = m /\ after_n = after_m.
Proof.
  intros n m Hrn Hrm.
  assert (Hex : forall k, (0 <= k <= 510)%Z -> exists e, append_arg [] (PInt k) = Ret e).
  { intros k Hk. cbn [append_arg]. destruct (Z.lt_ge_cases k 255).
    - destruct (append_int_small [] k) as (b & Hb & _); [lia | eauto].
    - destruct (append_int_extended [] k) as (b & Hb & _); [lia | eauto]. }
  destruct (Hex n Hrn) as [en Hn]. destruct (Hex m Hrm) as [em Hm].
  exists en, em. split; [exact Hn |]. split; [exact Hm |].
  intros after_n after_m Heq.
  assert (Hff : byte_value xff = 255%Z) by reflexivity.
  apply append_int_shape in Hn, Hm.
  destruct Hn as [(Hn & bn & -> & Hvn) | (Hn & bn & -> & Hvn)];
    destruct Hm as [(Hm & bm & -> & Hvm) | (Hm & bm & -> & Hvm)];
    cbn [app] in Heq.
  - injection Heq as -> ->. split; [congruence | reflexivity].
  - injection Heq as -> _. lia.
  - injection Heq as <- _. lia.
  - injection Heq as -> ->. split; [lia | reflexivity].
Qed.

Lemma append_int_prefix_free_witness :
  exists en em,
    append_arg [] (PInt 255) = Ret en /\
    append_arg [] (PInt 510) = Ret em /\
    forall after_n after_m,
      en ++ after_n = em ++ after_m -> 255%Z = 510%Z /\ after_n = after_m.
Proof.
  apply (append_int_prefix_free 255 510); lia.
Defined.

(* ================================================================== *)
(** * Further properties of the chunked writer *)
(* ================================================================== *)

Lemma io_events_app (t u : list effect) :
  io_events (t ++ u) = io_events t ++ io_events u.
Proof. apply filter_app. Qed.

Lemma bus_writes_io_events (t : list effect) :
  bus_writes (io_events t) = bus_writes t.
Proof.
  unfold bus_writes, io_events.
  induction t as [| e t IH]; [reflexivity |].
  destruct e; cbn; rewrite ?IH; reflexivity.
Qed.

Lemma bus_writes_segment_then_pause (addr delay : Z) (segs : list bytes) :
  bus_writes (flat_map (segment_then_pause addr delay) segs) = segs.
Proof.
  unfold bus_writes.
  induction segs as [| seg segs IH]; [reflexivity |].
  cbn. rewrite IH. reflexivity.
Qed.

Section WriterRuns.

Variable env : Env.

(** One bus write that the bus accepts. *)
Lemma transmit_accepted (v : bytes) (w : World) :
  writeto_reply env (writes_tried w) = None ->
  exists w',
    transmit v env w = (Ret tt, w') /\
    writes_tried w' = S (writes_tried w) /\
    io_events (trace w') = io_events (trace w) ++ [I2cWrite (address w) v] /\
    dataDelay w' = dataDelay w /\
    address w' = address w.
Proof.
  destruct w as [a d p dbg wq iq nw nr nt t]. cbn [writes_tried]. intros Hreply.
  unfold transmit, bind, i2c_writeto, isRecording, gets, paperTrail_write,
    on_paperTrail, emit, modify, ret.
  cbn [writes_tried]. rewrite Hreply.
  destruct p as [s |]; destruct dbg; cbn; eexists; (split; [reflexivity |]);
    cbn; rewrite ?io_events_app; cbn; rewrite ?app_nil_r; repeat split.
Qed.

(** One bus write that the bus refuses: nothing happens but the attempt. *)
Lemma transmit_refused (v : bytes) (w : World) (msg : string) :
  writeto_reply env (writes_tried w) = Some msg ->
  transmit v env w = (Raise (OSError msg), set_writes_tried (S (writes_tried w)) w).
Proof.
  destruct w as [a d p dbg wq iq nw nr nt t]. cbn [writes_tried]. intros Hreply.
  unfold transmit, bind, i2c_writeto. cbn [writes_tried]. rewrite Hreply. reflexivity.
Qed.

Lemma pause_run (w : World) :
  exists w',
    (delay <- gets dataDelay ;; sleep_ms delay) env w = (Ret tt, w') /\
    writes_tried w' = writes_tried w /\
    io_events (trace w') = io_events (trace w) ++ [Sleep (dataDelay w)] /\
    dataDelay w' = dataDelay w /\
    address w' = address w.
Proof.
  destruct w as [a d p dbg wq iq nw nr nt t].
  eexists. split; [reflexivity |]. cbn. rewrite io_events_app. repeat split.
Qed.

(** The loop of [_write] against a bus that accepts the first [k]
    attempts: it runs through when [k] covers the segments, and stops at
    attempt [k] when that one is refused. *)
Lemma write_loop_run (depth : nat) (v : bytes) (idxs : list nat) :
  forall w k,
    (forall j, j < k -> j < length idxs ->
               writeto_reply env (writes_tried w + j) = None) ->
    (length idxs <= k ->
     exists w',
       for_each idxs (fun i =>
         let chunk := slice v i (i + 64) in
         _write_depth (S depth) chunk ;;
         delay <- gets dataDelay ;;
         sleep_ms delay) env w = (Ret tt, w') /\
       writes_tried w' = writes_tried w + length idxs /\
       io_events (trace w')
         = io_events (trace w)
           ++ flat_map (segment_then_pause (address w) (dataDelay w))
                (map (fun i => slice v i (i + 64)) idxs) /\
       dataDelay w' = dataDelay w /\
       address w' = address w)
    /\
    (forall msg,
        k < length idxs ->
        writeto_reply env (writes_tried w + k) = Some msg ->
        exists w',
          for_each idxs (fun i =>
            let chunk := slice v i (i + 64) in
            _write_depth (S depth) chunk ;;
            delay <- gets dataDelay ;;
            sleep_ms delay) env w = (Raise (OSError msg), w') /\
          writes_tried w' = writes_tried w + k + 1 /\
          io_events (trace w')
            = io_events (trace w)
              ++ flat_map (segment_then_pause (address w) (dataDelay w))
                   (firstn k (map (fun i => slice v i (i + 64)) idxs))).
Proof.
  induction idxs as [| i idxs IH]; intros w k Hacc.
  - split.
    + intros _. exists w. cbn. rewrite Nat.add_0_r, app_nil_r. repeat split.
    + intros msg Hk. cbn in Hk. lia.
  - assert (Hshort : _write_depth (S depth) (slice v i (i + 64)) = transmit (slice v i (i + 64))).
    { cbn [_write_depth]. pose proof (slice_length_le v i 64).
      destruct (Nat.ltb_spec 64 (length (slice v i (i + 64)))); [lia | reflexivity]. }
    cbn [for_each map length]. cbv zeta. rewrite Hshort.
    destruct k as [| k].
    + split; [intros Hk; lia |].
      intros msg _ Hrefused. rewrite Nat.add_0_r in Hrefused.
      eexists. split.
      * unfold bind at 1. unfold bind at 1.
        rewrite (transmit_refused _ w msg Hrefused). reflexivity.
      * destruct w as [a d p dbg wq iq nw nr nt t]. cbn.
        rewrite app_nil_r. split; [lia | reflexivity].
    + assert (H0 : writeto_reply env (writes_tried w) = None).
      { rewrite <- (Nat.add_0_r (writes_tried w)). apply Hacc; cbn; lia. }
      destruct (transmit_accepted (slice v i (i + 64)) w H0)
        as (w1 & Hrun1 & Hn1 & Hio1 & Hd1 & Ha1).
      destruct (pause_run w1) as (w2 & Hrun2 & Hn2 & Hio2 & Hd2 & Ha2).
      assert (Hstep :
        (transmit (slice v i (i + 64)) ;; delay <- gets dataDelay ;; sleep_ms delay) env w
          = (Ret tt, w2)) by (rewrite (bind_run _ Hrun1); exact Hrun2).
      assert (Hacc2 : forall j, j < k -> j < length idxs ->
                                writeto_reply env (writes_tried w2 + j) = None).
      { intros j Hj Hj'. rewrite Hn2, Hn1.
        replace (S (writes_tried w) + j) with (writes_tried w + S j) by lia.
        apply Hacc; cbn; lia. }
      destruct (IH w2 k Hacc2) as [IHok IHfail].
      assert (Hio12 : io_events (trace w2)
                      = io_events (trace w)
                        ++ segment_then_pause (address w) (dataDelay w) (slice v i (i + 64))).
      { rewrite Hio2, Hio1, Hd1, <- app_assoc. reflexivity. }
      split.
      * intros Hk. destruct IHok as (w3 & Hrun3 & Hn3 & Hio3 & Hd3 & Ha3); [lia |].
        exists w3. split; [rewrite (bind_run _ Hstep); exact Hrun3 |].
        split; [lia |]. split; [| split; congruence].
        rewrite Hio3, Hio12, Hd2, Hd1, Ha2, Ha1, <- app_assoc. reflexivity.
      * intros msg Hk Hrefused.
        destruct (IHfail msg) as (w3 & Hrun3 & Hn3 & Hio3); [lia | |].
        { rewrite Hn2, Hn1.
          replace (S (writes_tried w) + k) with (writes_tried w + S k) by lia.
          exact Hrefused. }
        exists w3. split; [rewrite (bind_run _ Hstep); exact Hrun3 |].
        split; [lia |].
        rewrite Hio3, Hio12, Hd2, Hd1, Ha2, Ha1, <- app_assoc. reflexivity.
Qed.

End WriterRuns.

Lemma last_nth {X} (l : list X) (d : X) : last l d = nth (length l - 1) l d.
Proof.
  induction l as [| a l IH]; [reflexivity |].
  destruct l as [| b l]; [reflexivity |].
  change (last (a :: b :: l) d) with (last (b :: l) d).
  rewrite IH. cbn [length Nat.sub nth]. rewrite Nat.sub_0_r. reflexivity.
Qed.

(** The segments of a long input, by position. *)
Lemma segments_long (v : bytes) :
  64 < length v ->
  length (segments v) = (length v + 63) / 64 /\
  forall k, k < length (segments v) ->
            nth k (segments v) [] = slice v (k * 64) (k * 64 + 64).
Proof.
  intros Hlong. unfold segments, range.
  destruct (Nat.ltb_spec 64 (length v)); [| lia].
  rewrite map_map, length_map, length_seq.
  replace (length v - 0 + (64 - 1)) with (length v + 63) by lia.
  split; [reflexivity |].
  intros k Hk.
  rewrite (nth_indep _ [] (slice v (0 + 0 * 64) (0 + 0 * 64 + 64)))
    by (rewrite length_map, length_seq; exact Hk).
  rewrite (map_nth (fun x => slice v (0 + x * 64) (0 + x * 64 + 64)) (seq 0 _) 0 k).
  rewrite seq_nth by exact Hk. reflexivity.
Qed.

Lemma slice_length {X} (v : list X) (i n : nat) :
  length (slice v i (i + n)) = Nat.min n (length v - i).
Proof.
  unfold slice. rewrite length_firstn, length_skipn. f_equal. lia.
Qed.

(** X7: an input longer than 64 bytes goes out (on a bus that accepts
    the writes) in exactly ceil(len / 64) bus writes: every write but the
    last carries exactly 64 bytes and the last one carries the rest,
    between 1 and 64 bytes; no write is empty. *)
Theorem _write_full_segments :
  forall env w v,
    bus_accepts env ->
    64 < length v ->
    exists w' segs,
      _write v env w = (Ret tt, w') /\
      bus_writes (trace w') = bus_writes (trace w) ++ segs /\
      length segs = (length v + 63) / 64 /\
      (forall k, S k < length segs -> length (nth k segs []) = 64) /\
      0 < length (last segs []) <= 64.
Proof.
  intros env w v Hbus Hlong.
  destruct (write_sent env Hbus 0 v w) as (w' & Hrun & Hsent & _).
  destruct (segments_long v Hlong) as [Hcount Hnth].
  exists w', (segments v). split; [exact Hrun |]. split; [exact Hsent |].
  split; [exact Hcount |].
  pose proof (Nat.div_mod_eq (length v + 63) 64) as Hdm.
  pose proof (Nat.mod_upper_bound (length v + 63) 64) as Hmod.
  split.
  - intros k Hk. rewrite Hnth by lia. rewrite slice_length. rewrite Hcount in Hk. lia.
  - rewrite last_nth, Hnth by lia. rewrite slice_length, Hcount. lia.
Qed.

Lemma _write_full_segments_witness :
  exists w' segs,
    _write (repeat x2a 130) (bench [] 0 []) (__init__ 39) = (Ret tt, w') /\
    bus_writes (trace w') = bus_writes (trace (__init__ 39)) ++ segs /\
    length segs = (length (repeat x2a 130) + 63) / 64 /\
    (forall k, S k < length segs -> length (nth k segs []) = 64) /\
    0 < length (last segs []) <= 64.
Proof.
  apply (_write_full_segments (bench [] 0 [])).
  - intros k. reflexivity.
  - rewrite repeat_length. lia.
Defined.

(** X8: pacing.  On a bus that accepts the writes, an input longer than
    64 bytes is sent as segment, pause, segment, pause, ...: every
    segment, the last one too, is followed by one pause of [dataDelay]
    ms; an input of at most 64 bytes is one write with no pause. *)
Theorem _write_pacing :
  forall env w v,
    bus_accepts env ->
    exists w',
      _write v env w = (Ret tt, w') /\
      io_events (trace w')
        = io_events (trace w)
          ++ (if 64 <? length v
              then flat_map (segment_then_pause (address w) (dataDelay w)) (segments v)
              else [I2cWrite (address w) v]).
Proof.
  intros env w v Hbus. unfold _write, segments. cbn [_write_depth].
  destruct (Nat.ltb_spec 64 (length v)) as [Hlong | Hshort].
  - destruct (write_loop_run env 0 v (range 0 (length v) 64) w
                (length (range 0 (length v) 64))) as [Hok _];
      [intros; apply Hbus |].
    destruct (Hok (le_n _)) as (w' & Hrun & _ & Hio & _).
    exists w'. split; assumption.
  - destruct (transmit_accepted env v w (Hbus _)) as (w' & Hrun & _ & Hio & _).
    exists w'. split; assumption.
Qed.

Lemma _write_pacing_witness :
  exists w',
    _write (repeat x2a 130) (bench [] 0 []) (__init__ 39) = (Ret tt, w') /\
    io_events (trace w')
      = io_events (trace (__init__ 39))
        ++ (if 64 <? length (repeat x2a 130)
            then flat_map (segment_then_pause (address (__init__ 39)) (dataDelay (__init__ 39)))
                          (segments (repeat x2a 130))
            else [I2cWrite (address (__init__ 39)) (repeat x2a 130)]).
Proof.
  apply (_write_pacing (bench [] 0 [])). intros k. reflexivity.
Defined.

(** X9: a bus error ends the call at once.  When the bus accepts the
    first [k] segments of an input and refuses the next with an
    [OSError], [_write] raises that very error; the bus has seen the
    first [k] segments and nothing else, and the refused write is the
    last attempt: it is not repeated and no later segment is tried. *)
Theorem _write_bus_error :
  forall env w v k msg,
    (forall j, j < k -> writeto_reply env (writes_tried w + j) = None) ->
    writeto_reply env (writes_tried w + k) = Some msg ->
    k < length (segments v) ->
    exists w',
      _write v env w = (Raise (OSError msg), w') /\
      writes_tried w' = writes_tried w + k + 1 /\
      bus_writes (trace w') = bus_writes (trace w) ++ firstn k (segments v).
Proof.
  intros env w v k msg Hacc Hrefused Hk. unfold _write. unfold segments in *.
  cbn [_write_depth].
  destruct (Nat.ltb_spec 64 (length v)) as [Hlong | Hshort].
  - rewrite length_map in Hk.
    destruct (write_loop_run env 0 v (range 0 (length v) 64) w k) as [_ Hfail];
      [intros; apply Hacc; assumption |].
    destruct (Hfail msg Hk Hrefused) as (w' & Hrun & Hn & Hio).
    exists w'. split; [exact Hrun |]. split; [exact Hn |].
    rewrite <- (bus_writes_io_events (trace w')), Hio, bus_writes_app,
      bus_writes_io_events, bus_writes_segment_then_pause. reflexivity.
  - cbn [length] in Hk. assert (k = 0) by lia. subst k.
    rewrite Nat.add_0_r in Hrefused.
    rewrite (transmit_refused env v w msg Hrefused).
    eexists. split; [reflexivity |].
    destruct w as [a d p dbg wq iq nw nr nt t]. cbn.
    rewrite app_nil_r. split; [lia | reflexivity].
Qed.

Lemma _write_bus_error_witness :
  exists w',
    _write (repeat x2a 130)
           (mkEnv (fun k => if k =? 1 then Some "[Errno 19] ENODEV"%string else None)
                  (fun _ => BusError "ETIMEDOUT") (fun _ => 0%Z) (fun _ => None))
           (__init__ 39)
      = (Raise (OSError "[Errno 19] ENODEV"), w') /\
    writes_tried w' = writes_tried (__init__ 39) + 1 + 1 /\
    bus_writes (trace w')
      = bus_writes (trace (__init__ 39)) ++ firstn 1 (segments (repeat x2a 130)).
Proof.
  apply (_write_bus_error
           (mkEnv (fun k => if k =? 1 then Some "[Errno 19] ENODEV"%string else None)
                  (fun _ => BusError "ETIMEDOUT") (fun _ => 0%Z) (fun _ => None))
           (__init__ 39) (repeat x2a 130) 1).
  - intros j Hj. assert (j = 0) by lia. subst j. reflexivity.
  - reflexivity.
  - vm_compute. lia.
Defined.

(* ================================================================== *)
(** * Further properties of the recorder *)
(* ================================================================== *)

Lemma concat_flat_map_segments (vs : list bytes) :
  concat (flat_map segments vs) = concat vs.
Proof.
  induction vs as [| v vs IH]; [reflexivity |].
  cbn [flat_map concat]. rewrite concat_app, IH.
  f_equal. apply segments_spec.
Qed.

Lemma bus_writes_released (w : World) :
  bus_writes (trace (released w)) = bus_writes (trace w).
Proof.
  destruct w as [a d p dbg wq iq nw nr nt t]. cbn.
  rewrite bus_writes_app. apply app_nil_r.
Qed.

(** A series of calls of [_write] on a bus that accepts the writes. *)
Lemma write_each_sent (env : Env) (Hbus : bus_accepts env) (vs : list bytes) :
  forall w,
  exists w',
    for_each vs _write env w = (Ret tt, w') /\
    sent (flat_map segments vs) w w'.
Proof.
  induction vs as [| v vs IH]; intros w.
  - exists w. split; [reflexivity | apply sent_refl].
  - destruct (write_sent env Hbus 0 v w) as (w1 & Hrun1 & Hsent1).
    destruct (IH w1) as (w2 & Hrun2 & Hsent2).
    exists w2. split.
    + cbn [for_each]. unfold _write at 1. rewrite (bind_run _ Hrun1). exact Hrun2.
    + cbn [flat_map]. eapply sent_trans; eassumption.
Qed.

(** X10: record and replay.  Starting from an idle recorder, a recording
    session in which the byte sequences [vs] are written one after the
    other returns, when stopped without callback, exactly their
    concatenation and leaves the recorder idle; and replaying the
    returned bytes through [executeScript] puts the same bytes on the bus
    as the live session did (up to where the segments are cut). *)
Theorem record_then_replay :
  forall env w vs,
    bus_accepts env ->
    _paperTrail w = None ->
    exists w1 live,
      (startRecording ;; for_each vs _write ;; stopRecording None) env w
        = (Ret (RBytes (concat vs)), w1) /\
      _paperTrail w1 = None /\
      bus_writes (trace w1) = bus_writes (trace w) ++ live /\
      exists w2 replayed,
        executeScript (concat vs) env w1 = (Ret tt, w2) /\
        bus_writes (trace w2) = bus_writes (trace w1) ++ replayed /\
        concat replayed = concat live.
Proof.
  intros env w vs Hbus Hidle.
  set (w0 := set_paperTrail (Some (mkBytesIO [] 0)) w).
  assert (Hstart : startRecording env w = (Ret tt, w0)).
  { destruct w as [a d p dbg wq iq nw nr nt t]. cbn in Hidle. subst p. reflexivity. }
  destruct (write_each_sent env Hbus vs w0) as (w' & Hrun & Hwrites & _ & Hmirror).
  assert (Htrail0 : _paperTrail w0 = Some (mkBytesIO [] 0) /\ trace w0 = trace w)
    by (destruct w as [a d p dbg wq iq nw nr nt t]; split; reflexivity).
  destruct Htrail0 as [Htrail0 Htrace0].
  unfold mirrored in Hmirror. rewrite Htrail0 in Hmirror.
  destruct (Hmirror eq_refl) as (s' & Hs' & Hbuf & _).
  cbn [buf app] in Hbuf. rewrite concat_flat_map_segments in Hbuf.
  exists (released w'), (flat_map segments vs).
  split; [| split; [| split]].
  - rewrite (bind_run _ Hstart), (bind_run _ Hrun).
    rewrite stopRecording_closed_form, Hs', Hbuf. reflexivity.
  - destruct w' as [a d p dbg wq iq nw nr nt t]. reflexivity.
  - rewrite bus_writes_released, Hwrites, Htrace0. reflexivity.
  - destruct (write_sent env Hbus 0 (concat vs) (released w')) as (w2 & Hrun2 & Hsent2 & _).
    exists w2, (segments (concat vs)). split; [exact Hrun2 |]. split; [exact Hsent2 |].
    rewrite concat_flat_map_segments. apply segments_spec.
Qed.

Lemma record_then_replay_witness :
  exists w1 live,
    (startRecording ;; for_each [b_lit "CL"; repeat x2a 100] _write ;; stopRecording None)
      (bench [] 0 []) (__init__ 39)
      = (Ret (RBytes (concat [b_lit "CL"; repeat x2a 100])), w1) /\
    _paperTrail w1 = None /\
    bus_writes (trace w1) = bus_writes (trace (__init__ 39)) ++ live /\
    exists w2 replayed,
      executeScript (concat [b_lit "CL"; repeat x2a 100]) (bench [] 0 []) w1 = (Ret tt, w2) /\
      bus_writes (trace w2) = bus_writes (trace w1) ++ replayed /\
      concat replayed = concat live.
Proof.
  apply (record_then_replay (bench [] 0 [])).
  - intros k. reflexivity.
  - reflexivity.
Defined.

(** X11: nothing of a recording survives its stop.  Whatever the
    callback does, after [stopRecording] the recorder reports size 0, a
    second [stopRecording] returns [None] and changes nothing, and the
    next [startRecording] begins with an empty buffer. *)
Theorem stopRecording_then :
  forall env w streamHandler streamHandler',
    let w1 := snd (stopRecording streamHandler env w) in
    getRecordingSize env w1 = (Ret 0, w1) /\
    stopRecording streamHandler' env w1 = (Ret RNone, w1) /\
    _paperTrail (snd (startRecording env w1)) = Some (mkBytesIO [] 0) /\
    fst ((startRecording ;; getRecordingSize) env w1) = Ret 0.
Proof.
  intros env w streamHandler streamHandler' w1. subst w1.
  rewrite stopRecording_closed_form. unfold released.
  destruct w as [a d [s |] dbg wq iq nw nr nt t]; cbn [_paperTrail snd];
    repeat split; reflexivity.
Qed.

(* ================================================================== *)
(** * Draining the bus *)
(* ================================================================== *)

Section Drain.

Variable env : Env.

(** One turn of the first loop of [doCheck]. *)
Lemma drain_turn_data (w : World) :
  delivers env (reads_tried w) ->
  exists w',
    (ii <- _readInt ;; modify (fun w => set_inBuffer (_inBuffer w ++ ii) w)) env w
      = (Ret tt, w') /\
    _inBuffer w' = _inBuffer w ++ [reading env (reads_tried w)] /\
    reads_tried w' = S (reads_tried w) /\
    _waitBuffer w' = _waitBuffer w.
Proof.
  intros (hi & lo & Hreply). unfold reading. rewrite Hreply.
  destruct w as [a d p dbg wq iq nw nr nt t]. cbn [reads_tried] in *.
  unfold bind, _readInt, bind, i2c_readfrom2, sleep_ms, emit, modify, ret.
  cbn [reads_tried]. rewrite Hreply. cbn. eexists. repeat split.
Qed.

Lemma drain_turn_error (w : World) (msg : string) :
  readfrom_reply env (reads_tried w) = BusError msg ->
  (ii <- _readInt ;; modify (fun w => set_inBuffer (_inBuffer w ++ ii) w)) env w
    = (Raise (OSError msg), set_reads_tried (S (reads_tried w)) w).
Proof.
  intros Hreply.
  destruct w as [a d p dbg wq iq nw nr nt t]. cbn [reads_tried] in *.
  unfold bind, _readInt, bind, i2c_readfrom2. cbn [reads_tried]. rewrite Hreply.
  reflexivity.
Qed.

Lemma drain_loop_run (xs : list Pending) :
  forall w k,
    (forall j, j < k -> j < length xs -> delivers env (reads_tried w + j)) ->
    (length xs <= k ->
     exists w',
       for_each xs (fun _ =>
         ii <- _readInt ;;
         modify (fun w => set_inBuffer (_inBuffer w ++ ii) w)) env w = (Ret tt, w') /\
       _inBuffer w' = _inBuffer w ++ map (reading env) (seq (reads_tried w) (length xs)) /\
       reads_tried w' = reads_tried w + length xs /\
       _waitBuffer w' = _waitBuffer w)
    /\
    (forall msg,
        k < length xs ->
        readfrom_reply env (reads_tried w + k) = BusError msg ->
        exists w',
          for_each xs (fun _ =>
            ii <- _readInt ;;
            modify (fun w => set_inBuffer (_inBuffer w ++ ii) w)) env w
            = (Raise (OSError msg), w') /\
          _inBuffer w' = _inBuffer w ++ map (reading env) (seq (reads_tried w) k) /\
          reads_tried w' = reads_tried w + k + 1 /\
          _waitBuffer w' = _waitBuffer w).
Proof.
  induction xs as [| x xs IH]; intros w k Hdata.
  - split.
    + intros _. exists w. cbn. rewrite app_nil_r, Nat.add_0_r. repeat split.
    + intros msg Hk. cbn in Hk. lia.
  - cbn [for_each length]. destruct k as [| k].
    + split; [intros Hk; lia |].
      intros msg _ Herr. rewrite Nat.add_0_r in Herr.
      eexists. split.
      * unfold bind at 1. rewrite (drain_turn_error w msg Herr). reflexivity.
      * destruct w as [a d p dbg wq iq nw nr nt t]. cbn.
        rewrite app_nil_r. repeat split. lia.
    + assert (H0 : delivers env (reads_tried w)).
      { rewrite <- (Nat.add_0_r (reads_tried w)). apply Hdata; cbn; lia. }
      destruct (drain_turn_data w H0) as (w1 & Hrun1 & Hin1 & Hn1 & Hq1).
      assert (Hdata1 : forall j, j < k -> j < length xs -> delivers env (reads_tried w1 + j)).
      { intros j Hj Hj'. rewrite Hn1.
        replace (S (reads_tried w) + j) with (reads_tried w + S j) by lia.
        apply Hdata; cbn; lia. }
      destruct (IH w1 k Hdata1) as [IHok IHfail]. split.
      * intros Hk. destruct IHok as (w2 & Hrun2 & Hin2 & Hn2 & Hq2); [lia |].
        exists w2. split; [rewrite (bind_run _ Hrun1); exact Hrun2 |].
        rewrite Hin2, Hin1, Hn2, Hn1, Hq2, Hq1, <- app_assoc. cbn [seq map app].
        repeat split. lia.
      * intros msg Hk Herr.
        destruct (IHfail msg) as (w2 & Hrun2 & Hin2 & Hn2 & Hq2); [lia | |].
        { rewrite Hn1. replace (S (reads_tried w) + k) with (reads_tried w + S k) by lia.
          exact Herr. }
        exists w2. split; [rewrite (bind_run _ Hrun1); exact Hrun2 |].
        rewrite Hin2, Hin1, Hn2, Hn1, Hq2, Hq1, <- app_assoc. cbn [seq map app].
        repeat split. lia.
Qed.

End Drain.

(** X12: the first phase of a poll reads at most one two-byte value per
    pending request and appends the values to the raw-response queue in
    the order read.  If all reads deliver, the phase ends normally.  If a
    read raises an [OSError], the reading stops there and the values read
    before it stay in the queue; when the text of the error contains
    ETIMEDOUT the phase ends normally all the same, otherwise the error
    is raised again. *)
Theorem drain_reads :
  forall env w k,
    (forall j, j < k -> delivers env (reads_tried w + j)) ->
    k <= length (_waitBuffer w) ->
    (k = length (_waitBuffer w) ->
     exists w',
       drain env w = (Ret tt, w') /\
       _inBuffer w' = _inBuffer w ++ map (reading env) (seq (reads_tried w) k) /\
       reads_tried w' = reads_tried w + k)
    /\
    (forall msg,
        k < length (_waitBuffer w) ->
        readfrom_reply env (reads_tried w + k) = BusError msg ->
        exists w',
          drain env w
            = (if contains "ETIMEDOUT" msg then Ret tt else Raise (OSError msg), w') /\
          _inBuffer w' = _inBuffer w ++ map (reading env) (seq (reads_tried w) k) /\
          reads_tried w' = reads_tried w + k + 1).
Proof.
  intros env w k Hdata Hk.
  destruct (drain_loop_run env (_waitBuffer w) w k) as [Hok Hfail];
    [intros; apply Hdata; assumption |].
  unfold drain, try_except_OSError. split.
  - intros ->. destruct (Hok (le_n _)) as (w' & Hrun & Hin & Hn & _).
    exists w'. unfold bind at 1. cbn [gets]. rewrite Hrun. repeat split; assumption.
  - intros msg Hlt Herr. destruct (Hfail msg Hlt Herr) as (w' & Hrun & Hin & Hn & _).
    exists w'. unfold bind at 1. cbn [gets]. rewrite Hrun.
    destruct (contains "ETIMEDOUT" msg); repeat split; assumption.
Qed.

Lemma drain_reads_witness :
  (2 = length (_waitBuffer (pending_display [(CLICK, 2, 0%Z); (VOLTAGE, 1, 0%Z)])) ->
   exists w',
     drain (bench [(x00, x64); (x0c, xe4)] 100 [])
           (pending_display [(CLICK, 2, 0%Z); (VOLTAGE, 1, 0%Z)]) = (Ret tt, w') /\
     _inBuffer w'
       = _inBuffer (pending_display [(CLICK, 2, 0%Z); (VOLTAGE, 1, 0%Z)])
         ++ map (reading (bench [(x00, x64); (x0c, xe4)] 100 []))
                (seq (reads_tried (pending_display [(CLICK, 2, 0%Z); (VOLTAGE, 1, 0%Z)])) 2) /\
     reads_tried w'
       = reads_tried (pending_display [(CLICK, 2, 0%Z); (VOLTAGE, 1, 0%Z)]) + 2)
  /\
  (forall msg,
      2 < length (_waitBuffer (pending_display [(CLICK, 2, 0%Z); (VOLTAGE, 1, 0%Z)])) ->
      readfrom_reply (bench [(x00, x64); (x0c, xe4)] 100 [])
        (reads_tried (pending_display [(CLICK, 2, 0%Z); (VOLTAGE, 1, 0%Z)]) + 2)
        = BusError msg ->
      exists w',
        drain (bench [(x00, x64); (x0c, xe4)] 100 [])
              (pending_display [(CLICK, 2, 0%Z); (VOLTAGE, 1, 0%Z)])
          = (if contains "ETIMEDOUT" msg then Ret tt else Raise (OSError msg), w') /\
        _inBuffer w'
          = _inBuffer (pending_display [(CLICK, 2, 0%Z); (VOLTAGE, 1, 0%Z)])
            ++ map (reading (bench [(x00, x64); (x0c, xe4)] 100 []))
                   (seq (reads_tried (pending_display [(CLICK, 2, 0%Z); (VOLTAGE, 1, 0%Z)])) 2) /\
        reads_tried w'
          = reads_tried (pending_display [(CLICK, 2, 0%Z); (VOLTAGE, 1, 0%Z)]) + 2 + 1).
Proof.
  apply (drain_reads (bench [(x00, x64); (x0c, xe4)] 100 [])
           (pending_display [(CLICK, 2, 0%Z); (VOLTAGE, 1, 0%Z)]) 2).
  - intros j Hj. destruct j as [| [| j]]; [eexists; eexists; reflexivity .. | lia].
  - cbn. lia.
Defined.

(* ================================================================== *)
(** * What a poll does to the two queues *)
(* ================================================================== *)

(** X13: resynchronisation.  Whenever a poll returns normally and no
    request is pending afterwards, the raw-response queue is empty; in
    particular a poll with nothing pending does not touch the bus,
    returns no event, and throws away whatever raw values were left. *)
Theorem doCheck_resync :
  forall env w,
    (forall result w',
        doCheck env w = (Ret result, w') ->
        _waitBuffer w' = [] -> _inBuffer w' = [])
    /\ (_waitBuffer w = [] -> doCheck env w = (Ret [], set_inBuffer [] w)).
Proof.
  intros env w. split.
  - intros result w' Hrun Hempty.
    destruct (drain env w) as [[[] | e] w1] eqn:Hdrain.
    + rewrite (doCheck_after_drain env w w1 Hdrain) in Hrun.
      destruct (walk _ 0 [] env w1) as [[r | e] w2]; [| discriminate].
      injection Hrun as _ <-.
      destruct w2 as [a d p dbg [| x wq] iq nw nr nt t]; [reflexivity | discriminate].
    + rewrite (doCheck_drain_raises env w w1 e Hdrain) in Hrun. discriminate.
  - intros Hempty. destruct w as [a d p dbg wq iq nw nr nt t].
    cbn in Hempty. subst wq. reflexivity.
Qed.

Lemma doCheck_resync_witness :
  doCheck (bench [(x00, x07)] 100 []) (set_inBuffer [11; 12]%Z (__init__ 39))
    = (Ret [], set_inBuffer [] (set_inBuffer [11; 12]%Z (__init__ 39))).
Proof.
  apply (proj2 (doCheck_resync (bench [(x00, x07)] 100 [])
                  (set_inBuffer [11; 12]%Z (__init__ 39)))).
  reflexivity.
Defined.

(** The walk only ever shortens the two queues from the front, and adds
    at most one event per turn. *)
Lemma walk_suffix (fuel : nat) :
  forall i result env w,
    (exists k, _waitBuffer (snd (walk fuel i result env w)) = skipn k (_waitBuffer w)) /\
    (exists m, _inBuffer (snd (walk fuel i result env w)) = skipn m (_inBuffer w)) /\
    (forall r, fst (walk fuel i result env w) = Ret r -> length r <= length result + fuel).
Proof.
  induction fuel as [| fuel IH]; intros i result env w.
  - cbn. split; [exists 0; reflexivity |]. split; [exists 0; reflexivity |].
    intros r Hr. injection Hr as <-. lia.
  - rewrite walk_step.
    destruct w as [a d p dbg wq iq nw nr nt t].
    cbn [_waitBuffer _inBuffer ticks_read tick set_ticks_read].
    destruct (nth_error wq i) as [[[event_code argCount] timeStamp] |].
    2: { cbn. split; [exists 0; reflexivity |]. split; [exists 0; reflexivity |].
         intros r Hr. injection Hr as <-. lia. }
    destruct (2000 <? ticks env nt - timeStamp)%Z.
    + destruct (IH (S i) result env
                  (set_waitBuffer (tl wq) (mkWorld a d p dbg wq iq nw nr (S nt) t)))
        as ((k & Hk) & (m & Hm) & Hlen).
      cbn [set_waitBuffer _waitBuffer _inBuffer] in *.
      split; [exists (S k); rewrite Hk; destruct wq; [rewrite !skipn_nil |]; reflexivity |].
      split; [exists m; exact Hm |].
      intros r Hr. specialize (Hlen r Hr). lia.
    + destruct (length iq <? argCount).
      { cbn. split; [exists 0; reflexivity |]. split; [exists 0; reflexivity |].
        intros r Hr. injection Hr as <-. lia. }
      cbv zeta. cbn [set_inBuffer].
      destruct (process event_code (firstn argCount iq)) as [[ev |] | e].
      * destruct (IH (S i) (result ++ [ev]) env
                    (mkWorld a d p dbg wq (skipn argCount iq) nw nr (S nt) t))
          as ((k & Hk) & (m & Hm) & Hlen).
        cbn [_waitBuffer _inBuffer] in *.
        split; [exists k; exact Hk |].
        split; [exists (m + argCount); rewrite Hm, skipn_skipn; reflexivity |].
        intros r Hr. specialize (Hlen r Hr). rewrite length_app in Hlen. cbn in Hlen. lia.
      * destruct (IH (S i) result env
                    (mkWorld a d p dbg wq (skipn argCount iq) nw nr (S nt) t))
          as ((k & Hk) & (m & Hm) & Hlen).
        cbn [_waitBuffer _inBuffer] in *.
        split; [exists k; exact Hk |].
        split; [exists (m + argCount); rewrite Hm, skipn_skipn; reflexivity |].
        intros r Hr. specialize (Hlen r Hr). lia.
      * cbn. split; [exists 0; reflexivity |].
        split; [exists argCount; reflexivity |]. intros r Hr. discriminate.
Qed.

(** X14: a poll never adds to or reorders the pending queue: what is
    pending afterwards is what was pending before, less some of its first
    entries; and a poll returns at most one event per request that was
    pending. *)
Theorem doCheck_pending_suffix :
  forall env w,
    (exists k, _waitBuffer (snd (doCheck env w)) = skipn k (_waitBuffer w)) /\
    (forall result, fst (doCheck env w) = Ret result ->
                    length result <= length (_waitBuffer w)).
Proof.
  intros env w.
  destruct (drain_frame env w) as [Hq _].
  destruct (drain env w) as [[[] | e] w1] eqn:Hdrain; cbn [snd] in Hq.
  - rewrite (doCheck_after_drain env w w1 Hdrain).
    destruct (walk_suffix (length (_waitBuffer w1)) 0 [] env w1) as ((k & Hk) & _ & Hlen).
    rewrite Hq in Hk, Hlen |- *.
    destruct (walk _ 0 [] env w1) as [[r | e] w2]; cbn [fst snd] in *.
    + split.
      * exists k. destruct w2 as [a d p dbg [| x wq] iq nw nr nt t];
          cbn [_waitBuffer set_inBuffer] in *; exact Hk.
      * intros result Hr. injection Hr as <-. apply (Hlen r eq_refl).
    + split; [exists k; exact Hk | intros result Hr; discriminate].
  - rewrite (doCheck_drain_raises env w w1 e Hdrain). cbn [fst snd].
    split; [exists 0; exact Hq | intros result Hr; discriminate].
Qed.

(* ================================================================== *)
(** * The events of a poll *)
(* ================================================================== *)

Lemma process_kind (event_code : EventCode) (raws : list Z) (ev : Event) :
  process event_code raws = Ret (Some ev) -> fst ev = event_code.
Proof.
  destruct event_code, raws as [| a0 raws]; cbn [process]; try discriminate;
    try (destruct (1000 <? a0)%Z; try discriminate);
    intros Hev; injection Hev as <-; reflexivity.
Qed.

Lemma process_click (raws : list Z) (args : list num) :
  process CLICK raws = Ret (Some (CLICK, args)) ->
  exists a rest, raws = a :: rest /\ args = map Int raws /\ (a <= 1000)%Z.
Proof.
  destruct raws as [| a0 raws]; cbn [process]; [discriminate |].
  destruct (Z.ltb_spec 1000 a0) as [Hbig | Hle]; [discriminate |].
  intros Hev. injection Hev as <-. exists a0, raws. auto.
Qed.

Lemma walk_served (fuel : nat) :
  forall i result env w queue r,
    incl (_waitBuffer w) queue ->
    Forall (served_from queue) result ->
    fst (walk fuel i result env w) = Ret r ->
    Forall (served_from queue) r.
Proof.
  induction fuel as [| fuel IH]; intros i result env w queue r Hincl Hres Hrun.
  - cbn in Hrun. injection Hrun as <-. exact Hres.
  - rewrite walk_step in Hrun.
    destruct w as [a d p dbg wq iq nw nr nt t].
    cbn [_waitBuffer _inBuffer ticks_read tick set_ticks_read] in *.
    destruct (nth_error wq i) as [[[event_code argCount] timeStamp] |] eqn:Hi.
    2: { cbn in Hrun. injection Hrun as <-. exact Hres. }
    apply nth_error_In in Hi.
    destruct (2000 <? ticks env nt - timeStamp)%Z.
    + apply (IH _ _ _ _ queue r) in Hrun; [exact Hrun | | exact Hres].
      cbn [set_waitBuffer _waitBuffer]. intros e He. apply Hincl.
      destruct wq; [destruct He | right; exact He].
    + destruct (Nat.ltb_spec (length iq) argCount) as [Hfew | Henough].
      { cbn in Hrun. injection Hrun as <-. exact Hres. }
      cbv zeta in Hrun. cbn [set_inBuffer] in Hrun.
      destruct (process event_code (firstn argCount iq)) as [[ev |] | e] eqn:Hproc.
      * apply (IH _ _ _ _ queue r) in Hrun; [exact Hrun | exact Hincl |].
        apply Forall_app. split; [exact Hres |]. constructor; [| constructor].
        pose proof (process_kind _ _ _ Hproc) as Hkind.
        exists argCount, timeStamp, (firstn argCount iq).
        rewrite Hkind. split; [apply Hincl, Hi |].
        split; [rewrite length_firstn; lia | exact Hproc].
      * apply (IH _ _ _ _ queue r) in Hrun; [exact Hrun | exact Hincl | exact Hres].
      * discriminate.
Qed.

(** X15: every event a poll returns answers a request that was pending:
    it is the transform of that request's kind applied to exactly as many
    raw values as the request asks for.  In particular a click that is
    returned carries raw integers only, and its first value is at most
    1000. *)
Theorem doCheck_events_served :
  forall env w result,
    fst (doCheck env w) = Ret result ->
    Forall (served_from (_waitBuffer w)) result /\
    (forall args, In (CLICK, args) result ->
       exists a rest, args = Int a :: map Int rest /\ (a <= 1000)%Z).
Proof.
  intros env w result Hrun.
  assert (Hserved : Forall (served_from (_waitBuffer w)) result).
  { destruct (drain_frame env w) as [Hq _].
    destruct (drain env w) as [[[] | e] w1] eqn:Hdrain; cbn [snd] in Hq.
    - rewrite (doCheck_after_drain env w w1 Hdrain) in Hrun.
      pose proof (walk_served (length (_waitBuffer w1)) 0 [] env w1 (_waitBuffer w)) as Hwalk.
      destruct (walk _ 0 [] env w1) as [[r | e] w2]; cbn [fst] in *; [| discriminate].
      injection Hrun as <-. apply Hwalk; [| constructor | reflexivity].
      rewrite Hq. apply incl_refl.
    - rewrite (doCheck_drain_raises env w w1 e Hdrain) in Hrun. discriminate. }
  split; [exact Hserved |].
  intros args Hin. rewrite Forall_forall in Hserved.
  destruct (Hserved _ Hin) as (n & ts & raws & _ & _ & Hproc). cbn [fst] in Hproc.
  destruct (process_click raws args Hproc) as (a & rest & -> & -> & Hle).
  exists a, rest. auto.
Qed.

Lemma doCheck_events_served_witness :
  Forall (served_from (_waitBuffer (pending_display [(CLICK, 2, 0%Z); (VOLTAGE, 1, 50%Z)])))
         [(CLICK, [Int 340; Int 3300])]
  /\ (forall args, In (CLICK, args) [(CLICK, [Int 340; Int 3300])] ->
        exists a rest, args = Int a :: map Int rest /\ (a <= 1000)%Z).
Proof.
  apply (doCheck_events_served (bench [(x01, x54); (x0c, xe4)] 100 [])
           (pending_display [(CLICK, 2, 0%Z); (VOLTAGE, 1, 50%Z)])).
  reflexivity.
Defined.

(* ================================================================== *)
(** * Waiting for the device *)
(* ================================================================== *)

(** One turn of the loop of [waitUntilReady] when the bus refuses the
    zero byte. *)
Lemma waitUntilReady_turn_refused (fuel : nat) (timeOut t : Z) (env : Env) (w : World)
      (msg : string) :
  writeto_reply env (writes_tried w) = Some msg ->
  waitUntilReady_loop (S fuel) timeOut t env w =
    let w1 := set_writes_tried (S (writes_tried w)) w in
    if negb (contains "ENODEV" msg) then (Raise (OSError msg), w1)
    else if (0 <? timeOut)%Z then
      if (timeOut <? ticks env (ticks_read w) - t)%Z
      then (Raise (OSError "ETIMEOUT"), tick w1)
      else waitUntilReady_loop fuel timeOut t env (tick w1)
    else waitUntilReady_loop fuel timeOut t env w1.
Proof.
  intros Hreply. cbn [waitUntilReady_loop]. unfold try_except_OSError.
  unfold _write. cbn [_write_depth length Nat.ltb Nat.leb].
  unfold bind at 1. rewrite (transmit_refused env [x00] w msg Hreply). cbv zeta.
  destruct (negb (contains "ENODEV" msg)); [reflexivity |].
  destruct (0 <? timeOut)%Z; [| reflexivity].
  destruct w as [a d p dbg wq iq nw nr nt tr].
  unfold bind at 1. cbn [getDeltaTime Z.ltb Z.compare]. unfold bind at 1.
  cbn [getTicks_ms ret ticks_read set_ticks_read set_writes_tried writes_tried tick].
  destruct (timeOut <? ticks env nt - t)%Z; reflexivity.
Qed.

(** One turn when the bus takes the zero byte. *)
Lemma waitUntilReady_turn_accepted (fuel : nat) (timeOut t : Z) (env : Env) (w : World) :
  writeto_reply env (writes_tried w) = None ->
  exists w',
    waitUntilReady_loop (S fuel) timeOut t env w = (Ret (Some tt), w') /\
    writes_tried w' = S (writes_tried w) /\
    bus_writes (trace w') = bus_writes (trace w) ++ [[x00]].
Proof.
  intros Hreply. cbn [waitUntilReady_loop]. unfold try_except_OSError.
  unfold _write. cbn [_write_depth length Nat.ltb Nat.leb].
  destruct (transmit_accepted env [x00] w Hreply) as (w' & Hrun & Hn & Hio & _).
  rewrite (bind_run _ Hrun). exists w'. split; [reflexivity |]. split; [exact Hn |].
  rewrite <- (bus_writes_io_events (trace w')), Hio, bus_writes_app,
    bus_writes_io_events. reflexivity.
Qed.

(** [k] refusals that name ENODEV, each seen in time, cost [k] turns and
    change nothing but the counters. *)
Lemma waitUntilReady_loop_retries (env : Env) (timeOut t : Z) :
  forall k fuel w,
    (forall j, j < k -> absent env (writes_tried w + j)) ->
    ((0 < timeOut)%Z ->
     forall j, j < k -> (ticks env (ticks_read w + j) - t <= timeOut)%Z) ->
    waitUntilReady_loop (k + fuel) timeOut t env w
      = waitUntilReady_loop fuel timeOut t env (retried timeOut k w).
Proof.
  induction k as [| k IH]; intros fuel w Habsent Hintime.
  - destruct w as [a d p dbg wq iq nw nr nt tr]. unfold retried.
    cbn [writes_tried ticks_read set_ticks_read set_writes_tried].
    rewrite !Nat.add_0_r. destruct (0 <? timeOut)%Z; reflexivity.
  - destruct (Habsent 0 ltac:(lia)) as (msg & Hreply & Hnodev).
    rewrite Nat.add_0_r in Hreply.
    cbn [Nat.add]. rewrite (waitUntilReady_turn_refused _ _ _ _ _ msg Hreply).
    cbv zeta. rewrite Hnodev. cbn [negb].
    destruct w as [a d p dbg wq iq nw nr nt tr].
    cbn [writes_tried ticks_read set_ticks_read set_writes_tried tick] in *.
    destruct (Z.ltb_spec 0 timeOut) as [Hpos | Hnone].
    + pose proof (Hintime Hpos 0 ltac:(lia)) as H0. rewrite Nat.add_0_r in H0.
      destruct (Z.ltb_spec timeOut (ticks env nt - t)); [lia |].
      rewrite IH.
      * unfold retried.
        cbn [writes_tried ticks_read set_ticks_read set_writes_tried].
        destruct (Z.ltb_spec 0 timeOut); [| lia].
        replace (S nw + k) with (nw + S k) by lia.
        replace (S nt + k) with (nt + S k) by lia. reflexivity.
      * cbn [writes_tried]. intros j Hj.
        replace (S nw + j) with (nw + S j) by lia. apply Habsent. lia.
      * cbn [ticks_read]. intros _ j Hj.
        replace (S nt + j) with (nt + S j) by lia. apply (Hintime Hpos). lia.
    + rewrite IH.
      * unfold retried.
        cbn [writes_tried ticks_read set_ticks_read set_writes_tried].
        destruct (Z.ltb_spec 0 timeOut); [lia |].
        replace (S nw + k) with (nw + S k) by lia. reflexivity.
      * cbn [writes_tried]. intros j Hj.
        replace (S nw + j) with (nw + S j) by lia. apply Habsent. lia.
      * intros Hpos. lia.
Qed.

(** [waitUntilReady] reads the clock once and enters the loop. *)
Lemma waitUntilReady_start (fuel : nat) (timeOut : Z) (env : Env) (w : World) :
  waitUntilReady fuel timeOut env w
    = waitUntilReady_loop fuel timeOut (ticks env (ticks_read w)) env (tick w).
Proof. reflexivity. Qed.

Lemma retried_tick (timeOut : Z) (k : nat) (w : World) :
  writes_tried (retried timeOut k (tick w)) = writes_tried w + k /\
  ticks_read (retried timeOut k (tick w))
    = (if (0 <? timeOut)%Z then S (ticks_read w + k) else S (ticks_read w)) /\
  trace (retried timeOut k (tick w)) = trace w.
Proof.
  destruct w as [a d p dbg wq iq nw nr nt tr]. unfold retried, tick.
  cbn [writes_tried ticks_read set_ticks_read set_writes_tried trace].
  destruct (0 <? timeOut)%Z; repeat split.
Qed.

(** X16: [waitUntilReady] returns as soon as the bus takes the zero
    byte.  When the first [k] attempts are refused with an error that
    names ENODEV and the next one is accepted (and, with a positive
    [timeOut], each refusal is seen no later than [timeOut] ms after the
    call began), the call returns after [k + 1] attempts, and the only
    thing the bus has received is one write of a single zero byte. *)
Theorem waitUntilReady_returns :
  forall env w timeOut k fuel,
    (forall j, j < k -> absent env (writes_tried w + j)) ->
    writeto_reply env (writes_tried w + k) = None ->
    ((0 < timeOut)%Z ->
     forall j, j < k ->
       (ticks env (S (ticks_read w + j)) - ticks env (ticks_read w) <= timeOut)%Z) ->
    k < fuel ->
    exists w',
      waitUntilReady fuel timeOut env w = (Ret (Some tt), w') /\
      writes_tried w' = writes_tried w + k + 1 /\
      bus_writes (trace w') = bus_writes (trace w) ++ [[x00]].
Proof.
  intros env w timeOut k fuel Habsent Haccept Hintime Hfuel.
  rewrite waitUntilReady_start.
  replace fuel with (k + S (fuel - S k)) by lia.
  destruct (retried_tick timeOut k w) as (Hn & _ & Htrace).
  rewrite waitUntilReady_loop_retries.
  - destruct (waitUntilReady_turn_accepted (fuel - S k) timeOut
                (ticks env (ticks_read w)) env (retried timeOut k (tick w)))
      as (w' & Hrun & Hn' & Hbus); [rewrite Hn; exact Haccept |].
    exists w'. split; [exact Hrun |]. rewrite Hn', Hbus, Hn, Htrace.
    split; [lia | reflexivity].
  - destruct w as [a d p dbg wq iq nw nr nt tr]. exact Habsent.
  - destruct w as [a d p dbg wq iq nw nr nt tr]. exact Hintime.
Qed.

Lemma waitUntilReady_returns_witness :
  exists w',
    waitUntilReady 3 500 (waking 2 60) (__init__ 39) = (Ret (Some tt), w') /\
    writes_tried w' = writes_tried (__init__ 39) + 2 + 1 /\
    bus_writes (trace w') = bus_writes (trace (__init__ 39)) ++ [[x00]].
Proof.
  apply (waitUntilReady_returns (waking 2 60) (__init__ 39) 500 2 3).
  - intros j Hj. exists "[Errno 19] ENODEV"%string.
    destruct j as [| [| j]]; [split; reflexivity | split; reflexivity | lia].
  - reflexivity.
  - intros _ j Hj. destruct j as [| [| j]]; [cbn; lia | cbn; lia | lia].
  - lia.
Defined.

(** X17: the time-out.  With a positive [timeOut], while the display
    stays absent the call raises [OSError("ETIMEOUT")] at the first
    refusal that is seen more than [timeOut] ms after the call began: the
    clock is only looked at after a refused attempt.  Nothing has been
    written to the bus. *)
Theorem waitUntilReady_times_out :
  forall env w timeOut k fuel,
    (0 < timeOut)%Z ->
    (forall j, j <= k -> absent env (writes_tried w + j)) ->
    (forall j, j < k ->
       (ticks env (S (ticks_read w + j)) - ticks env (ticks_read w) <= timeOut)%Z) ->
    (timeOut < ticks env (S (ticks_read w + k)) - ticks env (ticks_read w))%Z ->
    k < fuel ->
    exists w',
      waitUntilReady fuel timeOut env w = (Raise (OSError "ETIMEOUT"), w') /\
      writes_tried w' = writes_tried w + k + 1 /\
      bus_writes (trace w') = bus_writes (trace w).
Proof.
  intros env w timeOut k fuel Hpos Habsent Hintime Hlate Hfuel.
  rewrite waitUntilReady_start.
  replace fuel with (k + S (fuel - S k)) by lia.
  destruct (retried_tick timeOut k w) as (Hn & Hnt & Htrace).
  rewrite waitUntilReady_loop_retries.
  - destruct (Habsent k (le_n k)) as (msg & Hreply & Hnodev).
    rewrite <- Hn in Hreply.
    rewrite (waitUntilReady_turn_refused _ _ _ _ _ msg Hreply). cbv zeta.
    rewrite Hnodev. cbn [negb].
    destruct (Z.ltb_spec 0 timeOut); [| lia].
    rewrite Hnt.
    destruct (Z.ltb_spec timeOut (ticks env (S (ticks_read w + k)) - ticks env (ticks_read w)));
      [| lia].
    eexists. split; [reflexivity |].
    destruct w as [a d p dbg wq iq nw nr nt tr]. unfold retried, tick. cbn.
    split; [lia | reflexivity].
  - destruct w as [a d p dbg wq iq nw nr nt tr]. intros j Hj. apply Habsent. lia.
  - destruct w as [a d p dbg wq iq nw nr nt tr]. intros _. exact Hintime.
Qed.

Lemma waitUntilReady_times_out_witness :
  exists w',
    waitUntilReady 3 100 (waking 5 60) (__init__ 39) = (Raise (OSError "ETIMEOUT"), w') /\
    writes_tried w' = writes_tried (__init__ 39) + 1 + 1 /\
    bus_writes (trace w') = bus_writes (trace (__init__ 39)).
Proof.
  apply (waitUntilReady_times_out (waking 5 60) (__init__ 39) 100 1 3).
  - lia.
  - intros j Hj. exists "[Errno 19] ENODEV"%string.
    destruct j as [| [| j]]; [split; reflexivity | split; reflexivity | lia].
  - intros j Hj. destruct j as [| j]; [cbn; lia | lia].
  - cbn. lia.
  - lia.
Defined.

(** X18: only ENODEV is waited for.  A refusal whose text does not
    contain ENODEV ends the call at once with that very error, whatever
    the time-out. *)
Theorem waitUntilReady_other_error :
  forall env w timeOut k fuel msg,
    (forall j, j < k -> absent env (writes_tried w + j)) ->
    writeto_reply env (writes_tried w + k) = Some msg ->
    contains "ENODEV" msg = false ->
    ((0 < timeOut)%Z ->
     forall j, j < k ->
       (ticks env (S (ticks_read w + j)) - ticks env (ticks_read w) <= timeOut)%Z) ->
    k < fuel ->
    exists w',
      waitUntilReady fuel timeOut env w = (Raise (OSError msg), w') /\
      writes_tried w' = writes_tried w + k + 1 /\
      bus_writes (trace w') = bus_writes (trace w).
Proof.
  intros env w timeOut k fuel msg Habsent Hreply Hother Hintime Hfuel.
  rewrite waitUntilReady_start.
  replace fuel with (k + S (fuel - S k)) by lia.
  destruct (retried_tick timeOut k w) as (Hn & _ & Htrace).
  rewrite waitUntilReady_loop_retries.
  - rewrite <- Hn in Hreply.
    rewrite (waitUntilReady_turn_refused _ _ _ _ _ msg Hreply). cbv zeta.
    rewrite Hother. cbn [negb].
    eexists. split; [reflexivity |].
    destruct w as [a d p dbg wq iq nw nr nt tr]. unfold retried, tick. cbn.
    split; [lia | reflexivity].
  - destruct w as [a d p dbg wq iq nw nr nt tr]. exact Habsent.
  - destruct w as [a d p dbg wq iq nw nr nt tr]. exact Hintime.
Qed.

Lemma waitUntilReady_other_error_witness :
  exists w',
    waitUntilReady 3 (-1)
      (mkEnv (fun k => if k <? 1 then Some "[Errno 19] ENODEV"%string
                       else Some "[Errno 5] EIO"%string)
             (fun _ => BusError "[Errno 110] ETIMEDOUT") (fun _ => 0%Z) (fun _ => None))
      (__init__ 39)
      = (Raise (OSError "[Errno 5] EIO"), w') /\
    writes_tried w' = writes_tried (__init__ 39) + 1 + 1 /\
    bus_writes (trace w') = bus_writes (trace (__init__ 39)).
Proof.
  apply (waitUntilReady_other_error
           (mkEnv (fun k => if k <? 1 then Some "[Errno 19] ENODEV"%string
                            else Some "[Errno 5] EIO"%string)
                  (fun _ => BusError "[Errno 110] ETIMEDOUT") (fun _ => 0%Z) (fun _ => None))
           (__init__ 39) (-1)%Z 1 3 "[Errno 5] EIO").
  - intros j Hj. exists "[Errno 19] ENODEV"%string.
    destruct j as [| j]; [split; reflexivity | lia].
  - reflexivity.
  - reflexivity.
  - intros Hpos. lia.
  - lia.
Defined.

(** X19: without a time-out the call never gives up.  With [timeOut] zero
    or negative (the default is -1) and a display that stays absent, the
    loop is still retrying after any number of attempts: every one of
    them was a refused write, and the call has neither returned nor
    raised. *)
Theorem waitUntilReady_never_gives_up :
  forall env w timeOut,
    (timeOut <= 0)%Z ->
    (forall j, absent env (writes_tried w + j)) ->
    forall fuel,
      exists w',
        waitUntilReady fuel timeOut env w = (Ret None, w') /\
        writes_tried w' = writes_tried w + fuel /\
        bus_writes (trace w') = bus_writes (trace w).
Proof.
  intros env w timeOut Hnone Habsent fuel.
  rewrite waitUntilReady_start.
  destruct (retried_tick timeOut fuel w) as (Hn & _ & Htrace).
  pose proof (waitUntilReady_loop_retries env timeOut (ticks env (ticks_read w))
                fuel 0 (tick w)) as Hskip.
  rewrite Nat.add_0_r in Hskip. rewrite Hskip.
  - eexists. split; [reflexivity |]. rewrite Hn, Htrace. split; reflexivity.
  - destruct w as [a d p dbg wq iq nw nr nt tr]. intros j _. apply Habsent.
  - intros Hpos. lia.
Qed.

Lemma waitUntilReady_never_gives_up_witness :
  exists w',
    waitUntilReady 50 (-1)
      (mkEnv (fun _ => Some "[Errno 19] ENODEV"%string)
             (fun _ => BusError "[Errno 110] ETIMEDOUT") (fun _ => 0%Z) (fun _ => None))
      (__init__ 39)
      = (Ret None, w') /\
    writes_tried w' = writes_tried (__init__ 39) + 50 /\
    bus_writes (trace w') = bus_writes (trace (__init__ 39)).
Proof.
  apply (waitUntilReady_never_gives_up
           (mkEnv (fun _ => Some "[Errno 19] ENODEV"%string)
                  (fun _ => BusError "[Errno 110] ETIMEDOUT") (fun _ => 0%Z) (fun _ => None))
           (__init__ 39) (-1)%Z).
  - lia.
  - intros j. exists "[Errno 19] ENODEV"%string. split; reflexivity.
Defined.

(* ================================================================== *)
(** * Registering a request *)
(* ================================================================== *)

(** A bus write leaves the two queues and the clock alone. *)
Lemma transmit_queues (v : bytes) (env : Env) (w : World) :
  _waitBuffer (snd (transmit v env w)) = _waitBuffer w /\
  _inBuffer (snd (transmit v env w)) = _inBuffer w /\
  ticks_read (snd (transmit v env w)) = ticks_read w.
Proof.
  apply (keeps_transmit
           (fun w' => _waitBuffer w' = _waitBuffer w /\ _inBuffer w' = _inBuffer w /\
                      ticks_read w' = ticks_read w));
    try (intros ? [? ? ? ? ? ? ? ? ? ?] H; exact H).
  - intros s v' [? ? ? ? ? ? ? ? ? ?] _ H. exact H.
  - repeat split.
Qed.

(** A read command of at most 64 bytes followed by the registration of
    its answer. *)
Lemma request_run (command : bytes) (kind : EventCode) (argCount : nat)
      (env : Env) (w : World) :
  length command <= 64 ->
  match writeto_reply env (writes_tried w) with
  | None =>
      exists w',
        (_sendCommand command [] ;; waitBuffer_append kind argCount) env w = (Ret tt, w') /\
        bus_writes (trace w') = bus_writes (trace w) ++ [command] /\
        _waitBuffer w' = _waitBuffer w ++ [(kind, argCount, ticks env (ticks_read w))] /\
        _inBuffer w' = _inBuffer w /\
        ticks_read w' = S (ticks_read w)
  | Some msg =>
      exists w',
        (_sendCommand command [] ;; waitBuffer_append kind argCount) env w
          = (Raise (OSError msg), w') /\
        bus_writes (trace w') = bus_writes (trace w) /\
        _waitBuffer w' = _waitBuffer w /\
        _inBuffer w' = _inBuffer w /\
        ticks_read w' = ticks_read w
  end.
Proof.
  intros Hshort.
  assert (Hsend : _sendCommand command [] env w = transmit command env w).
  { unfold _sendCommand. cbn [append_args]. unfold bind at 1, lift.
    unfold _write. cbn [_write_depth].
    destruct (Nat.ltb_spec 64 (length command)); [lia | reflexivity]. }
  pose proof (transmit_queues command env w) as (Hwq & Hiq & Hnt).
  destruct (writeto_reply env (writes_tried w)) as [msg |] eqn:Hreply.
  - unfold bind at 1. rewrite Hsend.
    rewrite (transmit_refused env command w msg Hreply) in Hwq, Hiq, Hnt |- *.
    eexists. split; [reflexivity |]. cbn [snd] in *.
    split; [| repeat split; assumption].
    destruct w as [a d p dbg wq iq nw nr nt t]. reflexivity.
  - destruct (transmit_accepted env command w Hreply) as (w1 & Hrun & _ & Hio & _).
    rewrite Hrun in Hwq, Hiq, Hnt. cbn [snd] in *.
    rewrite <- Hsend in Hrun. rewrite (bind_run _ Hrun).
    assert (Hbus : bus_writes (trace w1) = bus_writes (trace w) ++ [command]).
    { rewrite <- (bus_writes_io_events (trace w1)), Hio, bus_writes_app,
        bus_writes_io_events. reflexivity. }
    destruct w1 as [a1 d1 p1 dbg1 wq1 iq1 nw1 nr1 nt1 t1].
    cbn [_waitBuffer _inBuffer ticks_read trace] in *. subst wq1 iq1 nt1.
    eexists. split; [reflexivity |]. cbn. repeat split. exact Hbus.
Qed.

(** X20: each of the six read methods sends its opcode in one bus write
    and then registers one pending request of its kind and arity (two
    values for the three touch-screen requests, one for the others),
    stamped with the reading of the clock taken after the write.  When
    the bus refuses the write the method raises the bus error and
    registers nothing, so no later poll waits for an answer to a command
    that never went out. *)
Theorem read_request_registers :
  forall env w method opcode kind argCount,
    In (method, opcode, kind, argCount) read_requests ->
    match writeto_reply env (writes_tried w) with
    | None =>
        exists w',
          method env w = (Ret tt, w') /\
          bus_writes (trace w') = bus_writes (trace w) ++ [b_lit opcode] /\
          _waitBuffer w' = _waitBuffer w ++ [(kind, argCount, ticks env (ticks_read w))] /\
          _inBuffer w' = _inBuffer w /\
          ticks_read w' = S (ticks_read w)
    | Some msg =>
        exists w',
          method env w = (Raise (OSError msg), w') /\
          bus_writes (trace w') = bus_writes (trace w) /\
          _waitBuffer w' = _waitBuffer w /\
          _inBuffer w' = _inBuffer w /\
          ticks_read w' = ticks_read w
    end.
Proof.
  intros env w method opcode kind argCount Hin.
  unfold read_requests in Hin. cbn [In] in Hin.
  repeat (destruct Hin as [Hin | Hin];
          [injection Hin as <- <- <- <-;
           apply (request_run _ _ _ env w); cbn; lia |]).
  destruct Hin.
Qed.

Lemma read_request_registers_witness :
  exists w',
    readAnalog (bench [] 5000 []) (pending_display [(CLICK, 2, 4000%Z)]) = (Ret tt, w') /\
    bus_writes (trace w')
      = bus_writes (trace (pending_display [(CLICK, 2, 4000%Z)])) ++ [b_lit "RDAUX"] /\
    _waitBuffer w'
      = _waitBuffer (pending_display [(CLICK, 2, 4000%Z)])
          ++ [(ANALOG, 1,
               ticks (bench [] 5000 []) (ticks_read (pending_display [(CLICK, 2, 4000%Z)])))] /\
    _inBuffer w' = _inBuffer (pending_display [(CLICK, 2, 4000%Z)]) /\
    ticks_read w' = S (ticks_read (pending_display [(CLICK, 2, 4000%Z)])).
Proof.
  apply (read_request_registers (bench [] 5000 []) (pending_display [(CLICK, 2, 4000%Z)])
           readAnalog "RDAUX" ANALOG 1).
  right. left. reflexivity.
Defined.

(* ================================================================== *)
(** * Which requests a poll drops *)
(* ================================================================== *)

Lemma issue_ordered_tl (x : Pending) (queue : list Pending) :
  issue_ordered (x :: queue) -> issue_ordered queue.
Proof.
  intros Hord i j c1 n1 t1 c2 n2 t2 Hij Hi Hj.
  apply (Hord (S i) (S j) c1 n1 t1 c2 n2 t2); [lia | exact Hi | exact Hj].
Qed.

(** The walk only ever reads the clock forward. *)
Lemma walk_clock (fuel : nat) :
  forall i result env w, ticks_read w <= ticks_read (snd (walk fuel i result env w)).
Proof.
  induction fuel as [| fuel IH]; intros i result env w; [apply le_n |].
  rewrite walk_step.
  destruct (nth_error (_waitBuffer w) i) as [[[event_code argCount] timeStamp] |];
    [| apply le_n].
  assert (Htick : forall w0 : World, ticks_read w <= ticks_read w0 ->
                                     ticks_read w <= ticks_read w0) by auto.
  destruct (2000 <? ticks env (ticks_read w) - timeStamp)%Z.
  - etransitivity; [| apply IH].
    destruct w as [a d p dbg wq iq nw nr nt t]. cbn. lia.
  - destruct (length (_inBuffer w) <? argCount).
    + destruct w as [a d p dbg wq iq nw nr nt t]. cbn. lia.
    + cbv zeta.
      destruct (process event_code (firstn argCount (_inBuffer w))) as [[ev |] | e];
        try (etransitivity; [| apply IH]);
        destruct w as [a d p dbg wq iq nw nr nt t]; cbn; lia.
Qed.

Lemma seen_expired_widen (env : Env) (lo lo' hi hi' : nat) (queue : list Pending) :
  lo' <= lo -> hi <= hi' ->
  Forall (seen_expired env lo hi) queue -> Forall (seen_expired env lo' hi') queue.
Proof.
  intros Hlo Hhi. apply Forall_impl. intros entry (k & Hk & Hold).
  exists k. split; [lia | exact Hold].
Qed.

(** The walk removes the head of the queue when the entry under the
    iterator is expired.  The two need not be the same entry, but in a
    queue that stands in issue order the head is the older one. *)
Lemma walk_drops (fuel : nat) :
  forall i result env w,
    issue_ordered (_waitBuffer w) ->
    exists d,
      _waitBuffer (snd (walk fuel i result env w)) = skipn d (_waitBuffer w) /\
      Forall (seen_expired env (ticks_read w) (ticks_read (snd (walk fuel i result env w))))
             (firstn d (_waitBuffer w)).
Proof.
  induction fuel as [| fuel IH]; intros i result env w Hord.
  - exists 0. split; [reflexivity | constructor].
  - pose proof (walk_clock fuel) as Hclock.
    rewrite walk_step.
    destruct (nth_error (_waitBuffer w) i) as [[[event_code argCount] timeStamp] |] eqn:Hi;
      [| exists 0; split; [reflexivity | constructor]].
    destruct (Z.ltb_spec 2000 (ticks env (ticks_read w) - timeStamp)) as [Hstale | Hfresh].
    + destruct w as [a d p dbg wq iq nw nr nt t].
      cbn [_waitBuffer _inBuffer ticks_read tick set_ticks_read set_waitBuffer tl] in *.
      destruct wq as [| [[cx nx] tx] wq]; [destruct i; discriminate |]. cbn [tl].
      set (w' := mkWorld a d p dbg wq iq nw nr (S nt) t).
      destruct (IH (S i) result env w' (issue_ordered_tl _ _ Hord)) as (d' & Hq & Hseen).
      specialize (Hclock (S i) result env w').
      exists (S d'). split; [exact Hq |]. cbn [firstn]. constructor.
      * exists nt. split; [unfold w' in Hclock |- *; cbn [ticks_read] in Hclock; lia |].
        cbn [snd].
        assert (tx <= timeStamp)%Z
          by (apply (Hord 0 i cx nx tx event_code argCount timeStamp);
              [lia | reflexivity | exact Hi]).
        lia.
      * refine (seen_expired_widen env _ _ _ _ _ _ _ Hseen); [cbn; lia | apply le_n].
    + destruct (length (_inBuffer w) <? argCount);
        [exists 0; split; [destruct w; reflexivity | constructor] |].
      cbv zeta.
      assert (Hnext : forall result' iq',
                 exists d,
                   _waitBuffer (snd (walk fuel (S i) result' env (set_inBuffer iq' (tick w))))
                     = skipn d (_waitBuffer w) /\
                   Forall (seen_expired env (ticks_read w)
                             (ticks_read (snd (walk fuel (S i) result' env
                                                 (set_inBuffer iq' (tick w))))))
                          (firstn d (_waitBuffer w))).
      { intros result' iq'.
        destruct w as [a d p dbg wq iq nw nr nt t].
        cbn [_waitBuffer _inBuffer ticks_read tick set_ticks_read set_inBuffer] in *.
        set (w' := mkWorld a d p dbg wq iq' nw nr (S nt) t).
        destruct (IH (S i) result' env w' Hord) as (d' & Hq & Hseen).
        exists d'. split; [exact Hq |].
        refine (seen_expired_widen env _ _ _ _ _ _ _ Hseen); [cbn; lia | apply le_n]. }
      destruct (process event_code (firstn argCount (_inBuffer w))) as [[ev |] | e];
        [apply Hnext | apply Hnext |].
      exists 0. split; [destruct w; reflexivity | constructor].
Qed.

(** X21: a poll drops only expired requests.  When the pending requests
    stand in the order they were issued, the requests a poll removes are
    a prefix of the queue, and each of them was older than 2000 ms at a
    reading of the clock taken during that poll.  (The entry [pop(0)]
    removes is the head of the queue, not the entry whose age was just
    tested; the order of the queue is what makes the two agree.) *)
Theorem doCheck_drops_only_expired :
  forall env w,
    issue_ordered (_waitBuffer w) ->
    exists d,
      _waitBuffer (snd (doCheck env w)) = skipn d (_waitBuffer w) /\
      Forall (seen_expired env (ticks_read w) (ticks_read (snd (doCheck env w))))
             (firstn d (_waitBuffer w)).
Proof.
  intros env w Hord.
  destruct (drain_frame env w) as [Hqueue Hclock].
  destruct (drain env w) as [[[] | e] w1] eqn:Hdrain; cbn [snd] in Hqueue, Hclock.
  - rewrite (doCheck_after_drain env w w1 Hdrain).
    rewrite <- Hqueue in Hord.
    destruct (walk_drops (length (_waitBuffer w1)) 0 [] env w1 Hord) as (d & Hq & Hseen).
    rewrite Hqueue in Hq |- *. rewrite Hqueue, Hclock in Hseen.
    exists d.
    destruct (walk _ 0 [] env w1) as [[result | e] w2]; cbn [snd] in *;
      [| split; assumption].
    destruct w2 as [a2 d2 p2 dbg2 [| x wq2] iq2 nw2 nr2 nt2 t2]; split; assumption.
  - rewrite (doCheck_drain_raises env w w1 e Hdrain). cbn [snd].
    exists 0. split; [exact Hqueue | constructor].
Qed.

Lemma doCheck_drops_only_expired_witness :
  exists d,
    _waitBuffer (snd (doCheck (bench [] 5000 [])
                        (pending_display [(CLICK, 2, 0%Z); (ANALOG, 1, 100%Z)])))
      = skipn d (_waitBuffer (pending_display [(CLICK, 2, 0%Z); (ANALOG, 1, 100%Z)])) /\
    Forall (seen_expired (bench [] 5000 [])
              (ticks_read (pending_display [(CLICK, 2, 0%Z); (ANALOG, 1, 100%Z)]))
              (ticks_read (snd (doCheck (bench [] 5000 [])
                                  (pending_display [(CLICK, 2, 0%Z); (ANALOG, 1, 100%Z)])))))
           (firstn d (_waitBuffer (pending_display [(CLICK, 2, 0%Z); (ANALOG, 1, 100%Z)]))).
Proof.
  apply (doCheck_drops_only_expired (bench [] 5000 [])
           (pending_display [(CLICK, 2, 0%Z); (ANALOG, 1, 100%Z)])).
  intros i j c1 n1 t1 c2 n2 t2 Hij Hi Hj.
  destruct i as [| [| i]]; destruct j as [| [| j]]; cbn in Hi, Hj;
    try (destruct i; discriminate); try (destruct j; discriminate); try lia;
    injection Hi as _ _ <-; injection Hj as _ _ <-; lia.
Defined.

(** ** The queue of every reachable state *)

Lemma stamped_skipn (env : Env) (w w' : World) (d : nat) :
  _waitBuffer w' = skipn d (_waitBuffer w) ->
  ticks_read w <= ticks_read w' ->
  stamped env w -> stamped env w'.
Proof.
  intros Hq Hclock [Hord Hstamp]. unfold stamped. rewrite Hq. split.
  - intros i j c1 n1 t1 c2 n2 t2 Hij Hi Hj.
    rewrite nth_error_skipn in Hi, Hj.
    apply (Hord (d + i) (d + j) c1 n1 t1 c2 n2 t2); [lia | exact Hi | exact Hj].
  - rewrite <- (firstn_skipn d (_waitBuffer w)) in Hstamp.
    apply Forall_app in Hstamp as [_ Hstamp].
    revert Hstamp. apply Forall_impl. intros entry (k & Hk & Hts).
    exists k. split; [lia | exact Hts].
Qed.

Lemma stamped_frame (env : Env) (w w' : World) :
  _waitBuffer w' = _waitBuffer w ->
  ticks_read w' = ticks_read w ->
  stamped env w -> stamped env w'.
Proof.
  intros Hq Hclock. apply (stamped_skipn env w w' 0); [exact Hq | lia].
Qed.

Lemma stamped_append (env : Env) (w w' : World) (kind : EventCode) (argCount : nat) :
  monotone_clock env ->
  _waitBuffer w' = _waitBuffer w ++ [(kind, argCount, ticks env (ticks_read w))] ->
  ticks_read w' = S (ticks_read w) ->
  stamped env w -> stamped env w'.
Proof.
  intros Hmono Hq Hclock [Hord Hstamp]. unfold stamped. rewrite Hq, Hclock. split.
  - intros i j c1 n1 t1 c2 n2 t2 Hij Hi Hj.
    destruct (Nat.lt_ge_cases j (length (_waitBuffer w))) as [Hin | Hout].
    + rewrite nth_error_app1 in Hi, Hj by lia.
      apply (Hord i j c1 n1 t1 c2 n2 t2); assumption.
    + rewrite nth_error_app2 in Hj by exact Hout.
      destruct (j - length (_waitBuffer w)) as [| [| m]]; try discriminate.
      injection Hj as _ _ <-.
      destruct (Nat.lt_ge_cases i (length (_waitBuffer w))) as [Hin' | Hout'].
      * rewrite nth_error_app1 in Hi by exact Hin'.
        apply nth_error_In in Hi.
        rewrite Forall_forall in Hstamp.
        destruct (Hstamp _ Hi) as (k & Hk & Hts). cbn [snd] in Hts. subst t1.
        apply Hmono. lia.
      * rewrite nth_error_app2 in Hi by exact Hout'.
        destruct (i - length (_waitBuffer w)) as [| [| m]]; try discriminate.
        injection Hi as _ _ <-. lia.
  - apply Forall_app. split.
    + revert Hstamp. apply Forall_impl. intros entry (k & Hk & Hts).
      exists k. split; [lia | exact Hts].
    + constructor; [| constructor]. exists (ticks_read w). split; [lia | reflexivity].
Qed.

(** A poll shortens the pending queue from the front and reads the clock
    forward. *)
Lemma doCheck_queue_clock (env : Env) (w : World) :
  exists d,
    _waitBuffer (snd (doCheck env w)) = skipn d (_waitBuffer w) /\
    ticks_read w <= ticks_read (snd (doCheck env w)).
Proof.
  destruct (drain_frame env w) as [Hqueue Hclock].
  destruct (drain env w) as [[[] | e] w1] eqn:Hdrain; cbn [snd] in Hqueue, Hclock.
  - rewrite (doCheck_after_drain env w w1 Hdrain).
    destruct (walk_suffix (length (_waitBuffer w1)) 0 [] env w1) as ((d & Hq) & _).
    pose proof (walk_clock (length (_waitBuffer w1)) 0 [] env w1) as Hticks.
    exists d. rewrite <- Hqueue, <- Hclock.
    destruct (walk _ 0 [] env w1) as [[result | e] w2]; cbn [snd] in *;
      [| split; assumption].
    destruct w2 as [a2 d2 p2 dbg2 [| x wq2] iq2 nw2 nr2 nt2 t2]; split; assumption.
  - rewrite (doCheck_drain_raises env w w1 e Hdrain). cbn [snd].
    exists 0. split; [exact Hqueue | lia].
Qed.

Ltac stamped_frame_step :=
  first
    [ intros ? [? ? ? ? ? ? ? ? ? ?] H; exact H
    | intros ? ? [? ? ? ? ? ? ? ? ? ?] ? H; exact H
    | split; reflexivity ].

(** X22: on a clock that does not run backwards, in every state the
    driver can be brought to from a fresh display the pending requests
    stand in the order they were issued (their time stamps do not
    decrease), and each time stamp is a reading of the clock taken
    earlier.  Requests are only ever appended with the current reading,
    and polls only ever remove them from the front. *)
Theorem reachable_stamped :
  forall env w,
    monotone_clock env -> reachable env w -> stamped env w.
Proof.
  intros env w Hmono Hreach.
  induction Hreach as [address | w c Hreach IH].
  - split; [| constructor].
    intros i j c1 n1 t1 c2 n2 t2 _ Hi. destruct i; discriminate.
  - assert (Hsame : forall A (m : M A),
               keeps (fun w' => _waitBuffer w' = _waitBuffer w /\
                                ticks_read w' = ticks_read w) m ->
               stamped env (snd (m env w))).
    { intros A m Hkeeps.
      destruct (Hkeeps env w (conj eq_refl eq_refl)) as [Hq Hclock].
      exact (stamped_frame env w _ Hq Hclock IH). }
    assert (Hrequest : forall command kind argCount,
               length command <= 64 ->
               stamped env (snd ((_sendCommand command [] ;;
                                  waitBuffer_append kind argCount) env w))).
    { intros command kind argCount Hshort.
      pose proof (request_run command kind argCount env w Hshort) as Hrun.
      destruct (writeto_reply env (writes_tried w)) as [msg |];
        destruct Hrun as (w' & -> & _ & Hq & _ & Hclock); cbn [snd].
      - exact (stamped_frame env w w' Hq Hclock IH).
      - exact (stamped_append env w w' kind argCount Hmono Hq Hclock IH). }
    destruct c; cbn [perform].
    + unfold startRecording, bind, isRecording, gets.
      destruct w as [a d [s |] dbg wq iq nw nr nt t]; exact IH.
    + unfold getRecordingSize, bind, isRecording, gets.
      destruct w as [a d [s |] dbg wq iq nw nr nt t]; exact IH.
    + rewrite stopRecording_closed_form. unfold released.
      destruct w as [a d [s |] dbg wq iq nw nr nt t]; exact IH.
    + apply Hsame. apply keeps_executeScript; stamped_frame_step.
    + apply Hsame. apply keeps_sendCommand; stamped_frame_step.
    + apply Hsame. apply keeps_sendFile; stamped_frame_step.
    + apply Hsame. apply keeps_sendLargeFileSlowly; stamped_frame_step.
    + apply (Hrequest (b_lit "RPNXYI") CLICK 2). cbn. lia.
    + apply (Hrequest (b_lit "RDAUX") ANALOG 1). cbn. lia.
    + apply (Hrequest (b_lit "RPNXYC") CLICK 2). cbn. lia.
    + apply (Hrequest (b_lit "RDTMP") TEMP 1). cbn. lia.
    + apply (Hrequest (b_lit "RPNXYW") CLICK 2). cbn. lia.
    + apply (Hrequest (b_lit "RDBAT") VOLTAGE 1). cbn. lia.
    + destruct (doCheck_queue_clock env w) as (d & Hq & Hclock).
      exact (stamped_skipn env w _ d Hq Hclock IH).
Qed.

Lemma reachable_stamped_witness :
  stamped (mkEnv (fun _ => None) (fun _ => BusError "ETIMEDOUT")
                 (fun k => (10 * Z.of_nat k)%Z) (fun _ => None))
          (perform call_readVoltage
             (mkEnv (fun _ => None) (fun _ => BusError "ETIMEDOUT")
                    (fun k => (10 * Z.of_nat k)%Z) (fun _ => None))
             (perform call_readClick
                (mkEnv (fun _ => None) (fun _ => BusError "ETIMEDOUT")
                       (fun k => (10 * Z.of_nat k)%Z) (fun _ => None))
                (__init__ 39))).
Proof.
  apply reachable_stamped.
  - intros i j Hij. cbn [ticks]. lia.
  - apply reachable_call, reachable_call, reachable_init.
Defined.

(* ================================================================== *)
(** * A lone touch request *)
(* ================================================================== *)

(** The first loop of a poll with one pending request: one read. *)
Lemma lone_drain (env : Env) (w : World) (entry : Pending) :
  _waitBuffer w = [entry] ->
  delivers env (reads_tried w) ->
  exists w1,
    drain env w = (Ret tt, w1) /\
    _inBuffer w1 = _inBuffer w ++ [reading env (reads_tried w)] /\
    reads_tried w1 = S (reads_tried w) /\
    _waitBuffer w1 = [entry] /\
    ticks_read w1 = ticks_read w.
Proof.
  intros Hq Hdata.
  destruct (drain_frame env w) as [_ Hclock].
  destruct (drain_turn_data env w Hdata) as (w1 & Hrun & Hin & Hn & Hq1).
  assert (Hdrain : drain env w = (Ret tt, w1)).
  { unfold drain, try_except_OSError. unfold bind at 1. cbn [gets]. rewrite Hq.
    cbn [for_each]. rewrite (bind_run _ Hrun). reflexivity. }
  rewrite Hdrain in Hclock. cbn [snd] in Hclock.
  exists w1. rewrite Hq1, Hq. repeat split; assumption.
Qed.

(** X23: a lone touch request takes two polls.  A poll reads one
    two-byte value per pending request, and a touch request asks for
    two.  With one touch request pending, nothing in the raw-response
    queue, the request not expired at the one reading of the clock each
    of the two polls takes, and the device delivering, the first poll
    returns no event; the second poll returns the click made of the two
    values read, or nothing when the first value is above 1000. *)
Theorem click_takes_two_polls :
  forall env w timeStamp,
    _waitBuffer w = [(CLICK, 2, timeStamp)] ->
    _inBuffer w = [] ->
    (ticks env (ticks_read w) - timeStamp <= 2000)%Z ->
    (ticks env (S (ticks_read w)) - timeStamp <= 2000)%Z ->
    delivers env (reads_tried w) ->
    delivers env (S (reads_tried w)) ->
    exists w1 w2,
      doCheck env w = (Ret [], w1) /\
      doCheck env w1
        = (Ret (if (1000 <? reading env (reads_tried w))%Z then []
                else [(CLICK, [Int (reading env (reads_tried w));
                               Int (reading env (S (reads_tried w)))])]),
           w2).
Proof.
  intros env w timeStamp Hq Hin Hfresh1 Hfresh2 Hx Hy.
  destruct (lone_drain env w _ Hq Hx) as (w1 & Hdrain1 & Hin1 & Hn1 & Hq1 & Hclock1).
  rewrite Hin in Hin1. cbn [app] in Hin1.
  exists (tick w1).
  assert (Hpoll1 : doCheck env w = (Ret [], tick w1)).
  { rewrite (doCheck_after_drain env w w1 Hdrain1), Hq1. cbn [length].
    rewrite walk_step, Hq1. cbn [nth_error]. rewrite Hclock1.
    destruct (Z.ltb_spec 2000 (ticks env (ticks_read w) - timeStamp)); [lia |].
    rewrite Hin1. cbn [length Nat.ltb Nat.leb].
    destruct w1 as [a d p dbg wq iq nw nr nt t]. cbn [_waitBuffer] in Hq1. subst wq.
    reflexivity. }
  assert (Hstate : _waitBuffer (tick w1) = [(CLICK, 2, timeStamp)] /\
                   _inBuffer (tick w1) = [reading env (reads_tried w)] /\
                   reads_tried (tick w1) = S (reads_tried w) /\
                   ticks_read (tick w1) = S (ticks_read w))
    by (destruct w1; cbn in *; subst; repeat split; assumption).
  destruct Hstate as (Hq' & Hin' & Hn' & Hclock').
  rewrite <- Hn' in Hy.
  destruct (lone_drain env (tick w1) _ Hq' Hy) as (w2 & Hdrain2 & Hin2 & _ & Hq2 & Hclock2).
  rewrite Hin', Hn' in Hin2. cbn [app] in Hin2. rewrite Hclock' in Hclock2.
  rewrite (doCheck_after_drain env (tick w1) w2 Hdrain2), Hq2. cbn [length].
  rewrite walk_step, Hq2. cbn [nth_error]. rewrite Hclock2.
  destruct (Z.ltb_spec 2000 (ticks env (S (ticks_read w)) - timeStamp)); [lia |].
  rewrite Hin2.
  cbn [length Nat.ltb Nat.leb firstn skipn process map]. cbv zeta.
  destruct (1000 <? reading env (reads_tried w))%Z; cbn [walk ret app].
  - destruct w2 as [a d p dbg wq iq nw nr nt t]. cbn [_waitBuffer] in Hq2. subst wq.
    eexists. split; [exact Hpoll1 | reflexivity].
  - destruct w2 as [a d p dbg wq iq nw nr nt t]. cbn [_waitBuffer] in Hq2. subst wq.
    eexists. split; [exact Hpoll1 | reflexivity].
Qed.

Lemma click_takes_two_polls_witness :
  exists w1 w2,
    doCheck (running [(x00, x64); (x00, xc8)] 500)
            (perform call_readClick (running [(x00, x64); (x00, xc8)] 500) (__init__ 39))
      = (Ret [], w1) /\
    doCheck (running [(x00, x64); (x00, xc8)] 500) w1
      = (Ret (if Z.ltb 1000
                   (reading (running [(x00, x64); (x00, xc8)] 500)
                      (reads_tried
                         (perform call_readClick (running [(x00, x64); (x00, xc8)] 500)
                            (__init__ 39))))
              then []
              else [(CLICK,
                     [Int (reading (running [(x00, x64); (x00, xc8)] 500)
                             (reads_tried
                                (perform call_readClick
                                   (running [(x00, x64); (x00, xc8)] 500) (__init__ 39))));
                      Int (reading (running [(x00, x64); (x00, xc8)] 500)
                             (S (reads_tried
                                   (perform call_readClick
                                      (running [(x00, x64); (x00, xc8)] 500)
                                      (__init__ 39)))))])]),
         w2).
Proof.
  apply (click_takes_two_polls (running [(x00, x64); (x00, xc8)] 500)
           (perform call_readClick (running [(x00, x64); (x00, xc8)] 500) (__init__ 39))
           0%Z).
  - reflexivity.
  - reflexivity.
  - vm_compute. discriminate.
  - vm_compute. discriminate.
  - eexists. eexists. reflexivity.
  - eexists. eexists. reflexivity.
Defined.

(* ================================================================== *)
(** * A served request stays pending *)
(* ================================================================== *)

(** A read request that the bus accepts, with the counters of the bus
    and of the clock. *)
Lemma request_counters (command : bytes) (kind : EventCode) (argCount : nat)
      (env : Env) (w : World) :
  length command <= 64 ->
  writeto_reply env (writes_tried w) = None ->
  exists w',
    (_sendCommand command [] ;; waitBuffer_append kind argCount) env w = (Ret tt, w') /\
    _waitBuffer w' = _waitBuffer w ++ [(kind, argCount, ticks env (ticks_read w))] /\
    _inBuffer w' = _inBuffer w /\
    ticks_read w' = S (ticks_read w) /\
    reads_tried w' = reads_tried w /\
    writes_tried w' = S (writes_tried w).
Proof.
  intros Hshort Hreply.
  pose proof (request_run command kind argCount env w Hshort) as Hrun.
  rewrite Hreply in Hrun. destruct Hrun as (w' & Hrun & _ & Hq & Hin & Hclock).
  exists w'. split; [exact Hrun |]. split; [exact Hq |]. split; [exact Hin |].
  split; [exact Hclock |].
  assert (Hsend : _sendCommand command [] env w = transmit command env w).
  { unfold _sendCommand. cbn [append_args]. unfold bind at 1, lift.
    unfold _write. cbn [_write_depth].
    destruct (Nat.ltb_spec 64 (length command)); [lia | reflexivity]. }
  destruct (transmit_accepted env command w Hreply) as (w1 & Htransmit & Hn & _).
  assert (Hreads : reads_tried w1 = reads_tried w).
  { pose proof (keeps_transmit (fun w0 => reads_tried w0 = reads_tried w)) as Hkeeps.
    specialize (Hkeeps ltac:(intros ? [? ? ? ? ? ? ? ? ? ?] H; exact H)
                       ltac:(intros ? [? ? ? ? ? ? ? ? ? ?] H; exact H)
                       ltac:(intros ? ? [? ? ? ? ? ? ? ? ? ?] ? H; exact H)
                       command env w eq_refl).
    rewrite Htransmit in Hkeeps. exact Hkeeps. }
  rewrite <- Hsend in Htransmit. rewrite (bind_run _ Htransmit) in Hrun.
  destruct w1 as [a1 d1 p1 dbg1 wq1 iq1 nw1 nr1 nt1 t1].
  injection Hrun as <-. cbn in *. split; assumption.
Qed.

Lemma doCheck_writes_tried (env : Env) (w : World) :
  writes_tried (snd (doCheck env w)) = writes_tried w.
Proof.
  apply (keeps_doCheck (fun w' => writes_tried w' = writes_tried w));
    try (intros ? [? ? ? ? ? ? ? ? ? ?] H; exact H).
  reflexivity.
Qed.

(** A poll with one voltage request pending and its answer on the bus. *)
Lemma lone_voltage_poll (env : Env) (w : World) (timeStamp : Z) :
  _waitBuffer w = [(VOLTAGE, 1, timeStamp)] ->
  _inBuffer w = [] ->
  delivers env (reads_tried w) ->
  (ticks env (ticks_read w) - timeStamp <= 2000)%Z ->
  exists w',
    doCheck env w = (Ret [(VOLTAGE, [Int (reading env (reads_tried w))])], w') /\
    _waitBuffer w' = [(VOLTAGE, 1, timeStamp)] /\
    _inBuffer w' = [] /\
    reads_tried w' = S (reads_tried w) /\
    ticks_read w' = S (ticks_read w).
Proof.
  intros Hq Hin Hdata Hfresh.
  destruct (lone_drain env w _ Hq Hdata) as (w1 & Hdrain & Hin1 & Hn1 & Hq1 & Hclock1).
  rewrite Hin in Hin1. cbn [app] in Hin1.
  rewrite (doCheck_after_drain env w w1 Hdrain), Hq1. cbn [length].
  rewrite walk_step, Hq1. cbn [nth_error]. rewrite Hclock1.
  destruct (Z.ltb_spec 2000 (ticks env (ticks_read w) - timeStamp)); [lia |].
  rewrite Hin1. cbn [length Nat.ltb Nat.leb firstn skipn process map]. cbv zeta.
  cbn [walk ret app].
  destruct w1 as [a d p dbg wq iq nw nr nt t].
  cbn [_waitBuffer _inBuffer reads_tried ticks_read] in *. subst wq iq nr nt.
  eexists. split; [reflexivity |]. cbn. repeat split.
Qed.

(** The next poll, with a second request pending behind the served one
    and one more answer on the bus. *)
Lemma served_voltage_poll (env : Env) (w : World) (ts1 ts2 : Z) (msg : string) :
  _waitBuffer w = [(VOLTAGE, 1, ts1); (ANALOG, 1, ts2)] ->
  _inBuffer w = [] ->
  delivers env (reads_tried w) ->
  readfrom_reply env (S (reads_tried w)) = BusError msg ->
  contains "ETIMEDOUT" msg = true ->
  (ticks env (ticks_read w) - ts1 <= 2000)%Z ->
  (ticks env (S (ticks_read w)) - ts2 <= 2000)%Z ->
  exists w',
    doCheck env w = (Ret [(VOLTAGE, [Int (reading env (reads_tried w))])], w') /\
    _waitBuffer w' = [(VOLTAGE, 1, ts1); (ANALOG, 1, ts2)].
Proof.
  intros Hq Hin Hdata Herr Htimeout Hfresh1 Hfresh2.
  destruct (drain_frame env w) as [_ Hclock].
  destruct (drain_loop_run env (_waitBuffer w) w 1) as [_ Hfail].
  { intros j Hj _. assert (j = 0) by lia. subst j. rewrite Nat.add_0_r. exact Hdata. }
  destruct (Hfail msg) as (w1 & Hrun & Hin1 & _ & Hq1).
  { rewrite Hq. cbn. lia. }
  { rewrite Nat.add_1_r. exact Herr. }
  assert (Hdrain : drain env w = (Ret tt, w1)).
  { unfold drain, try_except_OSError. unfold bind at 1. cbn [gets]. rewrite Hrun, Htimeout.
    reflexivity. }
  rewrite Hdrain in Hclock. cbn [snd] in Hclock.
  rewrite Hin in Hin1. cbn [app seq map] in Hin1. rewrite Hq in Hq1.
  rewrite (doCheck_after_drain env w w1 Hdrain), Hq1. cbn [length].
  rewrite walk_step, Hq1. cbn [nth_error]. rewrite Hclock.
  destruct (Z.ltb_spec 2000 (ticks env (ticks_read w) - ts1)); [lia |].
  rewrite Hin1. cbn [length Nat.ltb Nat.leb firstn skipn process map]. cbv zeta.
  rewrite walk_step.
  destruct w1 as [a d p dbg wq iq nw nr nt t].
  cbn [_waitBuffer _inBuffer reads_tried ticks_read tick set_ticks_read set_inBuffer] in *.
  subst wq iq nt. cbn [nth_error].
  destruct (Z.ltb_spec 2000 (ticks env (S (ticks_read w)) - ts2)); [lia |].
  cbn [length Nat.ltb Nat.leb app].
  eexists. split; [reflexivity |]. reflexivity.
Qed.

(** C2 at its failing input: on a display with nothing pending, ask for
    the voltage, poll, ask for the analog value, poll again; the device
    answers each request with one value and the requests are not
    expired when the polls examine them.  The first poll serves the
    voltage request and returns its event, but the request is still in
    the pending queue when that poll returns.  So the second poll hands
    the answer to the analog request to the voltage request again: it
    returns a second voltage event carrying the analog reading, and no
    analog event. *)
Theorem served_request_takes_next_reply :
  forall env w msg,
    _waitBuffer w = [] ->
    _inBuffer w = [] ->
    writeto_reply env (writes_tried w) = None ->
    writeto_reply env (S (writes_tried w)) = None ->
    delivers env (reads_tried w) ->
    delivers env (S (reads_tried w)) ->
    readfrom_reply env (S (S (reads_tried w))) = BusError msg ->
    contains "ETIMEDOUT" msg = true ->
    (ticks env (1 + ticks_read w) - ticks env (ticks_read w) <= 2000)%Z ->
    (ticks env (3 + ticks_read w) - ticks env (ticks_read w) <= 2000)%Z ->
    (ticks env (4 + ticks_read w) - ticks env (2 + ticks_read w) <= 2000)%Z ->
    exists w1 w2 w3 w4,
      readVoltage env w = (Ret tt, w1) /\
      doCheck env w1 = (Ret [(VOLTAGE, [Int (reading env (reads_tried w))])], w2) /\
      _waitBuffer w2 = [(VOLTAGE, 1, ticks env (ticks_read w))] /\
      readAnalog env w2 = (Ret tt, w3) /\
      doCheck env w3 = (Ret [(VOLTAGE, [Int (reading env (S (reads_tried w)))])], w4) /\
      _waitBuffer w4 = [(VOLTAGE, 1, ticks env (ticks_read w));
                        (ANALOG, 1, ticks env (2 + ticks_read w))].
Proof.
  intros env w msg Hq Hin Hw0 Hw1 Hr0 Hr1 Hr2 Htimeout Hc1 Hc3 Hc4.
  destruct (request_counters (b_lit "RDBAT") VOLTAGE 1 env w ltac:(cbn; lia) Hw0)
    as (w1 & Hrun1 & Hq1 & Hin1 & Hclock1 & Hreads1 & Hwrites1).
  rewrite Hq in Hq1. rewrite Hin in Hin1. cbn [app] in Hq1.
  destruct (lone_voltage_poll env w1 (ticks env (ticks_read w)) Hq1 Hin1)
    as (w2 & Hrun2 & Hq2 & Hin2 & Hreads2 & Hclock2).
  { rewrite Hreads1. exact Hr0. }
  { rewrite Hclock1. exact Hc1. }
  pose proof (doCheck_writes_tried env w1) as Hwrites2.
  rewrite Hrun2 in Hwrites2. cbn [snd] in Hwrites2.
  destruct (request_counters (b_lit "RDAUX") ANALOG 1 env w2 ltac:(cbn; lia))
    as (w3 & Hrun3 & Hq3 & Hin3 & Hclock3 & Hreads3 & _).
  { rewrite Hwrites2, Hwrites1. exact Hw1. }
  rewrite Hq2, Hclock2, Hclock1 in Hq3. rewrite Hin2 in Hin3. cbn [app] in Hq3.
  rewrite Hclock2, Hclock1 in Hclock3. rewrite Hreads2, Hreads1 in Hreads3.
  destruct (served_voltage_poll env w3 (ticks env (ticks_read w))
              (ticks env (S (S (ticks_read w)))) msg Hq3 Hin3)
    as (w4 & Hrun4 & Hq4).
  { rewrite Hreads3. exact Hr1. }
  { rewrite Hreads3. exact Hr2. }
  { exact Htimeout. }
  { rewrite Hclock3. exact Hc3. }
  { rewrite Hclock3. exact Hc4. }
  exists w1, w2, w3, w4. rewrite Hreads1 in Hrun2. rewrite Hreads3 in Hrun4.
  repeat split; assumption.
Qed.

Lemma served_request_takes_next_reply_witness :
  exists w1 w2 w3 w4,
    readVoltage (running [(x0c, xe4); (x01, x54)] 100) (__init__ 39) = (Ret tt, w1) /\
    doCheck (running [(x0c, xe4); (x01, x54)] 100) w1
      = (Ret [(VOLTAGE, [Int (reading (running [(x0c, xe4); (x01, x54)] 100)
                                 (reads_tried (__init__ 39)))])], w2) /\
    _waitBuffer w2
      = [(VOLTAGE, 1, ticks (running [(x0c, xe4); (x01, x54)] 100)
                        (ticks_read (__init__ 39)))] /\
    readAnalog (running [(x0c, xe4); (x01, x54)] 100) w2 = (Ret tt, w3) /\
    doCheck (running [(x0c, xe4); (x01, x54)] 100) w3
      = (Ret [(VOLTAGE, [Int (reading (running [(x0c, xe4); (x01, x54)] 100)
                                 (S (reads_tried (__init__ 39))))])], w4) /\
    _waitBuffer w4
      = [(VOLTAGE, 1, ticks (running [(x0c, xe4); (x01, x54)] 100)
                        (ticks_read (__init__ 39)));
         (ANALOG, 1, ticks (running [(x0c, xe4); (x01, x54)] 100)
                       (2 + ticks_read (__init__ 39)))].
Proof.
  apply (served_request_takes_next_reply (running [(x0c, xe4); (x01, x54)] 100)
           (__init__ 39) "[Errno 110] ETIMEDOUT").
  - reflexivity.
  - reflexivity.
  - reflexivity.
  - reflexivity.
  - eexists. eexists. reflexivity.
  - eexists. eexists. reflexivity.
  - reflexivity.
  - reflexivity.
  - cbn. lia.
  - cbn. lia.
  - cbn. lia.
Defined.

(** The same run with the values spelled out: the device answers 3300
    (mV) to the voltage request and 340 to the analog request. *)
Example voltage_reported_twice :
  fst (doCheck (running [(x0c, xe4); (x01, x54)] 100)
         (perform call_readVoltage (running [(x0c, xe4); (x01, x54)] 100) (__init__ 39)))
    = Ret [(VOLTAGE, [Int 3300])]
  /\ fst (doCheck (running [(x0c, xe4); (x01, x54)] 100)
            (perform call_readAnalog (running [(x0c, xe4); (x01, x54)] 100)
               (perform call_doCheck (running [(x0c, xe4); (x01, x54)] 100)
                  (perform call_readVoltage (running [(x0c, xe4); (x01, x54)] 100)
                     (__init__ 39)))))
    = Ret [(VOLTAGE, [Int 340])]
  /\ _waitBuffer
       (perform call_doCheck (running [(x0c, xe4); (x01, x54)] 100)
          (perform call_readAnalog (running [(x0c, xe4); (x01, x54)] 100)
             (perform call_doCheck (running [(x0c, xe4); (x01, x54)] 100)
                (perform call_readVoltage (running [(x0c, xe4); (x01, x54)] 100)
                   (__init__ 39)))))
    = [(VOLTAGE, 1, 0%Z); (ANALOG, 1, 200%Z)].
Proof. repeat split; vm_compute; reflexivity. Qed.

(* ================================================================== *)
(** * Uploads into the flash memory *)
(* ================================================================== *)

(** Sequencing under an invariant that the last step gives up: [P] holds
    wherever the sequence raises, [Q] where it returns. *)
Lemma then_ends {A B} (P Q : World -> Prop) (m : M A) (k : A -> M B) (env : Env) (w : World) :
  keeps P m -> P w ->
  (forall a w1, P w1 ->
     match k a env w1 with (Ret _, w') => Q w' | (Raise _, w') => P w' end) ->
  match bind m k env w with (Ret _, w') => Q w' | (Raise _, w') => P w' end.
Proof.
  intros Hkeeps HP Hrest. unfold bind. specialize (Hkeeps env w HP).
  destruct (m env w) as [[a | e] w1]; cbn [snd] in Hkeeps; [apply Hrest |]; exact Hkeeps.
Qed.

(** X24: the inter-segment delay after a paced bulk transfer of a file
    that exists.  When the transfer returns, the delay is what it was
    before the call; when it raises, wherever that happens, the delay is
    left at the 40 ms of the transfer: the assignment that restores it is
    the last statement and is not protected by a [finally]. *)
Theorem sendLargeFileSlowly_delay :
  forall env w fileName content,
    disk env fileName = Some content ->
    match _sendLargeFileSlowly fileName env w with
    | (Ret _, w') => dataDelay w' = dataDelay w
    | (Raise _, w') => dataDelay w' = 40%Z
    end.
Proof.
  intros env w fileName content Hdisk.
  unfold _sendLargeFileSlowly, _getFileSize.
  assert (Hopen : open_rb fileName env w = (Ret content, w))
    by (unfold open_rb; rewrite Hdisk; reflexivity).
  rewrite (bind_run _ (bind_run _ Hopen)).
  rewrite (bind_run _ (eq_refl : gets dataDelay env w = (Ret (dataDelay w), w))).
  rewrite (bind_run _ (eq_refl : modify (set_dataDelay 40) env w
                                 = (Ret tt, set_dataDelay 40 w))).
  assert (Hslow : dataDelay (set_dataDelay 40 w) = 40%Z) by (destruct w; reflexivity).
  revert Hslow. generalize (set_dataDelay 40 w) as w0. intros w0 Hslow.
  assert (Hframe1 : forall (t : list effect) w1,
             dataDelay w1 = 40%Z -> dataDelay (set_trace t w1) = 40%Z)
    by (intros ? [? ? ? ? ? ? ? ? ? ?] H; exact H).
  assert (Hframe2 : forall (n : nat) w1,
             dataDelay w1 = 40%Z -> dataDelay (set_writes_tried n w1) = 40%Z)
    by (intros ? [? ? ? ? ? ? ? ? ? ?] H; exact H).
  assert (Hframe3 : forall s v w1, _paperTrail w1 = Some s ->
             dataDelay w1 = 40%Z ->
             dataDelay (set_paperTrail (Some (BytesIO_write v s)) w1) = 40%Z)
    by (intros ? ? [? ? ? ? ? ? ? ? ? ?] _ H; exact H).
  apply (then_ends (fun w' => dataDelay w' = 40%Z)); [apply keeps_lift | exact Hslow |].
  intros header w1 H1.
  apply (then_ends (fun w' => dataDelay w' = 40%Z));
    [apply keeps_write; assumption | exact H1 |].
  intros _ w2 H2.
  apply (then_ends (fun w' => dataDelay w' = 40%Z));
    [apply keeps_sleep_ms; assumption | exact H2 |].
  intros _ w3 H3.
  apply (then_ends (fun w' => dataDelay w' = 40%Z));
    [apply keeps_sendFile; assumption | exact H3 |].
  intros _ w4 H4.
  apply (then_ends (fun w' => dataDelay w' = 40%Z));
    [apply keeps_write; assumption | exact H4 |].
  intros _ w5 H5.
  apply (then_ends (fun w' => dataDelay w' = 40%Z));
    [apply keeps_sleep_ms; assumption | exact H5 |].
  intros _ w6 H6.
  destruct w6 as [a6 d6 p6 dbg6 wq6 iq6 nw6 nr6 nt6 t6]. reflexivity.
Qed.

Lemma sendLargeFileSlowly_delay_witness :
  match _sendLargeFileSlowly "f"
          (mkEnv (fun k => if k =? 1 then Some "[Errno 5] EIO"%string else None)
                 (fun _ => BusError "ETIMEDOUT") (fun _ => 0%Z)
                 (fun name => if String.eqb name "f" then Some (repeat x2a 10) else None))
          (__init__ 39) with
  | (Ret _, w') => dataDelay w' = dataDelay (__init__ 39)
  | (Raise _, w') => dataDelay w' = 40%Z
  end.
Proof.
  apply (sendLargeFileSlowly_delay
           (mkEnv (fun k => if k =? 1 then Some "[Errno 5] EIO"%string else None)
                  (fun _ => BusError "ETIMEDOUT") (fun _ => 0%Z)
                  (fun name => if String.eqb name "f" then Some (repeat x2a 10) else None))
           (__init__ 39) "f" (repeat x2a 10)).
  reflexivity.
Defined.

Section Uploads.

Variable env : Env.
Hypothesis bus_ok : bus_accepts env.

(** The transfer of a file below 64 KiB, with what the recording sees. *)
Lemma sendLargeFileSlowly_run (fileName : string) (content : bytes) (w : World) :
  disk env fileName = Some content ->
  length content < 256 * 256 ->
  exists w' hi lo payload,
    _sendLargeFileSlowly fileName env w = (Ret tt, w') /\
    sent ([[hi; lo]] ++ payload ++ [end_indicator]) w w' /\
    (256 * byte_value hi + byte_value lo = Z.of_nat (length content))%Z /\
    concat payload = content /\
    Forall (fun s : bytes => length s <= 64) payload.
Proof.
  intros Hdisk Hsize.
  destruct (length_header (length content) Hsize) as (hi & lo & Hheader & Hvalue).
  unfold _sendLargeFileSlowly, _getFileSize, _sendFile.
  assert (Hopen : forall w0, open_rb fileName env w0 = (Ret content, w0))
    by (intros w0; unfold open_rb; rewrite Hdisk; reflexivity).
  rewrite (bind_run _ (bind_run _ (Hopen w))).
  rewrite (bind_run _ (eq_refl : gets dataDelay env w = (Ret (dataDelay w), w))).
  rewrite (bind_run _ (eq_refl : modify (set_dataDelay 40) env w
                                 = (Ret tt, set_dataDelay 40 w))).
  rewrite Hheader.
  rewrite (bind_run _ (eq_refl : lift (Ret [hi; lo]) env (set_dataDelay 40 w)
                                 = (Ret [hi; lo], set_dataDelay 40 w))).
  destruct (write_sent env bus_ok 0 [hi; lo] (set_dataDelay 40 w)) as (w1 & Hrun1 & Hsent1).
  unfold _write at 1. rewrite (bind_run _ Hrun1).
  destruct (emit_sent (Sleep 200) env w1 eq_refl) as (w2 & Hrun2 & Hsent2).
  unfold sleep_ms at 1. rewrite (bind_run _ Hrun2).
  destruct (sendFile_loop_sent env bus_ok (S (length content)) content w2
              (Nat.lt_succ_diag_r _))
    as (w3 & payload & Hrun3 & Hsent3 & Hcat & Hshort).
  assert (Hfile : (content0 <- open_rb fileName ;;
                   _sendFile_loop (S (length content0)) content0) env w2 = (Ret tt, w3))
    by (rewrite (bind_run _ (Hopen w2)); exact Hrun3).
  rewrite (bind_run _ Hfile).
  destruct (write_sent env bus_ok 0 end_indicator w3) as (w4 & Hrun4 & Hsent4).
  unfold _write at 1. rewrite (bind_run _ Hrun4).
  destruct (emit_sent (Sleep 40) env w4 eq_refl) as (w5 & Hrun5 & Hsent5).
  unfold sleep_ms at 1. rewrite (bind_run _ Hrun5).
  exists (set_dataDelay (dataDelay w) w5), hi, lo, payload.
  pose proof (sent_trans _ _ _ _ _ Hsent1 Hsent2) as H12.
  pose proof (sent_trans _ _ _ _ _ H12 Hsent3) as H13.
  pose proof (sent_trans _ _ _ _ _ H13 Hsent4) as H14.
  pose proof (sent_trans _ _ _ _ _ H14 Hsent5) as (Hwrites & _ & Hmirror).
  split; [reflexivity |]. split; [| repeat split; assumption].
  assert (Hsegs : (segments [hi; lo] ++ []) ++ payload ++ segments end_indicator ++ []
                  = [[hi; lo]] ++ payload ++ [end_indicator]).
  { unfold segments. cbn [length Nat.ltb Nat.leb].
    rewrite !app_nil_r. reflexivity. }
  rewrite <- !app_assoc in Hwrites, Hmirror. rewrite <- !app_assoc in Hsegs.
  rewrite Hsegs in Hwrites, Hmirror.
  destruct w5 as [a5 d5 p5 dbg5 wq5 iq5 nw5 nr5 nt5 t5].
  destruct w as [a d p dbg wq iq nw nr nt t].
  unfold sent, mirrored in *.
  cbn [dataDelay set_dataDelay trace _paperTrail] in *.
  split; [exact Hwrites |]. split; [reflexivity | exact Hmirror].
Qed.

(** A file of 64 KiB or more: its length does not fit the two-byte
    header, and [bytes([...])] raises before anything is sent. *)
Lemma sendLargeFileSlowly_too_large (fileName : string) (content : bytes) (w : World) :
  disk env fileName = Some content ->
  256 * 256 <= length content ->
  _sendLargeFileSlowly fileName env w = (Raise ValueError, set_dataDelay 40 w).
Proof.
  intros Hdisk Hsize.
  unfold _sendLargeFileSlowly, _getFileSize.
  assert (Hopen : open_rb fileName env w = (Ret content, w))
    by (unfold open_rb; rewrite Hdisk; reflexivity).
  rewrite (bind_run _ (bind_run _ Hopen)).
  rewrite (bind_run _ (eq_refl : gets dataDelay env w = (Ret (dataDelay w), w))).
  rewrite (bind_run _ (eq_refl : modify (set_dataDelay 40) env w
                                 = (Ret tt, set_dataDelay 40 w))).
  assert (Hheader : bytes_of_ints [length content / 256; length content mod 256]
                    = Raise ValueError).
  { unfold bytes_of_ints, bytes_of_Ns. cbn [map fold_right].
    assert (Hhi : 256 <= length content / 256)
      by (apply Nat.div_le_lower_bound; lia).
    destruct (Byte.of_N (N.of_nat (length content / 256))) as [hi |] eqn:Ehi.
    - apply Byte.to_of_N in Ehi. pose proof (Byte.to_N_bounded hi). lia.
    - destruct (Byte.of_N (N.of_nat (length content mod 256))); reflexivity. }
  rewrite Hheader. reflexivity.
Qed.

(** The body shared by [uploadUserFont] and [uploadStartScreen]. *)
Lemma upload_run (opcode : bytes) (args : list pyval) (command : bytes)
      (fileName : string) (w : World) :
  append_args opcode args = Ret command ->
  match disk env fileName with
  | None =>
      (_getFileSize fileName ;; _sendCommand opcode args ;;
       _sendLargeFileSlowly fileName) env w
        = (Raise (OSError "ENOENT"), w)
  | Some content =>
      if length content <? 256 * 256 then
        exists w' hi lo payload,
          (_getFileSize fileName ;; _sendCommand opcode args ;;
           _sendLargeFileSlowly fileName) env w = (Ret tt, w') /\
          sent (segments command ++ [[hi; lo]] ++ payload ++ [end_indicator]) w w' /\
          (256 * byte_value hi + byte_value lo = Z.of_nat (length content))%Z /\
          concat payload = content /\
          Forall (fun s : bytes => length s <= 64) payload
      else
        exists w',
          (_getFileSize fileName ;; _sendCommand opcode args ;;
           _sendLargeFileSlowly fileName) env w = (Raise ValueError, w') /\
          bus_writes (trace w') = bus_writes (trace w) ++ segments command /\
          dataDelay w' = 40%Z
  end.
Proof.
  intros Hcommand.
  destruct (disk env fileName) as [content |] eqn:Hdisk.
  - assert (Hsize : _getFileSize fileName env w = (Ret (length content), w))
      by (unfold _getFileSize, bind, open_rb; rewrite Hdisk; reflexivity).
    rewrite (bind_run _ Hsize).
    destruct (write_sent env bus_ok 0 command w) as (w1 & Hrun1 & Hsent1).
    assert (Hsend : _sendCommand opcode args env w = (Ret tt, w1))
      by (unfold _sendCommand, bind, lift; rewrite Hcommand; exact Hrun1).
    rewrite (bind_run _ Hsend).
    destruct (Nat.ltb_spec (length content) (256 * 256)) as [Hsmall | Hlarge].
    + destruct (sendLargeFileSlowly_run fileName content w1 Hdisk Hsmall)
        as (w' & hi & lo & payload & Hrun & Hsent & Hvalue & Hcat & Hshort).
      exists w', hi, lo, payload. split; [exact Hrun |].
      split; [| repeat split; assumption].
      exact (sent_trans _ _ _ _ _ Hsent1 Hsent).
    + rewrite (sendLargeFileSlowly_too_large fileName content w1 Hdisk Hlarge).
      eexists. split; [reflexivity |].
      destruct Hsent1 as (Hwrites & _ & _).
      destruct w1 as [a1 d1 p1 dbg1 wq1 iq1 nw1 nr1 nt1 t1].
      split; [exact Hwrites | reflexivity].
  - unfold _getFileSize, bind, open_rb. rewrite Hdisk. reflexivity.
Qed.

End Uploads.

(** X25: what [uploadUserFont] and [uploadStartScreen] do on a bus that
    accepts the writes.  If the file cannot be opened, the call raises
    the file error and nothing at all has happened: no command went out.
    If the file is shorter than 64 KiB, the call returns; the bus has
    seen the command, the two-byte big-endian length, the payload in
    segments of at most 64 bytes and the end indicator, in this order, a
    running recording has mirrored all of it, and the delay is restored.
    If the file has 64 KiB or more, the command has gone out but the
    length does not fit its two bytes: the call raises [ValueError] with
    no data sent after the command, and the delay stays at 40 ms. *)
Theorem upload_outcomes :
  forall env w index method opcode args command fileName,
    In (method, opcode, args) (uploads index) ->
    bus_accepts env ->
    append_args opcode args = Ret command ->
    match disk env fileName with
    | None => method fileName env w = (Raise (OSError "ENOENT"), w)
    | Some content =>
        if length content <? 256 * 256 then
          exists w' hi lo payload,
            method fileName env w = (Ret tt, w') /\
            sent (segments command ++ [[hi; lo]] ++ payload ++ [end_indicator]) w w' /\
            (256 * byte_value hi + byte_value lo = Z.of_nat (length content))%Z /\
            concat payload = content /\
            Forall (fun s : bytes => length s <= 64) payload
        else
          exists w',
            method fileName env w = (Raise ValueError, w') /\
            bus_writes (trace w') = bus_writes (trace w) ++ segments command /\
            dataDelay w' = 40%Z
    end.
Proof.
  intros env w index method opcode args command fileName Hin Hbus Hcommand.
  unfold uploads in Hin. cbn [In] in Hin.
  destruct Hin as [Hin | [Hin | []]]; injection Hin as <- <- <-;
    exact (upload_run env Hbus _ _ command fileName w Hcommand).
Qed.

Lemma upload_outcomes_witness :
  exists w' hi lo payload,
    uploadUserFont (PInt 1) "f" (bench [] 0 (repeat x2a 300)) (__init__ 39) = (Ret tt, w') /\
    sent (segments (b_lit "SUF" ++ [x01]) ++ [[hi; lo]] ++ payload ++ [end_indicator])
         (__init__ 39) w' /\
    (256 * byte_value hi + byte_value lo = Z.of_nat (length (repeat x2a 300)))%Z /\
    concat payload = repeat x2a 300 /\
    Forall (fun s : bytes => length s <= 64) payload.
Proof.
  apply (upload_outcomes (bench [] 0 (repeat x2a 300)) (__init__ 39) (PInt 1)
           (uploadUserFont (PInt 1)) (b_lit "SUF") [PInt 1] (b_lit "SUF" ++ [x01]) "f").
  - left. reflexivity.
  - intros k. reflexivity.
  - reflexivity.
Defined.

(* ================================================================== *)
(** * Fonts and colours *)
(* ================================================================== *)

(** X26: the font index of [setFont].  An index from 0 to 6 selects the
    font number the table holds at that place; an index of 7 or more is
    sent as the font number itself.  The table is a Python list, so a
    negative index from -7 to -1 is accepted and counts from the end of
    the table ([setFont(-1)] is [setFont(6)]); an index below -7 raises
    [IndexError] and nothing is sent. *)
Theorem setFont_index :
  forall env w b,
    if (b <? -7)%Z then setFont b env w = (Raise IndexError, w)
    else if (b <? 0)%Z then setFont b env w = setFont (b + 7) env w
    else if (b <? 7)%Z then
      exists font,
        nth_error [0; 6; 10; 18; 51; 120; 123]%Z (Z.to_nat b) = Some font /\
        setFont b env w = _sendCommand (b_lit "SF") [PInt font] env w
    else setFont b env w = _sendCommand (b_lit "SF") [PInt b] env w.
Proof.
  intros env w b.
  destruct (Z.ltb_spec b (-7)) as [Hout | Hin].
  - unfold setFont. destruct (Z.ltb_spec b 7); [| lia].
    unfold list_getitem. cbn [length].
    destruct (Z.ltb_spec b 0); [| lia].
    destruct (Z.ltb_spec (Z.of_nat 7 + b) 0); [reflexivity | lia].
  - destruct (Z.ltb_spec b 0) as [Hneg | Hpos].
    + assert (Hcases : (b = -7 \/ b = -6 \/ b = -5 \/ b = -4 \/ b = -3 \/ b = -2 \/ b = -1)%Z)
        by lia.
      repeat (destruct Hcases as [-> | Hcases]; [reflexivity |]).
      subst b. reflexivity.
    + destruct (Z.ltb_spec b 7) as [Htable | Hplain].
      * assert (Hcases : (b = 0 \/ b = 1 \/ b = 2 \/ b = 3 \/ b = 4 \/ b = 5 \/ b = 6)%Z)
          by lia.
        repeat (destruct Hcases as [-> | Hcases]; [eexists; split; reflexivity |]).
        subst b. eexists. split; reflexivity.
      * unfold setFont. destruct (Z.ltb_spec b 7); [lia | reflexivity].
Qed.

(** The arguments [setColor] makes of the components of a colour. *)
Lemma append_args_components (c : list Z) :
  Forall (fun x => 0 <= x < 1020)%Z c ->
  forall command,
    exists bs,
      append_args command (map (fun x => PInt (Z.shiftr x 2)) c) = Ret (command ++ bs) /\
      map byte_value bs = map (fun x => x / 4)%Z c.
Proof.
  induction 1 as [| x c Hx _ IH]; intros command.
  - exists []. rewrite app_nil_r. split; reflexivity.
  - cbn [map append_args append_arg].
    assert (Hshift : Z.shiftr x 2 = (x / 4)%Z) by (rewrite Z.shiftr_div_pow2; [reflexivity | lia]).
    rewrite Hshift.
    destruct (append_int_small command (x / 4)) as (b & Hb & Hv).
    { split; [apply Z.div_pos; lia | apply Z.div_lt_upper_bound; lia]. }
    rewrite Hb.
    destruct (IH (command ++ [b])) as (bs & Hbs & Hvs).
    exists (b :: bs). rewrite Hbs, <- app_assoc. cbn [map app].
    rewrite Hv, Hvs. split; reflexivity.
Qed.

(** X27: [setColor] with a tuple or list of components.  On a bus that
    accepts the writes, components from 0 to 1019 (so every 8-bit
    component) go out as the opcode ESC followed by exactly one byte per
    component, whose value is the component divided by 4, rounded down;
    no component takes an extension byte. *)
Theorem setColor_components :
  forall env w c,
    bus_accepts env ->
    Forall (fun x => 0 <= x < 1020)%Z c ->
    exists w' bs,
      setColor (ColorComponents c) env w = (Ret tt, w') /\
      map byte_value bs = map (fun x => x / 4)%Z c /\
      sent (segments (b_lit "ESC" ++ bs)) w w'.
Proof.
  intros env w c Hbus Hc.
  destruct (append_args_components c Hc (b_lit "ESC")) as (bs & Hbs & Hvs).
  destruct (write_sent env Hbus 0 (b_lit "ESC" ++ bs) w) as (w' & Hrun & Hsent).
  exists w', bs. split; [| split; assumption].
  unfold setColor, _sendCommand, bind, lift. rewrite Hbs. exact Hrun.
Qed.

Lemma setColor_components_witness :
  exists w' bs,
    setColor (ColorComponents [255; 128; 3]%Z) (bench [] 0 []) (__init__ 39) = (Ret tt, w') /\
    map byte_value bs = map (fun x => x / 4)%Z [255; 128; 3]%Z /\
    sent (segments (b_lit "ESC" ++ bs)) (__init__ 39) w'.
Proof.
  apply (setColor_components (bench [] 0 []) (__init__ 39) [255; 128; 3]%Z).
  - intros k. reflexivity.
  - repeat constructor; lia.
Defined.
